(** * User administration API: query, pagination, guard and mutation pipeline

    A shallow embedding of the Express server of the repository:

    - [server/routes/user.js]     the six route handlers, [buildQuery] and
                                  [getPaginationSort];
    - [server/middleware/auth.js] the [auth] and [adminAuth] middlewares;
    - [server/models/User.js]     the Mongoose schema, its validators and its
                                  [pre('save')] hook.

    Handlers are functions from an environment, a request and the user
    collection to a response and the new collection.  Exceptions caught by
    the handlers' [try]/[catch] are values of [outcome].

    Numbers of the source are JavaScript doubles holding integers; the
    model uses [Z], which agrees with them up to [JS.MAX_SAFE_INTEGER],
    and the properties of numbers carry that bound.  Strings are the UTF-8
    encodings of the strings of the source: lengths are counted in UTF-16
    code units, white space is that of ECMAScript, letter case is changed
    within ASCII.  Request parameters and body fields are single strings
    (and a boolean for [isActive]), as the client of the repository sends
    them.

    The libraries the server calls (jsonwebtoken, bcryptjs, the regular
    expression engine of the document store) are not part of the
    repository; what the handlers need from them is gathered in the record
    [Libs], and a concrete model of the pattern language is given for the
    fragment made of ordinary characters and the wildcard. *)

From Stdlib Require Import List String Ascii ZArith Lia Bool DecimalString.
Import ListNotations.

Set Warnings "-register-all".

Local Open Scope string_scope.
Local Open Scope Z_scope.

(** ** JSON payloads *)

Inductive json : Type :=
| JNull
| JBool (b : bool)
| JNum (n : Z)
| JStr (s : string)
| JArr (items : list json)
| JObj (fields : list (string * json)).

(** Does the key [k] label a field anywhere inside the value? *)
Fixpoint has_key (k : string) (j : json) : bool :=
  match j with
  | JArr items => existsb (has_key k) items
  | JObj fields =>
      existsb (fun kv => String.eqb k (fst kv) || has_key k (snd kv)) fields
  | _ => false
  end.

Fixpoint lookup {A : Type} (k : string) (fields : list (string * A)) : option A :=
  match fields with
  | [] => None
  | (k', v) :: rest => if String.eqb k k' then Some v else lookup k rest
  end.

Definition get_field (k : string) (j : json) : option json :=
  match j with
  | JObj fields => lookup k fields
  | _ => None
  end.

(** ** Exceptions *)

Inductive outcome (A : Type) : Type :=
| Ok (a : A)
| Throw (message : string).
Arguments Ok {A} a.
Arguments Throw {A} message.

Definition bind {A B : Type} (m : outcome A) (k : A -> outcome B) : outcome B :=
  match m with
  | Ok a => k a
  | Throw e => Throw e
  end.

Notation "x <- m ;; k" := (bind m (fun x => k))
  (at level 61, m at next level, right associativity).

(** ** JavaScript primitives used by the routes *)

Module JS.

(** Truthiness of a possibly undefined string. *)
Definition truthy (v : option string) : bool :=
  match v with
  | Some s => negb (String.eqb s "")
  | None => false
  end.

(** [v || d] on strings. *)
Definition or_else (v : option string) (d : string) : string :=
  match v with
  | Some s => if String.eqb s "" then d else s
  | None => d
  end.

Definition code (c : ascii) : Z := Z.of_N (N_of_ascii c).

Definition between (lo hi : Z) (c : ascii) : bool :=
  (lo <=? code c) && (code c <=? hi).

(** The white space of ASCII. *)
Definition is_space (c : ascii) : bool :=
  between 9 13 c || (code c =? 32).

Definition is_upper (c : ascii) : bool := between 65 90 c.
Definition is_lower (c : ascii) : bool := between 97 122 c.
Definition is_digit (c : ascii) : bool := between 48 57 c.

Definition to_lower (c : ascii) : ascii :=
  if is_upper c then ascii_of_N (N_of_ascii c + 32) else c.

Fixpoint toLowerCase (s : string) : string :=
  match s with
  | EmptyString => EmptyString
  | String c s' => String (to_lower c) (toLowerCase s')
  end.

Fixpoint drop (n : nat) (s : string) : string :=
  match n, s with
  | S n', String _ s' => drop n' s'
  | _, _ => s
  end.

(** The number of bytes of the white space character a string starts
    with, zero when it starts with none.  White space is that of
    ECMAScript: the six ASCII characters, U+00A0, U+1680, U+2000 to
    U+200A, U+2028, U+2029, U+202F, U+205F, U+3000 and U+FEFF. *)
Definition space_width (s : string) : nat :=
  match s with
  | String a EmptyString => if is_space a then 1%nat else 0%nat
  | String a (String b rest) =>
      if is_space a then 1%nat
      else if (code a =? 194) && (code b =? 160) then 2%nat
      else
        match rest with
        | String c _ =>
            if (code a =? 225) && (code b =? 154) && (code c =? 128) then 3%nat
            else if (code a =? 226) && (code b =? 128)
                    && (between 128 138 c || between 168 169 c || (code c =? 175))
            then 3%nat
            else if (code a =? 226) && (code b =? 129) && (code c =? 159) then 3%nat
            else if (code a =? 227) && (code b =? 128) && (code c =? 128) then 3%nat
            else if (code a =? 239) && (code b =? 187) && (code c =? 191) then 3%nat
            else 0%nat
        | EmptyString => 0%nat
        end
  | EmptyString => 0%nat
  end.

Fixpoint strip (fuel : nat) (s : string) : string :=
  match fuel with
  | O => s
  | S fuel' =>
      match space_width s with
      | O => s
      | w => strip fuel' (drop w s)
      end
  end.

Definition trimStart (s : string) : string := strip (String.length s) s.

(** The string is made of white space. *)
Definition blank (s : string) : bool := String.eqb (trimStart s) "".

Fixpoint trimEnd (s : string) : string :=
  match s with
  | EmptyString => EmptyString
  | String c s' => if blank s then EmptyString else String c (trimEnd s')
  end.

Definition trim (s : string) : string := trimEnd (trimStart s).

(** [s.replace(pat, rep)] with a string pattern: the first occurrence. *)
Fixpoint replace (pat rep s : string) : string :=
  if String.prefix pat s then rep ++ drop (String.length pat) s
  else match s with
       | EmptyString => EmptyString
       | String c s' => String c (replace pat rep s')
       end.

(** [s.split(':')]: the pieces between colons. *)
Fixpoint split_colon (s : string) : string * list string :=
  match s with
  | EmptyString => (EmptyString, [])
  | String c s' =>
      let '(head, tail) := split_colon s' in
      if Ascii.eqb c ":" then (EmptyString, head :: tail)
      else (String c head, tail)
  end.

(** The value of a digit in some radix up to 36. *)
Definition digit_value (c : ascii) : option Z :=
  if is_digit c then Some (code c - 48)
  else if is_lower c then Some (code c - 87)
  else if is_upper c then Some (code c - 55)
  else None.

(** The longest prefix of digits of the radix, read as a number; [acc]
    is [None] as long as no digit was read. *)
Fixpoint digits (radix : Z) (s : string) (acc : option Z) : option Z :=
  match s with
  | EmptyString => acc
  | String c s' =>
      match digit_value c with
      | Some d =>
          if d <? radix
          then digits radix s'
                 (Some (radix * match acc with Some a => a | None => 0 end + d))
          else acc
      | None => acc
      end
  end.

Definition unsigned_int (s : string) : option Z :=
  if String.prefix "0x" s || String.prefix "0X" s
  then digits 16 (drop 2 s) None
  else digits 10 s None.

(** [parseInt(v)] with no radix; [None] is NaN.  An undefined argument is
    first turned into the string ["undefined"].  The result is the
    integer that is read; the source holds it as a double, which is that
    integer up to [MAX_SAFE_INTEGER] (see [safe] below). *)
Definition parseInt (v : option string) : option Z :=
  match v with
  | None => None
  | Some s =>
      match trimStart s with
      | String "-" rest => option_map Z.opp (unsigned_int rest)
      | String "+" rest => unsigned_int rest
      | t => unsigned_int t
      end
  end.

(** [n || d] on numbers: NaN and zero are falsy. *)
Definition num_or (n : option Z) (d : Z) : Z :=
  match n with
  | Some v => if v =? 0 then d else v
  | None => d
  end.

(** [Math.ceil(a / b)] for integers [a] and [b <> 0]. *)
Definition ceil_div (a b : Z) : Z := - ((- a) / b).

(** [Number.MAX_SAFE_INTEGER]: up to it, in absolute value, a number of
    the source is the integer of the model and its arithmetic is exact.
    Beyond it the source rounds, and overflows to [Infinity]; the
    properties of numbers are stated within this range. *)
Definition MAX_SAFE_INTEGER : Z := 2 ^ 53 - 1.

Definition safe (n : Z) : Prop := - MAX_SAFE_INTEGER <= n <= MAX_SAFE_INTEGER.

(** The UTF-16 code units a byte of UTF-8 stands for: one for the first
    byte of a character of one to three bytes, two for the first byte of a
    character of four, none for a continuation byte. *)
Definition units (c : ascii) : Z :=
  if code c <? 128 then 1
  else if code c <? 192 then 0
  else if code c <? 240 then 1
  else 2.

(** [s.length] *)
Fixpoint length (s : string) : Z :=
  match s with
  | EmptyString => 0
  | String c s' => units c + length s'
  end.

(** The string holds ASCII characters only. *)
Definition is_ascii (s : string) : bool :=
  forallb (fun c => code c <? 128) (list_ascii_of_string s).

End JS.


(** ** Regular expressions

    Matching by derivatives.  [full_match] is the anchored match of the
    e-mail validator ([^...$]); [search] is the unanchored match of a
    [$regex] clause. *)

Module Regex.

Inductive regex : Type :=
| Empty
| Eps
| Chr (p : ascii -> bool)
| Cat (a b : regex)
| Alt (a b : regex)
| Star (a : regex).

Fixpoint nullable (r : regex) : bool :=
  match r with
  | Empty => false
  | Eps => true
  | Chr _ => false
  | Cat a b => nullable a && nullable b
  | Alt a b => nullable a || nullable b
  | Star _ => true
  end.

Fixpoint deriv (c : ascii) (r : regex) : regex :=
  match r with
  | Empty => Empty
  | Eps => Empty
  | Chr p => if p c then Eps else Empty
  | Cat a b =>
      if nullable a then Alt (Cat (deriv c a) b) (deriv c b)
      else Cat (deriv c a) b
  | Alt a b => Alt (deriv c a) (deriv c b)
  | Star a => Cat (deriv c a) (Star a)
  end.

(** The whole string matches. *)
Fixpoint full_match (r : regex) (s : string) : bool :=
  match s with
  | EmptyString => nullable r
  | String c s' => full_match (deriv c r) s'
  end.

(** Some prefix of the string matches. *)
Fixpoint match_prefix (r : regex) (s : string) : bool :=
  nullable r ||
  match s with
  | EmptyString => false
  | String c s' => match_prefix (deriv c r) s'
  end.

(** Some substring of the string matches. *)
Fixpoint search (r : regex) (s : string) : bool :=
  match_prefix r s ||
  match s with
  | EmptyString => false
  | String _ s' => search r s'
  end.

Definition plus (r : regex) : regex := Cat r (Star r).
Definition opt (r : regex) : regex := Alt Eps r.

Definition lit (c : ascii) : regex := Chr (Ascii.eqb c).

(** A letter under the [i] option. *)
Definition same_letter (c x : ascii) : bool :=
  Ascii.eqb (JS.to_lower x) (JS.to_lower c).
Definition lit_i (c : ascii) : regex := Chr (same_letter c).

(** The wildcard: any character but a line feed. *)
Definition not_newline (x : ascii) : bool := negb (JS.code x =? 10).
Definition any : regex := Chr not_newline.

(** The class [\w]. *)
Definition word_char (x : ascii) : bool :=
  JS.is_digit x || JS.is_lower x || JS.is_upper x || Ascii.eqb x "_".
Definition word : regex := Chr word_char.

(** Characters with a meaning of their own in a pattern. *)
Definition metacharacters : list ascii :=
  list_ascii_of_string "\^$.|?*+()[]{}".

Definition is_meta (c : ascii) : bool := existsb (Ascii.eqb c) metacharacters.

(** A search term without metacharacters. *)
Fixpoint plain (p : string) : bool :=
  match p with
  | EmptyString => true
  | String c p' => negb (is_meta c) && plain p'
  end.

(** The fragment of the pattern language that is modelled: ordinary
    characters, which match themselves, and the wildcard.  Any other
    metacharacter puts the pattern outside the fragment. *)
Definition atom (icase : bool) (c : ascii) : option regex :=
  if Ascii.eqb c "." then Some any
  else if is_meta c then None
  else Some (if icase then lit_i c else lit c).

Fixpoint compile (icase : bool) (p : string) : option regex :=
  match p with
  | EmptyString => Some Eps
  | String c p' =>
      match atom icase c, compile icase p' with
      | Some a, Some r => Some (Cat a r)
      | _, _ => None
      end
  end.

Definition has_option (o : ascii) (options : string) : bool :=
  existsb (Ascii.eqb o) (list_ascii_of_string options).

(** A [$regex] engine on the fragment; [None] when the pattern is not
    accepted. *)
Definition fragment_engine (pattern options : string) : option (string -> bool) :=
  option_map search (compile (has_option "i" options) pattern).

End Regex.

(** ** Libraries outside the repository *)

(** A token of jsonwebtoken: the signed claims and the signature. *)
Record Jwt : Type := {
  jwt_payload : list (string * json);
  jwt_signature : string
}.

Record Libs : Type := {
  (** the store's [$regex]: pattern and options to a matcher, [None] when
      the store rejects the pattern *)
  regex_engine : string -> string -> option (string -> bool);
  (** [bcrypt.hash(plaintext, rounds)] with the salt it draws *)
  bcrypt_hash : string -> Z -> string -> string;
  (** [bcrypt.compare(candidate, hash)] *)
  bcrypt_compare : string -> string -> bool;
  (** the keyed signature of a set of claims *)
  jwt_mac : string -> list (string * json) -> string;
  (** the compact form of a token and its parser *)
  jwt_serialize : Jwt -> string;
  jwt_parse : string -> option Jwt;
  (** whether the store takes a field path as the key of a sort *)
  sort_key_accepted : string -> bool
}.

(** What a request sees of the process: the clock ([Date.now()], in
    milliseconds), the signing key ([process.env.JWT_SECRET], taken to be
    configured), the identifier the store assigns to the next document and
    the salt the next hash draws. *)
Record Env : Type := {
  now : Z;
  JWT_SECRET : string;
  fresh_id : string;
  salt : string
}.

(** ** jsonwebtoken *)

Module jwt.

(** [jwt.sign(payload, secret, { expiresIn })], [expiresIn] in seconds:
    the claims are the payload followed by [iat] and [exp = iat +
    expiresIn], in seconds since the epoch. *)
Definition sign (L : Libs) (clock : Z) (payload : list (string * json))
    (secret : string) (expiresIn : Z) : Jwt :=
  let iat := clock / 1000 in
  let claims :=
    (payload ++ [("iat", JNum iat); ("exp", JNum (iat + expiresIn))])%list in
  {| jwt_payload := claims; jwt_signature := jwt_mac L secret claims |}.

(** [jwt.verify(token, secret)]: throws on a malformed token, on a wrong
    signature and on an [exp] that is not in the future. *)
Definition verify (L : Libs) (clock : Z) (token secret : string)
    : outcome (list (string * json)) :=
  match jwt_parse L token with
  | None => Throw "jwt malformed"
  | Some t =>
      if negb (String.eqb (jwt_signature t) (jwt_mac L secret (jwt_payload t)))
      then Throw "invalid signature"
      else match lookup "exp" (jwt_payload t) with
           | Some (JNum exp) =>
               if exp <=? clock / 1000 then Throw "jwt expired"
               else Ok (jwt_payload t)
           | Some _ => Throw "invalid exp value"
           | None => Ok (jwt_payload t)
           end
  end.

End jwt.

(** One hour, the [expiresIn: '1h'] of both call sites. *)
Definition one_hour : Z := 3600.

(** ** models/User.js *)

Record User : Type := {
  _id : string;
  name : string;
  email : string;
  password : string;
  role : string;
  isActive : bool;
  createdAt : Z;
  updatedAt : Z
}.

(** The collection, in insertion order. *)
Definition Store : Type := list User.

(** A document as it is serialised by [res.json]. *)
Definition toJSON (u : User) : json :=
  JObj [ ("_id", JStr (_id u));
         ("name", JStr (name u));
         ("email", JStr (email u));
         ("password", JStr (password u));
         ("role", JStr (role u));
         ("isActive", JBool (isActive u));
         ("createdAt", JNum (createdAt u));
         ("updatedAt", JNum (updatedAt u));
         ("__v", JNum 0) ].

(** [.select('-path')]: the projection that leaves one path out. *)
Definition select_minus (path : string) (doc : json) : json :=
  match doc with
  | JObj fields => JObj (filter (fun kv => negb (String.eqb (fst kv) path)) fields)
  | _ => doc
  end.

(** The fields a request body may carry. *)
Record Body : Type := {
  b_name : option string;
  b_email : option string;
  b_password : option string;
  b_role : option string;
  b_isActive : option bool
}.

(** The body [{}]. *)
Definition no_fields : Body :=
  {| b_name := None; b_email := None; b_password := None; b_role := None;
     b_isActive := None |}.

Module userSchema.

Import Regex.

(** [/^\w+([.-]?\w+)*@\w+([.-]?\w+)*(\.\w{2,3})+$/] *)
Definition dot_or_dash (x : ascii) : bool := Ascii.eqb x "." || Ascii.eqb x "-".

Definition words : regex := Star (Cat (opt (Chr dot_or_dash)) (plus word)).

Definition email_pattern : regex :=
  Cat (plus word)
    (Cat words
       (Cat (lit "@")
          (Cat (plus word)
             (Cat words
                (plus (Cat (lit ".") (Cat word (Cat word (opt word))))))))).

(** The length the [minlength] validators count. *)
Definition strlen (s : string) : Z := JS.length s.

(** The validators of each path, on the value after its setters
    ([trim] for the name, [lowercase] for the e-mail); the result is the
    message of the validator that fails. *)
Definition name_error (v : option string) : option string :=
  match option_map JS.trim v with
  | None => Some "Name is required"
  | Some s =>
      if String.eqb s "" then Some "Name is required"
      else if strlen s <? 2 then Some "Name must be at least 2 characters"
      else None
  end.

Definition email_error (v : option string) : option string :=
  match option_map JS.toLowerCase v with
  | None => Some "Email is required"
  | Some s =>
      if String.eqb s "" then Some "Email is required"
      else if full_match email_pattern s then None
      else Some "Please enter a valid email"
  end.

Definition password_error (v : option string) : option string :=
  match v with
  | None => Some "Password is required"
  | Some s =>
      if String.eqb s "" then Some "Password is required"
      else if strlen s <? 6 then Some "Password must be at least 6 characters"
      else None
  end.

Definition role_error (v : string) : option string :=
  if String.eqb v "user" || String.eqb v "admin" then None
  else Some ("`" ++ v ++ "` is not a valid enum value for path `role`.").

Definition at_path (path : string) (e : option string) : list string :=
  match e with
  | Some m => [path ++ ": " ++ m]
  | None => []
  end.

Definition fail_with (errors : list string) : outcome unit :=
  match errors with
  | [] => Ok tt
  | _ => Throw ("User validation failed: " ++ String.concat ", " errors)
  end.

(** Validation of a new document. *)
Definition validate (name email password : option string) (role : string)
    : outcome unit :=
  fail_with (at_path "name" (name_error name) ++
             at_path "email" (email_error email) ++
             at_path "password" (password_error password) ++
             at_path "role" (role_error role))%list.

(** Validation of the paths an update sets ([runValidators: true]). *)
Definition on_supplied {A : Type} (v : option A) (check : A -> option string)
    : option string :=
  match v with
  | Some x => check x
  | None => None
  end.

Definition validate_update (b : Body) : outcome unit :=
  fail_with (at_path "name" (on_supplied (b_name b) (fun s => name_error (Some s))) ++
             at_path "email" (on_supplied (b_email b) (fun s => email_error (Some s))) ++
             at_path "password" (on_supplied (b_password b) (fun s => password_error (Some s))) ++
             at_path "role" (on_supplied (b_role b) role_error))%list.

(** [userSchema.pre('save')]: hash the password when it was modified. *)
Definition pre_save (L : Libs) (E : Env) (isModified_password : bool) (this : User)
    : User :=
  if negb isModified_password then this
  else {| _id := _id this; name := name this; email := email this;
          password := bcrypt_hash L (password this) 12 (salt E);
          role := role this; isActive := isActive this;
          createdAt := createdAt this; updatedAt := updatedAt this |}.

(** [userSchema.methods.comparePassword] *)
Definition comparePassword (L : Libs) (this : User) (candidatePassword : option string)
    : outcome bool :=
  match candidatePassword with
  | Some c => Ok (bcrypt_compare L c (password this))
  | None => Throw "Illegal arguments: undefined, string"
  end.

End userSchema.

(** ** The model's queries on the collection *)

(** A clause [{ $regex: pattern, $options: options }]. *)
Inductive condition : Type :=
| Regex_cond (pattern options : string).

(** The filter object assembled by [buildQuery]: [$or], [role] and
    [isActive], each present or not. *)
Record Filter : Type := {
  f_or : option (list (string * condition));
  f_role : option string;
  f_isActive : option bool
}.

Inductive value : Type :=
| VMissing
| VBool (b : bool)
| VNum (n : Z)
| VStr (s : string).

Module User.

Definition field_value (path : string) (u : User) : value :=
  if String.eqb path "_id" then VStr (_id u)
  else if String.eqb path "name" then VStr (name u)
  else if String.eqb path "email" then VStr (email u)
  else if String.eqb path "password" then VStr (password u)
  else if String.eqb path "role" then VStr (role u)
  else if String.eqb path "isActive" then VBool (isActive u)
  else if String.eqb path "createdAt" then VNum (createdAt u)
  else if String.eqb path "updatedAt" then VNum (updatedAt u)
  else VMissing.

(** *** Filters *)

Definition compile_condition (L : Libs) (clause : string * condition)
    : outcome (User -> bool) :=
  let '(path, Regex_cond pattern options) := clause in
  match regex_engine L pattern options with
  | Some matcher =>
      Ok (fun u => match field_value path u with
                   | VStr s => matcher s
                   | _ => false
                   end)
  | None => Throw "Regular expression is invalid"
  end.

Fixpoint compile_or (L : Libs) (clauses : list (string * condition))
    : outcome (User -> bool) :=
  match clauses with
  | [] => Ok (fun _ => false)
  | c :: rest =>
      p <- compile_condition L c ;;
      q <- compile_or L rest ;;
      Ok (fun u => p u || q u)
  end.

(** The predicate of a filter: the conjunction of its clauses. *)
Definition compile_filter (L : Libs) (f : Filter) : outcome (User -> bool) :=
  p_or <- match f_or f with
          | Some clauses => compile_or L clauses
          | None => Ok (fun _ => true)
          end ;;
  Ok (fun u =>
        p_or u
        && match f_role f with
           | Some r => String.eqb (role u) r
           | None => true
           end
        && match f_isActive f with
           | Some a => Bool.eqb (isActive u) a
           | None => true
           end).

(** *** Sorting, skipping, limiting *)

Definition value_compare (a b : value) : comparison :=
  match a, b with
  | VStr x, VStr y => String.compare x y
  | VNum x, VNum y => Z.compare x y
  | VBool x, VBool y =>
      match x, y with
      | false, true => Lt
      | true, false => Gt
      | _, _ => Eq
      end
  | _, _ => Eq
  end.

(** [u] may come before [v] under the sort [{ [path]: direction }]. *)
Definition before (s : string * Z) (u v : User) : bool :=
  let c := value_compare (field_value (fst s) u) (field_value (fst s) v) in
  if snd s =? -1
  then match c with Lt => false | _ => true end
  else match c with Gt => false | _ => true end.

Fixpoint insert_sorted (le : User -> User -> bool) (u : User) (l : list User)
    : list User :=
  match l with
  | [] => [u]
  | v :: l' => if le u v then u :: l else v :: insert_sorted le u l'
  end.

Definition sort_by (s : string * Z) (l : list User) : list User :=
  fold_right (insert_sorted (before s)) [] l.

(** [.limit(n)]: zero is no limit, a negative limit counts as its
    absolute value. *)
Definition take_limit (n : Z) (l : list User) : list User :=
  if n =? 0 then l else firstn (Z.to_nat (Z.abs n)) l.

(** The store refuses the key of a sort: the empty field path, which
    [sort=:desc] gives, and whatever else its parser of field paths
    refuses. *)
Definition sort_refused (L : Libs) (sort : string * Z) : bool :=
  String.eqb (fst sort) "" || negb (sort_key_accepted L (fst sort)).

(** [User.find(filter).sort(sort).skip(skip).limit(limit)]; the store
    rejects a sort key it cannot read and a negative skip.  Records that
    compare equal under the sort are kept here in the order of the
    collection; the store promises no order among them. *)
Definition find (L : Libs) (store : Store) (f : Filter) (sort : string * Z)
    (skip limit : Z) : outcome (list User) :=
  p <- compile_filter L f ;;
  if sort_refused L sort then Throw "FieldPath cannot be constructed with empty string"
  else if skip <? 0 then Throw "Skip value must be non-negative"
  else Ok (take_limit limit (skipn (Z.to_nat skip) (sort_by sort (filter p store)))).

(** [User.countDocuments(filter)] *)
Definition countDocuments (L : Libs) (store : Store) (f : Filter) : outcome Z :=
  p <- compile_filter L f ;;
  Ok (Z.of_nat (List.length (filter p store))).

(** *** Lookups *)

(** [User.findOne({ email })]; the filter value goes through the path's
    [lowercase] setter, and an undefined value matches no document. *)
Definition findOne (store : Store) (email_ : option string) : option User :=
  match email_ with
  | Some e => List.find (fun u => String.eqb (email u) (JS.toLowerCase e)) store
  | None => None
  end.

Definition is_hex (c : ascii) : bool :=
  JS.is_digit c || JS.between 97 102 c || JS.between 65 70 c.

(** Identifiers are the 24 hexadecimal digits of an ObjectId. *)
Definition is_object_id (id : string) : bool :=
  (Z.of_nat (String.length id) =? 24) && forallb is_hex (list_ascii_of_string id).

Definition has_id (id : string) (u : User) : bool :=
  String.eqb (_id u) (JS.toLowerCase id).

(** [User.findById(id)]: throws when [id] cannot be cast to an
    ObjectId. *)
Definition findById (store : Store) (id : string) : outcome (option User) :=
  if is_object_id id then Ok (List.find (has_id id) store)
  else Throw "Cast to ObjectId failed".

(** *** Writes *)

Definition or_current (v : option string) (current : string) : string :=
  match v with
  | Some s => s
  | None => current
  end.

(** The document after [$set] of the supplied paths, each through its
    setters, and of [updatedAt]. *)
Definition apply_update (b : Body) (stamp : Z) (u : User) : User :=
  {| _id := _id u;
     name := or_current (option_map JS.trim (b_name b)) (name u);
     email := or_current (option_map JS.toLowerCase (b_email b)) (email u);
     password := or_current (b_password b) (password u);
     role := or_current (b_role b) (role u);
     isActive := match b_isActive b with Some a => a | None => isActive u end;
     createdAt := createdAt u;
     updatedAt := stamp |}.

Fixpoint replace_doc (id : string) (u' : User) (store : Store) : Store :=
  match store with
  | [] => []
  | u :: rest => if has_id id u then u' :: rest else u :: replace_doc id u' rest
  end.

(** The unique index on [email], seen from a document being written:
    another document holds the address.  A write that leaves the address
    as it was cannot be rejected. *)
Definition email_taken (store : Store) (self : string) (e : string) : bool :=
  existsb (fun u => String.eqb (email u) e && negb (String.eqb (_id u) self)) store.

(** [User.findByIdAndUpdate(id, { ...updates, updatedAt }, { new: true,
    runValidators: true })]: the updated document, or [None] when no
    document has the identifier. *)
Definition findByIdAndUpdate (store : Store) (id : string) (updates : Body)
    (updatedAt_ : Z) : outcome (option User * Store) :=
  _ <- userSchema.validate_update updates ;;
  found <- findById store id ;;
  match found with
  | None => Ok (None, store)
  | Some u =>
      let u' := apply_update updates updatedAt_ u in
      if negb (String.eqb (email u') (email u))
         && email_taken store (_id u) (email u')
      then Throw ("E11000 duplicate key error: email: " ++ email u')
      else Ok (Some u', replace_doc id u' store)
  end.

Fixpoint remove_doc (id : string) (store : Store) : Store :=
  match store with
  | [] => []
  | u :: rest => if has_id id u then rest else u :: remove_doc id rest
  end.

(** [User.findByIdAndDelete(id)] *)
Definition findByIdAndDelete (store : Store) (id : string)
    : outcome (option User * Store) :=
  found <- findById store id ;;
  match found with
  | None => Ok (None, store)
  | Some u => Ok (Some u, remove_doc id store)
  end.

(** [new User({ name, email, password, role })] followed by [save()]:
    validation, the [pre('save')] hook, then the insertion, which the
    unique indexes may reject. *)
Definition save (L : Libs) (E : Env) (name_ email_ password_ : option string)
    (role_ : string) (store : Store) : outcome (User * Store) :=
  _ <- userSchema.validate name_ email_ password_ role_ ;;
  let doc :=
    userSchema.pre_save L E true
      {| _id := fresh_id E;
         name := or_current (option_map JS.trim name_) "";
         email := or_current (option_map JS.toLowerCase email_) "";
         password := or_current password_ "";
         role := role_;
         isActive := true;
         createdAt := now E;
         updatedAt := now E |} in
  if existsb (fun u => String.eqb (_id u) (_id doc)) store
  then Throw "E11000 duplicate key error: _id"
  else if email_taken store (_id doc) (email doc)
  then Throw ("E11000 duplicate key error: email: " ++ email doc)
  else Ok (doc, (store ++ [doc])%list).

End User.

(** ** Requests and responses *)

(** [req.query] *)
Record QueryParams : Type := {
  q_search : option string;
  q_role : option string;
  q_active : option string;
  q_page : option string;
  q_limit : option string;
  q_sort : option string
}.

Record Request : Type := {
  req_authorization : option string;   (** [req.header('Authorization')] *)
  req_query : QueryParams;
  req_id : string;                     (** [req.params.id] *)
  req_body : Body
}.

Record Response : Type := {
  status : Z;
  payload : json
}.

Definition respond (code : Z) (j : json) : Response :=
  {| status := code; payload := j |}.

Definition msg (text : string) : json := JObj [("msg", JStr text)].

(** ** middleware/auth.js *)

(** [decoded.id], looked up in the collection; a payload without a string
    identifier resolves to no document. *)
Definition find_subject (store : Store) (decoded : list (string * json))
    : outcome (option User) :=
  match lookup "id" decoded with
  | Some (JStr id) => User.findById store id
  | _ => Ok None
  end.

(** [req.header('Authorization')?.replace('Bearer ', '')] *)
Definition bearer (req : Request) : option string :=
  option_map (JS.replace "Bearer " "") (req_authorization req).

(** [auth]: the response that ends the request, or the document attached
    as [req.user]. *)
Definition auth (L : Libs) (E : Env) (req : Request) (store : Store)
    : Response + json :=
  match bearer req with
  | Some t =>
      if String.eqb t "" then inl (respond 401 (msg "No token, authorization denied"))
      else
        match (decoded <- jwt.verify L (now E) t (JWT_SECRET E) ;;
               find_subject store decoded) with
        | Ok (Some user) => inr (select_minus "password" (toJSON user))
        | Ok None => inl (respond 401 (msg "Token is not valid"))
        | Throw _ => inl (respond 401 (msg "Token is not valid"))
        end
  | None => inl (respond 401 (msg "No token, authorization denied"))
  end.

(** [adminAuth]: the 403 response unless [req.user.role] is ['admin']. *)
Definition adminAuth (user : json) : option Response :=
  match get_field "role" user with
  | Some (JStr r) =>
      if String.eqb r "admin" then None
      else Some (respond 403 (msg "Admin access required"))
  | _ => Some (respond 403 (msg "Admin access required"))
  end.

(** A route declared as [router.METHOD(path, auth, adminAuth, handler)]. *)
Definition guarded (L : Libs) (E : Env)
    (handler : Request -> Store -> Response * Store)
    (req : Request) (store : Store) : Response * Store :=
  match auth L E req store with
  | inl denied => (denied, store)
  | inr user =>
      match adminAuth user with
      | Some denied => (denied, store)
      | None => handler req store
      end
  end.

(** ** routes/user.js *)

(** The identifiers bound in the module: its [require]s and its own
    constants.  A reference to any other name, the globals of the runtime
    apart, throws a ReferenceError. *)
Definition module_bindings : list string :=
  ["express"; "router"; "auth"; "adminAuth"; "User"; "jwt";
   "buildQuery"; "getPaginationSort"].

Definition reference (identifier : string) : outcome unit :=
  if existsb (String.eqb identifier) module_bindings then Ok tt
  else Throw (identifier ++ " is not defined").

Definition buildQuery (q : QueryParams) : Filter :=
  {| f_or :=
       match q_search q with
       | Some s =>
           if String.eqb s "" then None
           else Some [ ("name", Regex_cond s "i"); ("email", Regex_cond s "i") ]
       | None => None
       end;
     f_role := if JS.truthy (q_role q) then q_role q else None;
     f_isActive :=
       match q_active q with
       | Some a => Some (String.eqb a "true")
       | None => None
       end |}.

Record PaginationSort : Type := {
  skip : Z;
  limit : Z;
  sort : string * Z
}.

Definition sort_of (q : QueryParams) : string * Z :=
  match q_sort q with
  | Some s =>
      if String.eqb s "" then ("createdAt", -1)
      else
        let '(field, rest) := JS.split_colon s in
        (field, match rest with
                | direction :: _ => if String.eqb direction "desc" then -1 else 1
                | [] => 1
                end)
  | None => ("createdAt", -1)
  end.

(** [parseInt(req.query.page) || 1], which the source writes out in
    [getPaginationSort] and again in the response of the listing. *)
Definition current_page (q : QueryParams) : Z :=
  JS.num_or (JS.parseInt (q_page q)) 1.

(** The skip is the product of the source as long as the page, the limit
    and the product are [JS.safe]. *)
Definition getPaginationSort (q : QueryParams) : PaginationSort :=
  let page := current_page q in
  let limit := JS.num_or (JS.parseInt (q_limit q)) 10 in
  let skip := (page - 1) * limit in
  {| skip := skip; limit := limit; sort := sort_of q |}.

(** The token of a user: [jwt.sign({ id: user.id }, JWT_SECRET,
    { expiresIn: '1h' })]. *)
Definition issue_token (L : Libs) (E : Env) (user : User) : Jwt :=
  jwt.sign L (now E) [("id", JStr (_id user))] (JWT_SECRET E) one_hour.

(** [{ id, name, email, role }] *)
Definition public_user (user : User) : json :=
  JObj [ ("id", JStr (_id user));
         ("name", JStr (name user));
         ("email", JStr (email user));
         ("role", JStr (role user)) ].

Definition token_and_user (L : Libs) (E : Env) (user : User) : json :=
  JObj [ ("token", JStr (jwt_serialize L (issue_token L E user)));
         ("user", public_user user) ].

(** [POST /api/users] *)
Definition post_user (L : Libs) (E : Env) (req : Request) (store : Store)
    : Response * Store :=
  let b := req_body req in
  match User.findOne store (b_email b) with
  | Some _ => (respond 400 (msg "User already exists"), store)
  | None =>
      match User.save L E (b_name b) (b_email b) (b_password b)
                      (JS.or_else (b_role b) "user") store with
      | Ok (user, store') => (respond 201 (token_and_user L E user), store')
      | Throw message =>
          (respond 500 (JObj [("msg", JStr "Server error"); ("error", JStr message)]),
           store)
      end
  end.

(** The handler of [GET /api/users], behind the guards. *)
Definition list_users (L : Libs) (req : Request) (store : Store)
    : Response * Store :=
  let q := req_query req in
  let query := buildQuery q in
  let ps := getPaginationSort q in
  match (users <- User.find L store query (sort ps) (skip ps) (limit ps) ;;
         total <- User.countDocuments L store query ;;
         Ok (users, total)) with
  | Ok (users, total) =>
      (respond 200
         (JObj [ ("users", JArr (map (fun u => select_minus "password" (toJSON u)) users));
                 ("pagination",
                  JObj [ ("current", JNum (current_page q));
                         ("pages", JNum (JS.ceil_div total (limit ps)));
                         ("total", JNum total) ]) ]),
       store)
  | Throw _ => (respond 500 (msg "Server error"), store)
  end.

(** The handler of [GET /api/users/:id]. *)
Definition get_user (req : Request) (store : Store) : Response * Store :=
  match User.findById store (req_id req) with
  | Ok (Some user) => (respond 200 (select_minus "password" (toJSON user)), store)
  | Ok None => (respond 404 (msg "User not found"), store)
  | Throw _ => (respond 500 (msg "Server error"), store)
  end.

(** [updates.password = await bcrypt.hash(updates.password, 12)] when a
    password is supplied; [bcrypt] is a free identifier of the module. *)
Definition rehash (L : Libs) (E : Env) (updates : Body) : outcome Body :=
  if JS.truthy (b_password updates)
  then
    _ <- reference "bcrypt" ;;
    Ok {| b_name := b_name updates;
          b_email := b_email updates;
          b_password :=
            option_map (fun p => bcrypt_hash L p 12 (salt E)) (b_password updates);
          b_role := b_role updates;
          b_isActive := b_isActive updates |}
  else Ok updates.

(** The handler of [PUT /api/users/:id]. *)
Definition update_user (L : Libs) (E : Env) (req : Request) (store : Store)
    : Response * Store :=
  match (updates <- rehash L E (req_body req) ;;
         User.findByIdAndUpdate store (req_id req) updates (now E)) with
  | Ok (Some user, store') =>
      (respond 200 (select_minus "password" (toJSON user)), store')
  | Ok (None, _) => (respond 404 (msg "User not found"), store)
  | Throw _ => (respond 500 (msg "Server error"), store)
  end.

(** The handler of [DELETE /api/users/:id]. *)
Definition delete_user (req : Request) (store : Store) : Response * Store :=
  match User.findByIdAndDelete store (req_id req) with
  | Ok (Some _, store') => (respond 200 (msg "User deleted"), store')
  | Ok (None, _) => (respond 404 (msg "User not found"), store)
  | Throw _ => (respond 500 (msg "Server error"), store)
  end.

(** [POST /api/users/login] *)
Definition login (L : Libs) (E : Env) (req : Request) (store : Store)
    : Response * Store :=
  let b := req_body req in
  match User.findOne store (b_email b) with
  | None => (respond 400 (msg "Invalid credentials"), store)
  | Some user =>
      match userSchema.comparePassword L user (b_password b) with
      | Ok true => (respond 200 (token_and_user L E user), store)
      | Ok false => (respond 400 (msg "Invalid credentials"), store)
      | Throw _ => (respond 500 (msg "Server error"), store)
      end
  end.

(** The router: the six operations of the public interface. *)
Inductive operation : Type :=
| Register
| Login
| ListUsers
| GetUser
| UpdateUser
| DeleteUser.

Definition route (L : Libs) (E : Env) (op : operation)
    : Request -> Store -> Response * Store :=
  match op with
  | Register => post_user L E
  | Login => login L E
  | ListUsers => guarded L E (list_users L)
  | GetUser => guarded L E get_user
  | UpdateUser => guarded L E (update_user L E)
  | DeleteUser => guarded L E delete_user
  end.

(** ** What the specification calls a substring match *)

(** [term] occurs in [s], letter case apart. *)
Definition contains_ci (term s : string) : Prop :=
  exists before after,
    JS.toLowerCase s = before ++ JS.toLowerCase term ++ after.

(** The same, as a computation: [p] occurs in [s]. *)
Fixpoint occurs (p s : string) : bool :=
  String.prefix p s ||
  match s with
  | EmptyString => false
  | String _ s' => occurs p s'
  end.

(** The engine of the store agrees with the modelled fragment on a
    pattern: under the option [i], the one the search clause passes, it
    accepts the pattern when the fragment does, and on ASCII subjects it
    matches what the fragment matches. *)
Definition agrees_with_fragment (L : Libs) (pattern : string) : Prop :=
  forall m,
    Regex.fragment_engine pattern "i" = Some m ->
    exists m', regex_engine L pattern "i" = Some m' /\
               forall s, JS.is_ascii s = true -> m' s = m s.

(** ** A concrete instance

    Stand-ins for the libraries, on which the model runs: a token is
    written [id:iat:exp:signature], a hash keeps the salt in front. *)

Module Sample.

Definition text_of (j : option json) : string :=
  match j with
  | Some (JStr s) => s
  | Some (JNum n) => NilZero.string_of_int (Z.to_int n)
  | _ => ""
  end.

Definition claims_text (claims : list (string * json)) : string :=
  text_of (lookup "id" claims) ++ ":" ++ text_of (lookup "iat" claims)
    ++ ":" ++ text_of (lookup "exp" claims).

Definition mac (secret : string) (claims : list (string * json)) : string :=
  "mac-" ++ secret ++ "-" ++ text_of (lookup "id" claims)
    ++ "-" ++ text_of (lookup "iat" claims) ++ "-" ++ text_of (lookup "exp" claims).

Definition serialize (t : Jwt) : string :=
  claims_text (jwt_payload t) ++ ":" ++ jwt_signature t.

Definition parse (s : string) : option Jwt :=
  match JS.split_colon s with
  | (id, [iat; exp; signature]) =>
      match JS.parseInt (Some iat), JS.parseInt (Some exp) with
      | Some i, Some e =>
          Some {| jwt_payload := [("id", JStr id); ("iat", JNum i); ("exp", JNum e)];
                  jwt_signature := signature |}
      | _, _ => None
      end
  | _ => None
  end.

Definition hash (plaintext : string) (rounds : Z) (salt : string) : string :=
  "$2a$" ++ salt ++ "$" ++ plaintext.

Definition compare (candidate hashed : string) : bool :=
  String.eqb (JS.drop 9 hashed) candidate.

Definition libs : Libs :=
  {| regex_engine := Regex.fragment_engine;
     bcrypt_hash := hash;
     bcrypt_compare := compare;
     jwt_mac := mac;
     jwt_serialize := serialize;
     jwt_parse := parse;
     sort_key_accepted := fun key => negb (String.prefix "$" key) |}.

Definition env : Env :=
  {| now := 1700000000000;
     JWT_SECRET := "s3cret";
     fresh_id := "65a000000000000000000005";
     salt := "salt" |}.

Definition seeded (id name_ email_ plaintext role_ : string) (active : bool) : User :=
  {| _id := id; name := name_; email := email_;
     password := hash plaintext 12 "salt"; role := role_; isActive := active;
     createdAt := 1690000000000; updatedAt := 1690000000000 |}.

(** The users the server seeds at start-up. *)
Definition admin : User :=
  seeded "65a000000000000000000001" "Admin User" "admin@example.com" "admin123" "admin" true.
Definition john : User :=
  seeded "65a000000000000000000002" "John Doe" "john@example.com" "user123" "user" true.
Definition jane : User :=
  seeded "65a000000000000000000003" "Jane Smith" "jane@example.com" "user123" "user" true.
Definition bob : User :=
  seeded "65a000000000000000000004" "Bob Wilson" "bob@example.com" "user123" "user" false.

Definition store : Store := [admin; john; jane; bob].

Definition no_body : Body := no_fields.

Definition no_query : QueryParams :=
  {| q_search := None; q_role := None; q_active := None; q_page := None;
     q_limit := None; q_sort := None |}.

Definition request (authorization : option string) (q : QueryParams) (id : string)
    (b : Body) : Request :=
  {| req_authorization := authorization; req_query := q; req_id := id;
     req_body := b |}.

(** The header a client sends after logging in as [u]. *)
Definition bearer_of (L : Libs) (E : Env) (u : User) : option string :=
  Some ("Bearer " ++ jwt_serialize L (issue_token L E u)).

End Sample.

(** ** Statements and scenarios

    The predicates in which the properties are stated, and the requests of
    the examples. *)

Definition hides_password (r : Response * Store) : Prop :=
  has_key "password" (payload (fst r)) = false.

(** John logs in. *)
Definition login_john : Request :=
  Sample.request None Sample.no_query ""
    {| b_name := None; b_email := Some "john@example.com";
       b_password := Some "user123"; b_role := None; b_isActive := None |}.

Definition new_password : Body :=
  {| b_name := None; b_email := None; b_password := Some "newsecret";
     b_role := None; b_isActive := None |}.

(** The administrator resets John's password. *)
Definition reset_john : Request :=
  Sample.request (Sample.bearer_of Sample.libs Sample.env Sample.admin)
    Sample.no_query "65a000000000000000000002" new_password.

(** The same for an identifier no document has. *)
Definition reset_nobody : Request :=
  Sample.request (Sample.bearer_of Sample.libs Sample.env Sample.admin)
    Sample.no_query "65a0000000000000000000ff" new_password.

(** The guard ends the request with the given status and a message, the
    handler is not run and the collection is untouched. *)
Definition denied (code : Z) (store : Store) (r : Response * Store) : Prop :=
  exists text, r = (respond code (msg text), store).

(** The ways a verification fails: the token does not parse, its signature
    is not the one the key gives to its claims, or its expiry is not after
    the current second. *)
Definition verification_fails (L : Libs) (E : Env) (t : string) : Prop :=
  jwt_parse L t = None \/
  (exists tk, jwt_parse L t = Some tk /\
     jwt_signature tk <> jwt_mac L (JWT_SECRET E) (jwt_payload tk)) \/
  (exists tk exp, jwt_parse L t = Some tk /\
     lookup "exp" (jwt_payload tk) = Some (JNum exp) /\ exp <= now E / 1000).

(** The guard lets the request through: [auth] attaches a user and
    [adminAuth] finds the role [admin]. *)
Definition admitted (L : Libs) (E : Env) (req : Request) (store : Store) : Prop :=
  exists user, auth L E req store = inr user /\ adminAuth user = None.

(** A listing request with the given header, on which the guard is run. *)
Definition list_as (authorization : option string) : Request :=
  Sample.request authorization Sample.no_query "" Sample.no_body.

Definition john_token : string :=
  jwt_serialize Sample.libs (issue_token Sample.libs Sample.env Sample.john).

(** The clock at the second John's token expires. *)
Definition an_hour_later : Env :=
  {| now := 1700003600000; JWT_SECRET := "s3cret";
     fresh_id := "65a000000000000000000005"; salt := "salt" |}.

(** The collection after John was deleted. *)
Definition without_john : Store := [Sample.admin; Sample.jane; Sample.bob].

(** The administrator asks for the second page of two records among the
    users whose name or address holds [o]. *)
Definition second_page : Request :=
  Sample.request (Sample.bearer_of Sample.libs Sample.env Sample.admin)
    {| q_search := Some "o"; q_role := None; q_active := None;
       q_page := Some "2"; q_limit := Some "2"; q_sort := Some "name:asc" |}
    "" Sample.no_body.

(** The predicate the store computes for its filter. *)
Definition search_o (u : User) : bool :=
  (Regex.search (Regex.Cat (Regex.lit_i "o") Regex.Eps) (name u)
   || (Regex.search (Regex.Cat (Regex.lit_i "o") Regex.Eps) (email u) || false))
  && true && true.

Definition only_page (raw : option string) : QueryParams :=
  {| q_search := None; q_role := None; q_active := None; q_page := raw;
     q_limit := None; q_sort := None |}.

Definition only_active (raw : option string) : QueryParams :=
  {| q_search := None; q_role := None; q_active := raw; q_page := None;
     q_limit := None; q_sort := None |}.

(** The record with another active flag. *)
Definition with_active (a : bool) (u : User) : User :=
  {| _id := _id u; name := name u; email := email u; password := password u;
     role := role u; isActive := a; createdAt := createdAt u;
     updatedAt := updatedAt u |}.

(** The predicate the store computes for [active=false] alone. *)
Definition inactive_only (u : User) : bool :=
  true && true && Bool.eqb (isActive u) false.

Definition only_search (term : string) : QueryParams :=
  {| q_search := Some term; q_role := None; q_active := None; q_page := None;
     q_limit := None; q_sort := None |}.

(** The administrator sends [{}] for John. *)
Definition touch_john : Request :=
  Sample.request (Sample.bearer_of Sample.libs Sample.env Sample.admin)
    Sample.no_query "65a000000000000000000002" no_fields.

(** Eve registers and asks for the role [admin]. *)
Definition register_eve : Request :=
  Sample.request None Sample.no_query ""
    {| b_name := Some "Eve"; b_email := Some "Eve@Example.com";
       b_password := Some "secret1"; b_role := Some "admin"; b_isActive := None |}.

From Stdlib Require Permutation Sorted OrderedTypeEx.

(** ** Invariants of the collection

    What the indexes and the validators of the schema maintain: the
    identifiers and the addresses are unique, and every role is one of the
    two of the enumeration. *)

Definition unique_ids (store : Store) : Prop := NoDup (map _id store).

Definition unique_emails (store : Store) : Prop := NoDup (map email store).

Definition roles_valid (store : Store) : Prop :=
  forall u, In u store -> role u = "user" \/ role u = "admin".

Definition consistent (store : Store) : Prop :=
  unique_ids store /\ unique_emails store /\ roles_valid store.

(** What the unique indexes of the collection maintain. *)
Definition indexed (store : Store) : Prop :=
  unique_ids store /\ unique_emails store.

(** No two of the records compare equal under the key of a sort: the
    order the sort asks for is then the same for every query. *)
Definition no_ties (s : string * Z) (l : list User) : Prop :=
  forall u v, In u l -> In v l ->
    User.value_compare (User.field_value (fst s) u) (User.field_value (fst s) v) = Eq ->
    u = v.

(** The routes behind the guard. *)
Definition is_guarded (op : operation) : bool :=
  match op with
  | Register | Login => false
  | _ => true
  end.

(** The routes that only read. *)
Definition reads_only (op : operation) : bool :=
  match op with
  | Login | ListUsers | GetUser => true
  | _ => false
  end.

(** The administrator deletes John. *)
Definition delete_john : Request :=
  Sample.request (Sample.bearer_of Sample.libs Sample.env Sample.admin)
    Sample.no_query "65a000000000000000000002" no_fields.

(** The document a registration with the body [b] inserts when it
    succeeds: the name trimmed, the address in lower case, the password
    hashed with 12 rounds, the role of the body or [user], active, stamped
    with the current time. *)
Definition registered (L : Libs) (E : Env) (b : Body) : User :=
  {| _id := fresh_id E;
     name := JS.trim (User.or_current (b_name b) "");
     email := JS.toLowerCase (User.or_current (b_email b) "");
     password := bcrypt_hash L (User.or_current (b_password b) "") 12 (salt E);
     role := JS.or_else (b_role b) "user";
     isActive := true;
     createdAt := now E;
     updatedAt := now E |}.

(** The conditions under which a registration is accepted. *)
Definition acceptable (E : Env) (b : Body) (store : Store) : Prop :=
  userSchema.name_error (b_name b) = None /\
  userSchema.email_error (b_email b) = None /\
  userSchema.password_error (b_password b) = None /\
  userSchema.role_error (JS.or_else (b_role b) "user") = None /\
  User.findOne store (b_email b) = None /\
  ~ In (fresh_id E) (map _id store).

(** A password of five characters, the second of which takes two bytes
    in UTF-8 (U+00E4), and a name made of a no-break space (U+00A0) and
    one letter. *)
Definition five_characters : string :=
  String "p" (String "195"%char (String "164"%char "ss1")).

Definition padded_letter : string :=
  String "194"%char (String "160"%char "a").

(** A registration with the given name and password. *)
Definition register_as (name_ password_ : string) : Request :=
  Sample.request None Sample.no_query ""
    {| b_name := Some name_; b_email := Some "eve@example.com";
       b_password := Some password_; b_role := None; b_isActive := None |}.

(** A field of a body is absent or an ASCII string. *)
Definition ascii_field (v : option string) : Prop :=
  match v with
  | Some s => JS.is_ascii s = true
  | None => True
  end.

(** The token Eve receives when she registers. *)
Definition eve_token : string :=
  jwt_serialize Sample.libs
    (issue_token Sample.libs Sample.env
       (registered Sample.libs Sample.env (req_body register_eve))).

(** A query with another page parameter. *)
Definition with_page (raw : option string) (q : QueryParams) : QueryParams :=
  {| q_search := q_search q; q_role := q_role q; q_active := q_active q;
     q_page := raw; q_limit := q_limit q; q_sort := q_sort q |}.

(** Only the role is asked for. *)
Definition only_role (raw : option string) : QueryParams :=
  {| q_search := None; q_role := raw; q_active := None; q_page := None;
     q_limit := None; q_sort := None |}.

(** The predicate the store computes for [role=user] alone. *)
Definition users_only (u : User) : bool :=
  true && String.eqb (role u) "user" && true.

(** The page parameters [1] and [2]. *)
Definition page_number (k : nat) : option string :=
  match k with
  | O => Some "1"
  | S _ => Some "2"
  end.

(** The body of the request the table sends to switch a user on or off:
    [{ isActive: !user.isActive }]. *)
Definition toggle_body (isActive_ : bool) : Body :=
  {| b_name := None; b_email := None; b_password := None; b_role := None;
     b_isActive := Some (negb isActive_) |}.

(** The administrator switches John off. *)
Definition toggle_john : Request :=
  Sample.request (Sample.bearer_of Sample.libs Sample.env Sample.admin)
    Sample.no_query "65a000000000000000000002" (toggle_body true).

(** The administrator logs in. *)
Definition login_admin : Request :=
  Sample.request None Sample.no_query ""
    {| b_name := None; b_email := Some "admin@example.com";
       b_password := Some "admin123"; b_role := None; b_isActive := None |}.

(** ** The client

    [client/src/axios.js], [client/src/context/AuthContext.js], the routes
    of [App.js] and the column headers of [UserTable.js].  The state React
    and the browser keep between renders is the record [Session]. *)

Module Client.

(** What the client takes from outside the repository: the decoder of
    jwt-decode, which reads the claims of a token without checking its
    signature, and JavaScript's comparison [exp * 1000 > now] for a claim
    [exp] that is not a number. *)
Record Browser : Type := {
  jwtDecode : string -> option (list (string * json));
  coerced_after : json -> Z -> bool
}.

(** A value in a template literal or handed to [localStorage]. *)
Fixpoint text (j : json) : string :=
  match j with
  | JNull => "null"
  | JBool true => "true"
  | JBool false => "false"
  | JNum n => NilZero.string_of_int (Z.to_int n)
  | JStr s => s
  | JArr items =>
      String.concat ","
        (map (fun x => match x with JNull => "" | _ => text x end) items)
  | JObj _ => "[object Object]"
  end.

Definition text_or_undefined (j : option json) : string :=
  match j with
  | Some v => text v
  | None => "undefined"
  end.

(** [{ id, role }], each possibly undefined. *)
Record SessionUser : Type := {
  user_id : option json;
  user_role : option json
}.

Record Session : Type := {
  stored_token : option string;           (** [localStorage.getItem('token')] *)
  default_authorization : option string;  (** [axios.defaults.headers.common] *)
  user : option SessionUser;
  loading : bool
}.

(** The request interceptor of [axios.js]: the header a request leaves
    with. *)
Definition request_authorization (s : Session) : option string :=
  if JS.truthy (stored_token s)
  then option_map (fun token => "Bearer " ++ token) (stored_token s)
  else default_authorization s.

Definition remove_token (s : Session) : Session :=
  {| stored_token := None; default_authorization := default_authorization s;
     user := user s; loading := false |}.

(** [decoded.exp * 1000 > Date.now()] *)
Definition not_expired (B : Browser) (exp : option json) (clock : Z) : bool :=
  match exp with
  | Some (JNum n) => clock <? n * 1000
  | Some v => coerced_after B v clock
  | None => false
  end.

(** The effect [AuthProvider] runs when it mounts. *)
Definition restore (B : Browser) (clock : Z) (s : Session) : Session :=
  if JS.truthy (stored_token s)
  then
    match stored_token s with
    | Some token =>
        match jwtDecode B token with
        | Some decoded =>
            if not_expired B (lookup "exp" decoded) clock
            then {| stored_token := Some token;
                    default_authorization := Some ("Bearer " ++ token);
                    user := Some {| user_id := lookup "id" decoded;
                                    user_role := lookup "role" decoded |};
                    loading := false |}
            else remove_token s
        | None => remove_token s
        end
    | None => remove_token s
    end
  else {| stored_token := stored_token s;
          default_authorization := default_authorization s;
          user := user s; loading := false |}.

Definition credentials (email_ password_ : string) : Body :=
  {| b_name := None; b_email := Some email_; b_password := Some password_;
     b_role := None; b_isActive := None |}.

(** [login(email, password)] of the context, run against the server: the
    result, the session and the collection afterwards.  A response outside
    200..299 makes the request throw; so does reading [res.data.user.id]
    when the response has no [user], after the token was kept. *)
Definition login (L : Libs) (E : Env) (email_ password_ : string)
    (s : Session) (store : Store) : bool * Session * Store :=
  let req := {| req_authorization := request_authorization s;
                req_query := {| q_search := None; q_role := None; q_active := None;
                                q_page := None; q_limit := None; q_sort := None |};
                req_id := "";
                req_body := credentials email_ password_ |} in
  let '(res, store') := route L E Login req store in
  if (200 <=? status res) && (status res <? 300)
  then
    let token := text_or_undefined (get_field "token" (payload res)) in
    match get_field "user" (payload res) with
    | None | Some JNull =>
        (false,
         {| stored_token := Some token;
            default_authorization := Some ("Bearer " ++ token);
            user := user s; loading := loading s |},
         store')
    | Some u =>
        (true,
         {| stored_token := Some token;
            default_authorization := Some ("Bearer " ++ token);
            user := Some {| user_id := get_field "id" u; user_role := get_field "role" u |};
            loading := loading s |},
         store')
    end
  else (false, s, store').

Definition logout (s : Session) : Session :=
  {| stored_token := None; default_authorization := None; user := None;
     loading := loading s |}.

(** What [App] renders at a path. *)
Inductive view : Type :=
| Loading
| LandingPage
| LoginPage
| UserTablePage
| Navigate (to : string)
| NoMatch.

(** [user && user.role === 'admin'] *)
Definition is_admin (s : Session) : bool :=
  match user s with
  | Some u =>
      match user_role u with
      | Some (JStr r) => String.eqb r "admin"
      | _ => false
      end
  | None => false
  end.

Definition App (s : Session) (path : string) : view :=
  if loading s then Loading
  else if String.eqb path "/" then LandingPage
  else if String.eqb path "/login"
       then match user s with
            | None => LoginPage
            | Some _ => Navigate "/admin"
            end
  else if String.eqb path "/admin"
       then if is_admin s then UserTablePage else Navigate "/login"
  else NoMatch.

(** The view reached from a path after at most [fuel] redirections. *)
Fixpoint follow (fuel : nat) (s : Session) (path : string) : view :=
  match App s path, fuel with
  | Navigate to, S fuel' => follow fuel' s to
  | v, _ => v
  end.

(** [handleSort(field)] of the table: the next value of the sort state. *)
Definition handleSort (sort_ field : string) : string :=
  let '(currentField, rest) := JS.split_colon sort_ in
  let ascending :=
    match rest with
    | direction :: _ => String.eqb direction "asc"
    | [] => false
    end in
  field ++ ":" ++ (if String.eqb currentField field && ascending then "desc" else "asc").

End Client.

(** A browser whose decoder reads the sample tokens. *)
Definition sample_browser : Client.Browser :=
  {| Client.jwtDecode := fun token => option_map jwt_payload (Sample.parse token);
     Client.coerced_after := fun _ _ => false |}.

Definition fresh_session : Client.Session :=
  {| Client.stored_token := None; Client.default_authorization := None;
     Client.user := None; Client.loading := false |}.

(** The session of a browser that kept John's token and is reloaded. *)
Definition reloaded_john : Client.Session :=
  {| Client.stored_token := Some john_token; Client.default_authorization := None;
     Client.user := None; Client.loading := true |}.

Definition only_sort (raw : option string) : QueryParams :=
  {| q_search := None; q_role := None; q_active := None; q_page := None;
     q_limit := None; q_sort := raw |}.

(** A name without a colon. *)
Fixpoint no_colon (s : string) : bool :=
  match s with
  | EmptyString => true
  | String c s' => negb (Ascii.eqb c ":") && no_colon s'
  end.

(** The same for the administrator's token. *)
Definition reloaded_admin : Client.Session :=
  {| Client.stored_token :=
       Some (jwt_serialize Sample.libs (issue_token Sample.libs Sample.env Sample.admin));
     Client.default_authorization := None;
     Client.user := None; Client.loading := true |}.

(** A non-empty string of decimal digits. *)
Definition decimal (s : string) : bool :=
  negb (String.eqb s "") && forallb JS.is_digit (list_ascii_of_string s).

(** A parameter that is left out, or made of one to seven decimal
    digits. *)
Definition short_decimal (raw : option string) : Prop :=
  match raw with
  | Some s => decimal s = true /\ (String.length s <= 7)%nat
  | None => True
  end.

Definition page_and_limit (page_ limit_ : option string) : QueryParams :=
  {| q_search := None; q_role := None; q_active := None; q_page := page_;
     q_limit := limit_; q_sort := None |}.

(** ** Seeding at start-up

    [seedUsers] of the server's entry point: when the collection is
    empty, the four default users are created through the model, each with
    the identifier and the salt the process draws for it, and errors are
    only logged; when the collection holds a user, nothing is done.
    [User.create] saves the documents of an array side by side, so the
    order in which they reach the collection is not that of the array. *)

Record Seed : Type := {
  seed_name : string;
  seed_email : string;
  seed_password : string;
  seed_role : string;
  seed_isActive : bool
}.

Definition defaultUsers : list Seed :=
  [ {| seed_name := "Admin User"; seed_email := "admin@example.com";
       seed_password := "admin123"; seed_role := "admin"; seed_isActive := true |};
    {| seed_name := "John Doe"; seed_email := "john@example.com";
       seed_password := "user123"; seed_role := "user"; seed_isActive := true |};
    {| seed_name := "Jane Smith"; seed_email := "jane@example.com";
       seed_password := "user123"; seed_role := "user"; seed_isActive := true |};
    {| seed_name := "Bob Wilson"; seed_email := "bob@example.com";
       seed_password := "user123"; seed_role := "user"; seed_isActive := false |} ].

(** One document of [User.create]: as [save], with the active flag of the
    seed in place of the default. *)
Definition create_one (L : Libs) (E : Env) (seed : Seed) (store : Store)
    : outcome (User * Store) :=
  match User.save L E (Some (seed_name seed)) (Some (seed_email seed))
          (Some (seed_password seed)) (seed_role seed) store with
  | Ok (doc, _) =>
      let doc' := with_active (seed_isActive seed) doc in
      Ok (doc', (store ++ [doc'])%list)
  | Throw e => Throw e
  end.

(** [User.create(docs)]: every document is tried, and a document that is
    refused is left out.  [arrival] is the order in which the insertions
    reach the collection, each document named by its position in [docs];
    the document at position [k] is saved in the environment
    [supply k]. *)
Fixpoint create_all (L : Libs) (supply : nat -> Env) (docs : list Seed)
    (arrival : list nat) (store : Store) : Store :=
  match arrival with
  | [] => store
  | k :: rest =>
      match nth_error docs k with
      | Some seed =>
          match create_one L (supply k) seed store with
          | Ok (_, store') => create_all L supply docs rest store'
          | Throw _ => create_all L supply docs rest store
          end
      | None => create_all L supply docs rest store
      end
  end.

Definition seedUsers (L : Libs) (supply : nat -> Env) (arrival : list nat)
    (store : Store) : Store :=
  if 0 <? Z.of_nat (List.length store) then store
  else create_all L supply defaultUsers arrival store.

(** The record a seed becomes. *)
Definition seeded_user (L : Libs) (E : Env) (seed : Seed) : User :=
  {| _id := fresh_id E;
     name := seed_name seed;
     email := seed_email seed;
     password := bcrypt_hash L (seed_password seed) 12 (salt E);
     role := seed_role seed;
     isActive := seed_isActive seed;
     createdAt := now E;
     updatedAt := now E |}.

(** The records the seeds at the given positions become. *)
Definition seeded_users (L : Libs) (supply : nat -> Env) (positions : list nat)
    : list User :=
  flat_map (fun k => match nth_error defaultUsers k with
                     | Some seed => [seeded_user L (supply k) seed]
                     | None => []
                     end) positions.

(** Environments that differ in the identifier they draw. *)
Definition sample_supply (k : nat) : Env :=
  {| now := 1690000000000; JWT_SECRET := "s3cret";
     fresh_id := nth k [ "65a000000000000000000001"; "65a000000000000000000002";
                         "65a000000000000000000003"; "65a000000000000000000004" ]
                   "65a0000000000000000000ff";
     salt := "salt" |}.

(** * Properties *)

(** ** The secret never leaves the server *)

Lemma projection_hides_password (u : User) :
  has_key "password" (select_minus "password" (toJSON u)) = false.
Proof. reflexivity. Qed.

Lemma msg_hides_password (text : string) : has_key "password" (msg text) = false.
Proof. reflexivity. Qed.

Lemma token_and_user_hides_password (L : Libs) (E : Env) (u : User) :
  has_key "password" (token_and_user L E u) = false.
Proof. reflexivity. Qed.

Lemma listing_hides_password (users : list User) :
  existsb (has_key "password")
    (map (fun u => select_minus "password" (toJSON u)) users) = false.
Proof.
  induction users as [|u users IH]; simpl; [reflexivity|exact IH].
Qed.

Lemma post_user_hides L E req store : hides_password (post_user L E req store).
Proof.
  unfold hides_password, post_user.
  destruct (User.findOne store _); [reflexivity|].
  destruct (User.save _ _ _ _ _ _ _) as [[u store']|message]; reflexivity.
Qed.

Lemma login_hides L E req store : hides_password (login L E req store).
Proof.
  unfold hides_password, login.
  destruct (User.findOne store _) as [u|]; [|reflexivity].
  destruct (userSchema.comparePassword L u _) as [[|]|message]; reflexivity.
Qed.

Lemma list_users_hides L req store : hides_password (list_users L req store).
Proof.
  unfold hides_password, list_users.
  destruct (User.find _ _ _ _ _ _) as [users|message]; [|reflexivity].
  destruct (User.countDocuments _ _ _) as [total|message]; [|reflexivity].
  cbn -[select_minus toJSON JS.ceil_div current_page].
  rewrite listing_hides_password. reflexivity.
Qed.

Lemma get_user_hides req store : hides_password (get_user req store).
Proof.
  unfold hides_password, get_user.
  destruct (User.findById store _) as [[u|]|message]; reflexivity.
Qed.

Lemma update_user_hides L E req store : hides_password (update_user L E req store).
Proof.
  unfold hides_password, update_user.
  destruct (rehash L E _) as [updates|message]; [|reflexivity].
  cbn [bind].
  destruct (User.findByIdAndUpdate _ _ _ _) as [[[u|] store']|message]; reflexivity.
Qed.

Lemma delete_user_hides req store : hides_password (delete_user req store).
Proof.
  unfold hides_password, delete_user.
  destruct (User.findByIdAndDelete store _) as [[[u|] store']|message]; reflexivity.
Qed.

Lemma adminAuth_denied (user : json) (r : Response) :
  adminAuth user = Some r -> r = respond 403 (msg "Admin access required").
Proof.
  unfold adminAuth.
  destruct (get_field "role" user) as [[| | |role_| |]|];
    try (intros [= <-]; reflexivity).
  destruct (String.eqb role_ "admin"); [discriminate|].
  intros [= <-]; reflexivity.
Qed.

Lemma guarded_hides L E handler req store :
  (forall req' store', hides_password (handler req' store')) ->
  hides_password (guarded L E handler req store).
Proof.
  intros Hhandler. unfold guarded, auth.
  destruct (bearer req) as [t|]; [|reflexivity].
  destruct (String.eqb t ""); [reflexivity|].
  destruct (bind _ _) as [[u|]|message]; try reflexivity.
  destruct (adminAuth _) as [denied|] eqn:Hadmin; [|apply Hhandler].
  apply adminAuth_denied in Hadmin. subst denied. reflexivity.
Qed.

(** C1.  Whatever the operation, the request and the collection, the
    payload of the response holds no [password] field at any depth: not in
    a user record, not in the pagination data, not next to an error
    message. *)
Theorem responses_hide_password :
  forall (L : Libs) (E : Env) (op : operation) (req : Request) (store : Store),
    has_key "password" (payload (fst (route L E op req store))) = false.
Proof.
  intros L E op req store.
  change (hides_password (route L E op req store)).
  destruct op; cbn [route].
  - apply post_user_hides.
  - apply login_hides.
  - apply guarded_hides. intros; apply list_users_hides.
  - apply guarded_hides. intros; apply get_user_hides.
  - apply guarded_hides. intros; apply update_user_hides.
  - apply guarded_hides. intros; apply delete_user_hides.
Qed.


(** ** Tokens *)

Lemma issued_claims (L : Libs) (E : Env) (u : User) :
  jwt_payload (issue_token L E u) =
    [ ("id", JStr (_id u));
      ("iat", JNum (now E / 1000));
      ("exp", JNum (now E / 1000 + 3600)) ].
Proof. reflexivity. Qed.

Lemma findOne_In (store : Store) (e : option string) (u : User) :
  User.findOne store e = Some u -> In u store.
Proof.
  destruct e as [e|]; [|discriminate]. cbn [User.findOne].
  intros H. apply find_some in H. tauto.
Qed.

Lemma save_In L E n e p r (store store' : Store) (u : User) :
  User.save L E n e p r store = Ok (u, store') -> In u store'.
Proof.
  unfold User.save, bind.
  destruct (userSchema.validate n e p r); [|discriminate].
  destruct (existsb _ store); [discriminate|].
  destruct (User.email_taken _ _ _); [discriminate|].
  intros [= <- <-]. apply in_or_app. right. left. reflexivity.
Qed.

(** What both call sites issue.  After a successful registration (201)
    the response carries the token of the document that was saved, after
    a successful login (200) the token of the stored user the address of
    the body selects.  It is the compact form of a token signed with the
    process key, whose claims are the identifier of that user, the time of
    issue and an expiry 3600 seconds later; the claims hold no role. *)
Lemma issued_token_claims :
  forall (L : Libs) (E : Env) (req : Request) (store store' : Store) (resp : Response),
    (post_user L E req store = (resp, store') /\ status resp = 201) \/
    (login L E req store = (resp, store') /\ status resp = 200) ->
    exists user : User,
      (User.save L E (b_name (req_body req)) (b_email (req_body req))
         (b_password (req_body req)) (JS.or_else (b_role (req_body req)) "user") store
         = Ok (user, store') \/
       (User.findOne store (b_email (req_body req)) = Some user /\ store' = store)) /\
      In user store' /\
      payload resp =
        JObj [ ("token", JStr (jwt_serialize L (issue_token L E user)));
               ("user", public_user user) ] /\
      jwt_payload (issue_token L E user) =
        [ ("id", JStr (_id user));
          ("iat", JNum (now E / 1000));
          ("exp", JNum (now E / 1000 + one_hour)) ] /\
      jwt_signature (issue_token L E user) =
        jwt_mac L (JWT_SECRET E) (jwt_payload (issue_token L E user)) /\
      lookup "role" (jwt_payload (issue_token L E user)) = None.
Proof.
  intros L E req store store' resp [[Hrun Hstatus]|[Hrun Hstatus]].
  - unfold post_user in Hrun.
    destruct (User.findOne store _).
    { injection Hrun as <- _. discriminate. }
    destruct (User.save _ _ _ _ _ _ _) as [[u st]|message] eqn:Hsave.
    + injection Hrun as <- <-. exists u.
      split; [left; reflexivity|].
      split; [eapply save_In; eassumption|].
      repeat split.
    + injection Hrun as <- _. discriminate.
  - unfold login in Hrun.
    destruct (User.findOne store _) as [u|] eqn:Hfind.
    2:{ injection Hrun as <- _. discriminate. }
    destruct (userSchema.comparePassword L u _) as [[|]|message].
    + injection Hrun as <- <-. exists u.
      split; [right; split; reflexivity|].
      split; [eapply findOne_In; eassumption|].
      repeat split.
    + injection Hrun as <- _. discriminate.
    + injection Hrun as <- _. discriminate.
Qed.

Lemma issued_token_claims_john :
  exists user : User,
    (User.save Sample.libs Sample.env (b_name (req_body login_john))
       (b_email (req_body login_john)) (b_password (req_body login_john))
       (JS.or_else (b_role (req_body login_john)) "user") Sample.store
       = Ok (user, Sample.store) \/
     (User.findOne Sample.store (b_email (req_body login_john)) = Some user /\
      Sample.store = Sample.store)) /\
    In user Sample.store /\
    payload (fst (login Sample.libs Sample.env login_john Sample.store)) =
      JObj [ ("token",
              JStr (jwt_serialize Sample.libs (issue_token Sample.libs Sample.env user)));
             ("user", public_user user) ] /\
    jwt_payload (issue_token Sample.libs Sample.env user) =
      [ ("id", JStr (_id user));
        ("iat", JNum (now Sample.env / 1000));
        ("exp", JNum (now Sample.env / 1000 + one_hour)) ] /\
    jwt_signature (issue_token Sample.libs Sample.env user) =
      jwt_mac Sample.libs (JWT_SECRET Sample.env)
        (jwt_payload (issue_token Sample.libs Sample.env user)) /\
    lookup "role" (jwt_payload (issue_token Sample.libs Sample.env user)) = None.
Proof.
  apply (issued_token_claims Sample.libs Sample.env login_john Sample.store Sample.store
           (fst (login Sample.libs Sample.env login_john Sample.store))).
  right. split; reflexivity.
Defined.

(** The same for a user: John logs in with his password, the login
    succeeds, and the claims of his token name no role, although his
    record has one. *)
Lemma token_embeds_no_role :
  status (fst (login Sample.libs Sample.env login_john Sample.store)) = 200 /\
  get_field "token" (payload (fst (login Sample.libs Sample.env login_john Sample.store))) =
    Some (JStr (jwt_serialize Sample.libs (issue_token Sample.libs Sample.env Sample.john))) /\
  role Sample.john = "user" /\
  jwt_payload (issue_token Sample.libs Sample.env Sample.john) =
    [ ("id", JStr "65a000000000000000000002");
      ("iat", JNum 1700000000);
      ("exp", JNum 1700003600) ] /\
  lookup "role" (jwt_payload (issue_token Sample.libs Sample.env Sample.john)) = None /\
  ~ In (JStr (role Sample.john))
       (map snd (jwt_payload (issue_token Sample.libs Sample.env Sample.john))).
Proof.
  repeat split.
  intros [H|[H|[H|[]]]]; discriminate H.
Qed.

(** C2.  The code at the failing input: the administrator logs in with the
    seeded password.  The login is answered 200 with the administrator's
    token, signed with the process key; its claims are the identifier,
    the time of issue and an expiry one hour later, and they hold no role,
    although the record has the role [admin].  The client reads the role
    from these claims when it restores a session ([decoded.role] in
    [AuthContext.js]): it finds none, and does not take the administrator
    for one. *)
Theorem issued_token_lacks_role :
  status (fst (login Sample.libs Sample.env login_admin Sample.store)) = 200 /\
  get_field "token" (payload (fst (login Sample.libs Sample.env login_admin Sample.store))) =
    Some (JStr (jwt_serialize Sample.libs (issue_token Sample.libs Sample.env Sample.admin))) /\
  get_field "user" (payload (fst (login Sample.libs Sample.env login_admin Sample.store))) =
    Some (JObj [ ("id", JStr "65a000000000000000000001");
                 ("name", JStr "Admin User");
                 ("email", JStr "admin@example.com");
                 ("role", JStr "admin") ]) /\
  role Sample.admin = "admin" /\
  jwt_payload (issue_token Sample.libs Sample.env Sample.admin) =
    [ ("id", JStr "65a000000000000000000001");
      ("iat", JNum 1700000000);
      ("exp", JNum (1700000000 + 3600)) ] /\
  jwt_signature (issue_token Sample.libs Sample.env Sample.admin) =
    jwt_mac Sample.libs "s3cret"
      (jwt_payload (issue_token Sample.libs Sample.env Sample.admin)) /\
  lookup "role" (jwt_payload (issue_token Sample.libs Sample.env Sample.admin)) = None /\
  Client.user (Client.restore sample_browser 1700000001000 reloaded_admin) =
    Some {| Client.user_id := Some (JStr "65a000000000000000000001");
            Client.user_role := None |} /\
  Client.is_admin (Client.restore sample_browser 1700000001000 reloaded_admin) = false /\
  Client.App (Client.restore sample_browser 1700000001000 reloaded_admin) "/admin" =
    Client.Navigate "/login".
Proof. repeat split. Qed.

(** ** Updates that carry a password *)

Lemma bcrypt_is_unbound : reference "bcrypt" = Throw "bcrypt is not defined".
Proof. reflexivity. Qed.

(** An update that supplies a non-empty password never reaches the store:
    the handler stops at the unbound identifier and answers 500. *)
Lemma update_with_password_throws (L : Libs) (E : Env) (req : Request) (store : Store) :
  JS.truthy (b_password (req_body req)) = true ->
  update_user L E req store = (respond 500 (msg "Server error"), store).
Proof.
  intros Hpassword. unfold update_user, rehash.
  rewrite Hpassword. reflexivity.
Qed.

(** C3.  The code at the failing input: an administrator's update of
    John's password is answered 500 and the collection is left as it was,
    so no hash is stored and the timestamp is not refreshed; for an
    unknown identifier the answer is 500 as well, not 404. *)
Theorem password_update_fails :
  route Sample.libs Sample.env UpdateUser reset_john Sample.store =
    (respond 500 (msg "Server error"), Sample.store) /\
  route Sample.libs Sample.env UpdateUser reset_nobody Sample.store =
    (respond 500 (msg "Server error"), Sample.store) /\
  User.findById Sample.store "65a0000000000000000000ff" = Ok None.
Proof. repeat split. Qed.

(** ** The access guard *)

Lemma verify_malformed (L : Libs) (E : Env) (t : string) :
  jwt_parse L t = None ->
  jwt.verify L (now E) t (JWT_SECRET E) = Throw "jwt malformed".
Proof. intros H. unfold jwt.verify. rewrite H. reflexivity. Qed.

Lemma verify_tampered (L : Libs) (E : Env) (t : string) (tk : Jwt) :
  jwt_parse L t = Some tk ->
  jwt_signature tk <> jwt_mac L (JWT_SECRET E) (jwt_payload tk) ->
  jwt.verify L (now E) t (JWT_SECRET E) = Throw "invalid signature".
Proof.
  intros Hparse Hsig. unfold jwt.verify. rewrite Hparse.
  apply String.eqb_neq in Hsig. rewrite Hsig. reflexivity.
Qed.

Lemma verify_expired (L : Libs) (E : Env) (t : string) (tk : Jwt) (exp : Z) :
  jwt_parse L t = Some tk ->
  lookup "exp" (jwt_payload tk) = Some (JNum exp) ->
  exp <= now E / 1000 ->
  exists e, jwt.verify L (now E) t (JWT_SECRET E) = Throw e.
Proof.
  intros Hparse Hexp Hle. unfold jwt.verify. rewrite Hparse, Hexp.
  destruct (negb _); [eauto|].
  apply Z.leb_le in Hle. rewrite Hle. eauto.
Qed.

Lemma guarded_no_token L E handler req store :
  JS.truthy (bearer req) = false ->
  denied 401 store (guarded L E handler req store).
Proof.
  intros Hbearer. unfold guarded, auth.
  destruct (bearer req) as [t|]; cbn [JS.truthy] in Hbearer.
  - apply negb_false_iff in Hbearer. rewrite Hbearer. eexists; reflexivity.
  - eexists; reflexivity.
Qed.

Lemma guarded_bad_token L E handler req store t e :
  bearer req = Some t ->
  jwt.verify L (now E) t (JWT_SECRET E) = Throw e ->
  denied 401 store (guarded L E handler req store).
Proof.
  intros Hbearer Hverify. unfold guarded, auth. rewrite Hbearer.
  destruct (String.eqb t ""); [eexists; reflexivity|].
  rewrite Hverify. eexists; reflexivity.
Qed.

Lemma guarded_unknown_subject L E handler req store t decoded :
  bearer req = Some t ->
  jwt.verify L (now E) t (JWT_SECRET E) = Ok decoded ->
  (forall u, find_subject store decoded <> Ok (Some u)) ->
  denied 401 store (guarded L E handler req store).
Proof.
  intros Hbearer Hverify Hgone. unfold guarded, auth. rewrite Hbearer.
  destruct (String.eqb t ""); [eexists; reflexivity|].
  rewrite Hverify. cbn [bind].
  destruct (find_subject store decoded) as [[u|]|message].
  - exfalso. apply (Hgone u). reflexivity.
  - eexists; reflexivity.
  - eexists; reflexivity.
Qed.

Lemma guarded_not_admin L E handler req store t decoded u :
  bearer req = Some t ->
  t <> "" ->
  jwt.verify L (now E) t (JWT_SECRET E) = Ok decoded ->
  find_subject store decoded = Ok (Some u) ->
  role u <> "admin" ->
  denied 403 store (guarded L E handler req store).
Proof.
  intros Hbearer Hne Hverify Hfound Hrole. unfold guarded, auth. rewrite Hbearer.
  apply String.eqb_neq in Hne. rewrite Hne.
  rewrite Hverify. cbn [bind]. rewrite Hfound.
  unfold adminAuth.
  change (get_field "role" (select_minus "password" (toJSON u)))
    with (Some (JStr (role u))).
  cbv beta iota.
  apply String.eqb_neq in Hrole. rewrite Hrole.
  eexists; reflexivity.
Qed.

Lemma guarded_admitted L E handler req store :
  admitted L E req store ->
  guarded L E handler req store = handler req store.
Proof.
  intros [user [Hauth Hadmin]]. unfold guarded. rewrite Hauth, Hadmin. reflexivity.
Qed.

Lemma verification_fails_throws L E t :
  verification_fails L E t -> exists e, jwt.verify L (now E) t (JWT_SECRET E) = Throw e.
Proof.
  intros [H|[[tk [Hp Hs]]|[tk [exp [Hp [He Hle]]]]]].
  - eexists. apply verify_malformed; assumption.
  - eexists. eapply verify_tampered; eassumption.
  - eapply verify_expired; eassumption.
Qed.

(** C4.  On every guarded route, whatever the handler behind the guard:
    the request is answered 401 when it carries no bearer token, when the
    verification of the token throws, in particular when the token is
    malformed, tampered with or expired, and when the subject of the token
    resolves to no stored user; it is answered 403 when the token is
    verified and its subject is a stored user whose role is not admin.  In
    all these cases the handler does not run and the collection is left as
    it was. *)
Theorem guard_denials :
  forall (L : Libs) (E : Env) (handler : Request -> Store -> Response * Store)
         (req : Request) (store : Store),
    (JS.truthy (bearer req) = false ->
     denied 401 store (guarded L E handler req store)) /\
    (forall t, bearer req = Some t ->
       (forall e, jwt.verify L (now E) t (JWT_SECRET E) = Throw e ->
          denied 401 store (guarded L E handler req store)) /\
       (verification_fails L E t ->
          denied 401 store (guarded L E handler req store)) /\
       (forall decoded,
          jwt.verify L (now E) t (JWT_SECRET E) = Ok decoded ->
          (forall u, find_subject store decoded <> Ok (Some u)) ->
          denied 401 store (guarded L E handler req store)) /\
       (forall decoded u,
          t <> "" ->
          jwt.verify L (now E) t (JWT_SECRET E) = Ok decoded ->
          find_subject store decoded = Ok (Some u) ->
          role u <> "admin" ->
          denied 403 store (guarded L E handler req store))).
Proof.
  intros L E handler req store. split.
  - apply guarded_no_token.
  - intros t Hbearer. repeat split.
    + intros e. exact (guarded_bad_token L E handler req store t e Hbearer).
    + intros Hfails. destruct (verification_fails_throws L E t Hfails) as [e He].
      exact (guarded_bad_token L E handler req store t e Hbearer He).
    + intros decoded.
      exact (guarded_unknown_subject L E handler req store t decoded Hbearer).
    + intros decoded u.
      exact (guarded_not_admin L E handler req store t decoded u Hbearer).
Qed.

Lemma guard_denials_witness :
  let handler := list_users Sample.libs in
  denied 401 Sample.store
    (guarded Sample.libs Sample.env handler (list_as None) Sample.store) /\
  denied 401 Sample.store
    (guarded Sample.libs Sample.env handler (list_as (Some "Bearer garbage")) Sample.store) /\
  denied 401 Sample.store
    (guarded Sample.libs Sample.env handler
       (list_as (Some "Bearer 65a000000000000000000002:1700000000:1700003600:forged"))
       Sample.store) /\
  denied 401 Sample.store
    (guarded Sample.libs an_hour_later handler
       (list_as (Some ("Bearer " ++ john_token))) Sample.store) /\
  denied 401 without_john
    (guarded Sample.libs Sample.env handler
       (list_as (Some ("Bearer " ++ john_token))) without_john) /\
  denied 403 Sample.store
    (guarded Sample.libs Sample.env handler
       (list_as (Some ("Bearer " ++ john_token))) Sample.store).
Proof.
  intros handler. repeat apply conj.
  - apply (proj1 (guard_denials Sample.libs Sample.env handler (list_as None) Sample.store)).
    reflexivity.
  - destruct (proj2 (guard_denials Sample.libs Sample.env handler
                       (list_as (Some "Bearer garbage")) Sample.store)
                "garbage" eq_refl) as [_ [Hfails _]].
    apply Hfails. left. reflexivity.
  - destruct (proj2 (guard_denials Sample.libs Sample.env handler
                       (list_as (Some "Bearer 65a000000000000000000002:1700000000:1700003600:forged"))
                       Sample.store)
                "65a000000000000000000002:1700000000:1700003600:forged" eq_refl)
      as [_ [Hfails _]].
    apply Hfails. right. left. eexists. split; [reflexivity|].
    cbv. discriminate.
  - destruct (proj2 (guard_denials Sample.libs an_hour_later handler
                       (list_as (Some ("Bearer " ++ john_token))) Sample.store)
                john_token eq_refl) as [_ [Hfails _]].
    apply Hfails. right. right. exists (issue_token Sample.libs Sample.env Sample.john), 1700003600.
    repeat split. cbv. discriminate.
  - destruct (proj2 (guard_denials Sample.libs Sample.env handler
                       (list_as (Some ("Bearer " ++ john_token))) without_john)
                john_token eq_refl) as [_ [_ [Hgone _]]].
    apply (Hgone (jwt_payload (issue_token Sample.libs Sample.env Sample.john))).
    + reflexivity.
    + intros u. cbv. discriminate.
  - destruct (proj2 (guard_denials Sample.libs Sample.env handler
                       (list_as (Some ("Bearer " ++ john_token))) Sample.store)
                john_token eq_refl) as [_ [_ [_ Hforbidden]]].
    apply (Hforbidden (jwt_payload (issue_token Sample.libs Sample.env Sample.john))
             Sample.john).
    + cbv. discriminate.
    + reflexivity.
    + reflexivity.
    + cbv. discriminate.
Defined.

(** ** The listing *)

Lemma ceil_div_bounds (a b : Z) :
  0 < b -> (JS.ceil_div a b - 1) * b < a <= JS.ceil_div a b * b.
Proof.
  intros Hb. unfold JS.ceil_div.
  pose proof (Z.div_mod (- a) b ltac:(lia)) as Hdiv.
  pose proof (Z.mod_pos_bound (- a) b Hb) as Hmod.
  nia.
Qed.

Lemma insert_sorted_length le u l :
  List.length (User.insert_sorted le u l) = S (List.length l).
Proof.
  induction l as [|v l IH]; cbn [User.insert_sorted]; [reflexivity|].
  destruct (le u v); cbn [List.length]; [reflexivity|]. now rewrite IH.
Qed.

Lemma insert_sorted_In le u l w :
  In w (User.insert_sorted le u l) -> w = u \/ In w l.
Proof.
  induction l as [|v l IH]; cbn [User.insert_sorted].
  - intros [<-|[]]. now left.
  - destruct (le u v).
    + intros [<-|H]; [now left|now right].
    + intros [<-|H]; [right; now left|].
      destruct (IH H) as [->|Hin]; [now left|right; now right].
Qed.

Lemma sort_by_length s l : List.length (User.sort_by s l) = List.length l.
Proof.
  induction l as [|u l IH]; [reflexivity|].
  cbn [User.sort_by fold_right]. rewrite insert_sorted_length.
  cbn [List.length]. f_equal. exact IH.
Qed.

Lemma sort_by_In s l w : In w (User.sort_by s l) -> In w l.
Proof.
  induction l as [|u l IH]; [intros []|].
  cbn [User.sort_by fold_right]. intros H.
  apply insert_sorted_In in H. destruct H as [->|H]; [now left|].
  right. apply IH. exact H.
Qed.

Lemma take_limit_length n l :
  1 <= n -> Z.of_nat (List.length (User.take_limit n l)) <= n.
Proof.
  intros Hn. unfold User.take_limit.
  destruct (Z.eqb_spec n 0) as [->|_]; [lia|].
  pose proof (firstn_le_length (Z.to_nat (Z.abs n)) l). lia.
Qed.

Lemma In_firstn_skipn (n : nat) (l : list User) (w : User) :
  In w (firstn n l) \/ In w (skipn n l) -> In w l.
Proof.
  intros H. rewrite <- (firstn_skipn n l). apply in_or_app. exact H.
Qed.

Lemma take_limit_In n l w : In w (User.take_limit n l) -> In w l.
Proof.
  unfold User.take_limit. destruct (n =? 0); [tauto|].
  intros H. apply (In_firstn_skipn (Z.to_nat (Z.abs n))). now left.
Qed.

Lemma page_In s (skip_ limit_ : Z) l w :
  In w (User.take_limit limit_ (skipn (Z.to_nat skip_) (User.sort_by s l))) -> In w l.
Proof.
  intros H. apply take_limit_In in H.
  apply (sort_by_In s). apply (In_firstn_skipn (Z.to_nat skip_)). now right.
Qed.

(** C5.  For a request the guard lets through, when the effective page and
    the effective page size are at least 1 and within the range in which
    the numbers of the source are exact, as is the skip, and the store
    accepts the filter and the key of the sort, the listing answers 200
    with at most [limit] records, all of them stored records that satisfy
    the filter, and with pagination data in which [total] counts the
    stored records satisfying the filter and [pages] is the ceiling of
    [total / limit]; with no such record the list is empty and [pages] is
    0. *)
Theorem listing_page :
  forall (L : Libs) (E : Env) (req : Request) (store : Store) (p : User -> bool),
    admitted L E req store ->
    1 <= current_page (req_query req) ->
    1 <= limit (getPaginationSort (req_query req)) ->
    JS.safe (current_page (req_query req)) ->
    JS.safe (limit (getPaginationSort (req_query req))) ->
    JS.safe (skip (getPaginationSort (req_query req))) ->
    User.sort_refused L (sort (getPaginationSort (req_query req))) = false ->
    User.compile_filter L (buildQuery (req_query req)) = Ok p ->
    exists (records : list User) (pages : Z),
      route L E ListUsers req store =
        (respond 200
           (JObj [ ("users",
                    JArr (map (fun u => select_minus "password" (toJSON u)) records));
                   ("pagination",
                    JObj [ ("current", JNum (current_page (req_query req)));
                           ("pages", JNum pages);
                           ("total", JNum (Z.of_nat (List.length (filter p store)))) ]) ]),
         store) /\
      Z.of_nat (List.length records) <= limit (getPaginationSort (req_query req)) /\
      (forall u, In u records -> In u store /\ p u = true) /\
      pages = JS.ceil_div (Z.of_nat (List.length (filter p store)))
                (limit (getPaginationSort (req_query req))) /\
      (pages - 1) * limit (getPaginationSort (req_query req))
        < Z.of_nat (List.length (filter p store))
        <= pages * limit (getPaginationSort (req_query req)) /\
      (List.length (filter p store) = 0%nat -> records = [] /\ pages = 0).
Proof.
  intros L E req store p Hadmitted Hpage Hlimit _ _ _ Hsort Hfilter.
  cbn [route]. rewrite (guarded_admitted L E _ req store Hadmitted).
  set (q := req_query req) in *.
  set (ps := getPaginationSort q) in *.
  set (matching := filter p store).
  exists (User.take_limit (limit ps)
            (skipn (Z.to_nat (skip ps)) (User.sort_by (sort ps) matching))).
  exists (JS.ceil_div (Z.of_nat (List.length matching)) (limit ps)).
  assert (Hskip : (skip ps <? 0) = false).
  { apply Z.ltb_ge. subst ps. cbn [skip limit getPaginationSort] in *. nia. }
  split; [|split; [|split; [|split; [|split]]]].
  - unfold list_users. fold q. fold ps.
    unfold User.find, User.countDocuments. rewrite Hfilter. cbn [bind].
    rewrite Hsort, Hskip. reflexivity.
  - apply take_limit_length. exact Hlimit.
  - intros u Hin. apply page_In in Hin. apply filter_In in Hin. exact Hin.
  - reflexivity.
  - apply ceil_div_bounds. lia.
  - intros Hnone. apply length_zero_iff_nil in Hnone.
    unfold matching in *. rewrite Hnone. cbn [User.sort_by fold_right].
    rewrite skipn_nil. split.
    + unfold User.take_limit. destruct (limit ps =? 0); [reflexivity|apply firstn_nil].
    + reflexivity.
Qed.

Lemma listing_page_witness :
  exists (records : list User) (pages : Z),
    route Sample.libs Sample.env ListUsers second_page Sample.store =
      (respond 200
         (JObj [ ("users",
                  JArr (map (fun u => select_minus "password" (toJSON u)) records));
                 ("pagination",
                  JObj [ ("current", JNum 2);
                         ("pages", JNum pages);
                         ("total", JNum (Z.of_nat (List.length (filter search_o Sample.store)))) ]) ]),
       Sample.store) /\
    Z.of_nat (List.length records) <= 2 /\
    (forall u, In u records -> In u Sample.store /\ search_o u = true) /\
    pages = JS.ceil_div (Z.of_nat (List.length (filter search_o Sample.store))) 2 /\
    (pages - 1) * 2 < Z.of_nat (List.length (filter search_o Sample.store)) <= pages * 2 /\
    (List.length (filter search_o Sample.store) = 0%nat -> records = [] /\ pages = 0).
Proof.
  apply (listing_page Sample.libs Sample.env second_page Sample.store search_o).
  - eexists. split; reflexivity.
  - cbv. discriminate.
  - cbv. discriminate.
  - cbv. split; discriminate.
  - cbv. split; discriminate.
  - cbv. split; discriminate.
  - reflexivity.
  - reflexivity.
Defined.

(** A sort parameter without a field name, [sort=:desc], is refused by the
    store, and the listing is answered 500. *)
Example listing_without_sort_field :
  route Sample.libs Sample.env ListUsers
    (Sample.request (Sample.bearer_of Sample.libs Sample.env Sample.admin)
       (only_sort (Some ":desc")) "" Sample.no_body)
    Sample.store
  = (respond 500 (msg "Server error"), Sample.store).
Proof. reflexivity. Qed.

(** ** The page number *)

Example page_absent : current_page (only_page None) = 1.
Proof. reflexivity. Qed.

Example page_not_numeric : current_page (only_page (Some "abc")) = 1.
Proof. reflexivity. Qed.

Example page_zero : current_page (only_page (Some "0")) = 1.
Proof. reflexivity. Qed.

Example page_with_suffix : current_page (only_page (Some " 7th")) = 7.
Proof. reflexivity. Qed.

(** C6, as the specification has it, fails: the page [-3] is kept as it
    is, and with the default page size the skip is [-40]. *)
Lemma negative_page_is_kept :
  current_page (only_page (Some "-3")) = -3 /\
  skip (getPaginationSort (only_page (Some "-3"))) = -40 /\
  ~ 1 <= current_page (only_page (Some "-3")) /\
  ~ 0 <= skip (getPaginationSort (only_page (Some "-3"))).
Proof. repeat split; cbv; intros H; apply H; reflexivity. Qed.

(** C6, as the code has it.  Within the range in which the numbers of
    the source are exact, and for every raw page parameter: the effective
    page is the integer [parseInt] reads from the parameter, negative ones
    included, and 1 when the parameter is absent, has no leading integer
    or reads as zero; the skip is [(page - 1) * limit].  Nothing clamps
    the page: a parameter that reads as a negative integer gives a page
    below 1 and, for a page size of at least 1, a negative skip.  Only
    when the parameter does not read as a negative integer is the page at
    least 1 and the skip non-negative. *)
Theorem page_defaults_to_one :
  forall q : QueryParams,
    JS.safe (current_page q) ->
    JS.safe (limit (getPaginationSort q)) ->
    JS.safe (skip (getPaginationSort q)) ->
    (q_page q = None -> current_page q = 1) /\
    (JS.parseInt (q_page q) = None -> current_page q = 1) /\
    (JS.parseInt (q_page q) = Some 0 -> current_page q = 1) /\
    (forall n, JS.parseInt (q_page q) = Some n -> n <> 0 -> current_page q = n) /\
    skip (getPaginationSort q) = (current_page q - 1) * limit (getPaginationSort q) /\
    (forall n, JS.parseInt (q_page q) = Some n -> n < 0 ->
       current_page q = n /\
       current_page q < 1 /\
       (1 <= limit (getPaginationSort q) -> skip (getPaginationSort q) < 0)) /\
    ((forall n, JS.parseInt (q_page q) = Some n -> 0 <= n) ->
       1 <= current_page q /\
       (1 <= limit (getPaginationSort q) -> 0 <= skip (getPaginationSort q))).
Proof.
  intros q _ _ _.
  assert (Hkept : forall n, JS.parseInt (q_page q) = Some n -> n <> 0 -> current_page q = n).
  { intros n Hn Hnz. unfold current_page. rewrite Hn. cbn [JS.num_or].
    apply Z.eqb_neq in Hnz. rewrite Hnz. reflexivity. }
  split; [|split; [|split; [|split; [|split; [|split]]]]].
  - unfold current_page. intros ->. reflexivity.
  - unfold current_page. intros ->. reflexivity.
  - unfold current_page. intros ->. reflexivity.
  - exact Hkept.
  - reflexivity.
  - intros n Hn Hneg.
    pose proof (Hkept n Hn ltac:(lia)) as Hpage.
    split; [exact Hpage|]. split; [lia|].
    cbn [skip limit getPaginationSort]. rewrite Hpage. nia.
  - intros Hnonneg.
    assert (Hpage : 1 <= current_page q).
    { unfold current_page.
      destruct (JS.parseInt (q_page q)) as [n|] eqn:Hparse; cbn [JS.num_or]; [|lia].
      specialize (Hnonneg n eq_refl).
      destruct (Z.eqb_spec n 0); lia. }
    split; [exact Hpage|].
    cbn [skip limit getPaginationSort]. nia.
Qed.

Lemma page_defaults_to_one_witness :
  (q_page (only_page (Some "-3")) = None -> current_page (only_page (Some "-3")) = 1) /\
  (JS.parseInt (q_page (only_page (Some "-3"))) = None ->
   current_page (only_page (Some "-3")) = 1) /\
  (JS.parseInt (q_page (only_page (Some "-3"))) = Some 0 ->
   current_page (only_page (Some "-3")) = 1) /\
  (forall n, JS.parseInt (q_page (only_page (Some "-3"))) = Some n -> n <> 0 ->
   current_page (only_page (Some "-3")) = n) /\
  skip (getPaginationSort (only_page (Some "-3"))) =
    (current_page (only_page (Some "-3")) - 1)
    * limit (getPaginationSort (only_page (Some "-3"))) /\
  (forall n, JS.parseInt (q_page (only_page (Some "-3"))) = Some n -> n < 0 ->
     current_page (only_page (Some "-3")) = n /\
     current_page (only_page (Some "-3")) < 1 /\
     (1 <= limit (getPaginationSort (only_page (Some "-3"))) ->
      skip (getPaginationSort (only_page (Some "-3"))) < 0)) /\
  ((forall n, JS.parseInt (q_page (only_page (Some "-3"))) = Some n -> 0 <= n) ->
     1 <= current_page (only_page (Some "-3")) /\
     (1 <= limit (getPaginationSort (only_page (Some "-3"))) ->
      0 <= skip (getPaginationSort (only_page (Some "-3"))))).
Proof.
  apply (page_defaults_to_one (only_page (Some "-3"))).
  - cbv. split; discriminate.
  - cbv. split; discriminate.
  - cbv. split; discriminate.
Defined.

(** ** The active filter *)

(** C7, as the specification has it, fails: [active=yes] is not treated
    as absent; it adds the clause [isActive = false], which leaves out
    John, an active user that the filter without the parameter selects. *)
Lemma unrecognised_active_filters :
  f_isActive (buildQuery (only_active (Some "yes"))) = Some false /\
  f_isActive (buildQuery (only_active None)) = None /\
  isActive Sample.john = true /\
  (exists p, User.compile_filter Sample.libs (buildQuery (only_active (Some "yes"))) = Ok p /\
             p Sample.john = false) /\
  (exists p, User.compile_filter Sample.libs (buildQuery (only_active None)) = Ok p /\
             p Sample.john = true).
Proof. repeat split; eexists; split; reflexivity. Qed.

Lemma compile_or_search L s p :
  User.compile_or L [ ("name", Regex_cond s "i"); ("email", Regex_cond s "i") ] = Ok p ->
  exists m, regex_engine L s "i" = Some m /\
            p = (fun u => m (name u) || (m (email u) || false)).
Proof.
  cbn [User.compile_or User.compile_condition].
  destruct (regex_engine L s "i") as [m|]; [|discriminate].
  cbn [bind]. intros [= <-]. exists m. split; reflexivity.
Qed.

Lemma compile_filter_shape L q p :
  User.compile_filter L (buildQuery q) = Ok p ->
  exists p_or : User -> bool,
    (forall a u, p_or (with_active a u) = p_or u) /\
    p = (fun u =>
           p_or u
           && match f_role (buildQuery q) with
              | Some r => String.eqb (role u) r
              | None => true
              end
           && match f_isActive (buildQuery q) with
              | Some a => Bool.eqb (isActive u) a
              | None => true
              end).
Proof.
  unfold User.compile_filter.
  destruct (f_or (buildQuery q)) as [clauses|] eqn:Hor.
  - unfold buildQuery in Hor. cbn [f_or] in Hor.
    destruct (q_search q) as [s|]; [|discriminate].
    destruct (String.eqb s ""); [discriminate|].
    injection Hor as <-.
    destruct (User.compile_or L _) as [p_or|] eqn:Hcompile; [|discriminate].
    apply compile_or_search in Hcompile. destruct Hcompile as [m [_ ->]].
    cbn [bind]. intros [= <-].
    exists (fun u => m (name u) || (m (email u) || false)).
    split; reflexivity.
  - cbn [bind]. intros [= <-]. exists (fun _ => true). split; reflexivity.
Qed.

(** C7, as the code has it.  Whenever the [active] parameter is present,
    with whatever value, the filter has the clause [isActive = (value is
    "true")]: the records it selects are the active ones for ["true"] and
    the inactive ones for any other value.  Only when the parameter is
    absent is there no clause, and then the filter does not look at the
    active flag. *)
Theorem active_clause :
  forall (L : Libs) (q : QueryParams) (p : User -> bool),
    User.compile_filter L (buildQuery q) = Ok p ->
    match q_active q with
    | Some v =>
        f_isActive (buildQuery q) = Some (String.eqb v "true") /\
        (forall u, p u = true -> isActive u = String.eqb v "true")
    | None =>
        f_isActive (buildQuery q) = None /\
        (forall a u, p (with_active a u) = p u)
    end.
Proof.
  intros L q p Hcompile.
  apply compile_filter_shape in Hcompile.
  destruct Hcompile as [p_or [Hframe ->]].
  assert (Hclause :
            f_isActive (buildQuery q) =
              match q_active q with
              | Some v => Some (String.eqb v "true")
              | None => None
              end) by reflexivity.
  destruct (q_active q) as [v|]; split; try exact Hclause.
  - intros u Hu. cbv beta in Hu. rewrite Hclause in Hu.
    apply andb_true_iff in Hu. destruct Hu as [_ Hu].
    apply Bool.eqb_prop in Hu. exact Hu.
  - intros a u. cbv beta. rewrite Hclause, Hframe. reflexivity.
Qed.

Lemma active_clause_witness :
  f_isActive (buildQuery (only_active (Some "false"))) = Some (String.eqb "false" "true") /\
  (forall u, inactive_only u = true -> isActive u = String.eqb "false" "true").
Proof.
  apply (active_clause Sample.libs (only_active (Some "false")) inactive_only).
  reflexivity.
Defined.

(** ** The search clause *)

Lemma prefix_cons (c : ascii) (p : string) (d : ascii) (s : string) :
  String.prefix (String c p) (String d s) = Ascii.eqb c d && String.prefix p s.
Proof.
  cbn [String.prefix].
  destruct (ascii_dec c d) as [->|Hne].
  - rewrite Ascii.eqb_refl. reflexivity.
  - apply Ascii.eqb_neq in Hne. rewrite Hne. reflexivity.
Qed.

Lemma prefix_spec (p s : string) :
  String.prefix p s = true <-> exists after, s = p ++ after.
Proof.
  revert s. induction p as [|c p IH]; intros s.
  - split; [intros _; exists s; reflexivity|].
    intros _. destruct s; reflexivity.
  - destruct s as [|d s].
    + split; [discriminate|]. intros [after H]. discriminate H.
    + rewrite prefix_cons, andb_true_iff, Ascii.eqb_eq, IH. split.
      * intros [-> [after ->]]. exists after. reflexivity.
      * intros [after H]. injection H as -> ->. split; [reflexivity|].
        exists after. reflexivity.
Qed.

Lemma occurs_spec (p s : string) :
  occurs p s = true <-> exists before after, s = before ++ p ++ after.
Proof.
  induction s as [|d s IH].
  - cbn [occurs]. rewrite orb_false_r, prefix_spec. split.
    + intros [after H]. exists "", after. exact H.
    + intros [before [after H]]. destruct before as [|b before]; [|discriminate H].
      exists after. exact H.
  - cbn [occurs]. rewrite orb_true_iff, prefix_spec, IH. split.
    + intros [[after H]|[before [after H]]].
      * exists "", after. exact H.
      * exists (String d before), after. cbn [append]. f_equal. exact H.
    + intros [before [after H]]. destruct before as [|b before].
      * left. exists after. exact H.
      * right. injection H as _ H. exists before, after. exact H.
Qed.

Lemma contains_ci_occurs (term s : string) :
  contains_ci term s <-> occurs (JS.toLowerCase term) (JS.toLowerCase s) = true.
Proof. unfold contains_ci. rewrite occurs_spec. reflexivity. Qed.

Import Regex.

Lemma match_prefix_dead (r : regex) (s : string) : match_prefix (Cat Empty r) s = false.
Proof. induction s as [|c s IH]; [reflexivity|exact IH]. Qed.

Lemma match_prefix_alt (a b : regex) (s : string) :
  match_prefix (Alt a b) s = match_prefix a s || match_prefix b s.
Proof.
  revert a b. induction s as [|c s IH]; intros a b; cbn [match_prefix nullable deriv].
  - now rewrite !orb_false_r.
  - rewrite IH.
    destruct (nullable a), (nullable b), (match_prefix (deriv c a) s); reflexivity.
Qed.

Lemma match_prefix_skip (r : regex) (s : string) :
  match_prefix (Cat Eps r) s = match_prefix r s.
Proof.
  destruct s as [|c s]; [reflexivity|].
  cbn [match_prefix nullable deriv andb].
  rewrite match_prefix_alt, match_prefix_dead. reflexivity.
Qed.

Lemma match_prefix_chr (f : ascii -> bool) (r : regex) (c : ascii) (s : string) :
  match_prefix (Cat (Chr f) r) (String c s) = f c && match_prefix r s.
Proof.
  cbn [match_prefix nullable deriv andb orb].
  destruct (f c); [apply match_prefix_skip|apply match_prefix_dead].
Qed.

Lemma match_prefix_chr_nil (f : ascii -> bool) (r : regex) :
  match_prefix (Cat (Chr f) r) "" = false.
Proof. reflexivity. Qed.

(** A term without metacharacters compiles to the sequence of its
    letters. *)
Lemma compile_plain (term : string) :
  plain term = true ->
  exists r, compile true term = Some r /\
            forall s, match_prefix r s =
                      String.prefix (JS.toLowerCase term) (JS.toLowerCase s).
Proof.
  induction term as [|c term IH]; intros Hplain.
  - exists Eps. split; [reflexivity|]. intros s. destruct s; reflexivity.
  - cbn [plain] in Hplain. apply andb_true_iff in Hplain.
    destruct Hplain as [Hc Hplain]. apply negb_true_iff in Hc.
    destruct (IH Hplain) as [r [Hr Hmatch]].
    exists (Cat (lit_i c) r). split.
    + cbn [compile]. unfold atom. rewrite Hc, Hr.
      destruct (Ascii.eqb_spec c ".") as [->|_]; [discriminate Hc|reflexivity].
    + intros s. destruct s as [|d s]; [reflexivity|].
      unfold lit_i. rewrite match_prefix_chr, Hmatch.
      cbn [JS.toLowerCase]. rewrite prefix_cons. unfold same_letter.
      rewrite (Ascii.eqb_sym (JS.to_lower d)). reflexivity.
Qed.

Lemma search_occurs (r : regex) (p : string) :
  (forall s, match_prefix r s = String.prefix p (JS.toLowerCase s)) ->
  forall s, search r s = occurs p (JS.toLowerCase s).
Proof.
  intros Hmatch s. induction s as [|d s IH].
  - cbn [search occurs JS.toLowerCase]. rewrite Hmatch. reflexivity.
  - cbn [search occurs JS.toLowerCase]. rewrite Hmatch, IH. reflexivity.
Qed.

Lemma fragment_engine_plain (term : string) :
  plain term = true ->
  exists m, fragment_engine term "i" = Some m /\
            forall s, m s = occurs (JS.toLowerCase term) (JS.toLowerCase s).
Proof.
  intros Hplain. destruct (compile_plain term Hplain) as [r [Hr Hmatch]].
  exists (search r). split.
  - unfold fragment_engine. change (has_option "i" "i") with true. rewrite Hr.
    reflexivity.
  - apply search_occurs. exact Hmatch.
Qed.

(** C8, as the code has it.  The search term is handed to the store as a
    pattern, with the option [i], for the name and for the address.  For a
    non-empty term in which no character is a metacharacter of the pattern
    language, on which the engine of the store agrees with the modelled
    fragment, the store accepts the filter, and among the records with an
    ASCII name and address the filter selects exactly those whose name or
    whose address holds the term as a substring, letter case apart. *)
Theorem search_clause_plain_terms :
  forall (L : Libs) (term : string),
    agrees_with_fragment L term ->
    term <> "" ->
    plain term = true ->
    exists p,
      User.compile_filter L (buildQuery (only_search term)) = Ok p /\
      forall u,
        JS.is_ascii (name u) = true ->
        JS.is_ascii (email u) = true ->
        (p u = true <-> contains_ci term (name u) \/ contains_ci term (email u)).
Proof.
  intros L term Hagrees Hne Hplain.
  destruct (fragment_engine_plain term Hplain) as [m [Hm Hoccurs]].
  destruct (Hagrees m Hm) as [m' [Hm' Hagree]].
  exists (fun u => (m' (name u) || (m' (email u) || false)) && true && true).
  split.
  - unfold User.compile_filter, buildQuery, only_search.
    cbn [f_or f_role f_isActive q_search q_role q_active JS.truthy].
    apply String.eqb_neq in Hne. rewrite Hne.
    cbn [User.compile_or User.compile_condition]. rewrite Hm'. reflexivity.
  - intros u Hname Hemail. rewrite !andb_true_r, orb_false_r, orb_true_iff.
    rewrite (Hagree _ Hname), (Hagree _ Hemail), !Hoccurs, !contains_ci_occurs.
    reflexivity.
Qed.

Lemma sample_agrees_with_fragment (pattern : string) :
  agrees_with_fragment Sample.libs pattern.
Proof.
  intros m Hm. exists m. split; [exact Hm|]. intros s _. reflexivity.
Defined.

Lemma search_clause_plain_terms_witness :
  exists p,
    User.compile_filter Sample.libs (buildQuery (only_search "jo")) = Ok p /\
    forall u,
      JS.is_ascii (name u) = true ->
      JS.is_ascii (email u) = true ->
      (p u = true <-> contains_ci "jo" (name u) \/ contains_ci "jo" (email u)).
Proof.
  apply (search_clause_plain_terms Sample.libs "jo").
  - exact (sample_agrees_with_fragment "jo").
  - discriminate.
  - reflexivity.
Defined.

(** C8, as the specification has it, fails on a term with a
    metacharacter: the term [j.hn] selects John, although neither his name
    nor his address holds the four characters [j.hn]. *)
Lemma search_term_is_a_pattern :
  "j.hn" <> "" /\
  (exists p,
     User.compile_filter Sample.libs (buildQuery (only_search "j.hn")) = Ok p /\
     p Sample.john = true) /\
  ~ (contains_ci "j.hn" (name Sample.john) \/ contains_ci "j.hn" (email Sample.john)).
Proof.
  split; [discriminate|]. split.
  - eexists. split; reflexivity.
  - rewrite !contains_ci_occurs. intros [H|H]; discriminate H.
Qed.

(** ** Updates with no field *)

Lemma find_replace_doc (id : string) (u u' : User) (store : Store) :
  List.find (User.has_id id) store = Some u ->
  User.has_id id u' = true ->
  List.find (User.has_id id) (User.replace_doc id u' store) = Some u'.
Proof.
  intros Hfind Hid. induction store as [|v store IH]; [discriminate|].
  cbn [List.find User.replace_doc] in *.
  destruct (User.has_id id v) eqn:Hv.
  - cbn [List.find]. rewrite Hid. reflexivity.
  - cbn [List.find]. rewrite Hv. apply IH. exact Hfind.
Qed.

Lemma replace_doc_frame (id : string) (u' : User) (store : Store) (v : User) :
  User.has_id id v = false ->
  In v store -> In v (User.replace_doc id u' store).
Proof.
  intros Hv. induction store as [|w store IH]; [intros []|].
  cbn [User.replace_doc]. destruct (User.has_id id w) eqn:Hw.
  - intros [->|Hin]; [congruence|right; exact Hin].
  - intros [->|Hin]; [now left|right; apply IH; exact Hin].
Qed.

(** C9.  An update with an empty field set on the identifier of a stored
    record answers 200 and stores, in place of the record, a record with
    the same identifier, name, address, password hash, role, active flag
    and creation time, whose update time is the current time.  The other
    records stay in the collection.  The request is one the guard lets
    through. *)
Theorem empty_update_keeps_fields :
  forall (L : Libs) (E : Env) (req : Request) (store : Store) (u : User),
    admitted L E req store ->
    req_body req = no_fields ->
    User.findById store (req_id req) = Ok (Some u) ->
    exists u' : User,
      route L E UpdateUser req store =
        (respond 200 (select_minus "password" (toJSON u')),
         User.replace_doc (req_id req) u' store) /\
      User.findById (User.replace_doc (req_id req) u' store) (req_id req) = Ok (Some u') /\
      _id u' = _id u /\
      name u' = name u /\
      email u' = email u /\
      password u' = password u /\
      role u' = role u /\
      isActive u' = isActive u /\
      createdAt u' = createdAt u /\
      updatedAt u' = now E /\
      (forall v, User.has_id (req_id req) v = false -> In v store ->
                 In v (User.replace_doc (req_id req) u' store)).
Proof.
  intros L E req store u Hadmitted Hbody Hfound.
  exists (User.apply_update no_fields (now E) u).
  split; [|split].
  - cbn [route]. rewrite (guarded_admitted L E _ req store Hadmitted).
    unfold update_user, rehash. rewrite Hbody.
    cbn [b_password no_fields JS.truthy bind].
    unfold User.findByIdAndUpdate.
    change (userSchema.validate_update no_fields) with (@Ok unit tt).
    cbn [bind]. rewrite Hfound. cbn [bind].
    change (email (User.apply_update no_fields (now E) u)) with (email u).
    rewrite String.eqb_refl. reflexivity.
  - unfold User.findById in *.
    destruct (User.is_object_id (req_id req)); [|discriminate].
    injection Hfound as Hfound. f_equal.
    apply find_replace_doc with u; [exact Hfound|].
    apply find_some in Hfound. exact (proj2 Hfound).
  - repeat split. intros v. apply replace_doc_frame.
Qed.

Lemma empty_update_keeps_fields_witness :
  exists u' : User,
    route Sample.libs Sample.env UpdateUser touch_john Sample.store =
      (respond 200 (select_minus "password" (toJSON u')),
       User.replace_doc (req_id touch_john) u' Sample.store) /\
    User.findById (User.replace_doc (req_id touch_john) u' Sample.store) (req_id touch_john)
      = Ok (Some u') /\
    _id u' = _id Sample.john /\
    name u' = name Sample.john /\
    email u' = email Sample.john /\
    password u' = password Sample.john /\
    role u' = role Sample.john /\
    isActive u' = isActive Sample.john /\
    createdAt u' = createdAt Sample.john /\
    updatedAt u' = now Sample.env /\
    (forall v, User.has_id (req_id touch_john) v = false -> In v Sample.store ->
               In v (User.replace_doc (req_id touch_john) u' Sample.store)).
Proof.
  apply (empty_update_keeps_fields Sample.libs Sample.env touch_john Sample.store Sample.john).
  - eexists. split; reflexivity.
  - reflexivity.
  - reflexivity.
Defined.

(** ** Registration with a role *)

Lemma findOne_none_email_free (store : Store) (e : string) (self : string) :
  User.findOne store (Some e) = None ->
  User.email_taken store self (JS.toLowerCase e) = false.
Proof.
  cbn [User.findOne]. intros Hnone. unfold User.email_taken.
  induction store as [|u store IH]; [reflexivity|].
  cbn [List.find existsb] in *.
  destruct (String.eqb (email u) (JS.toLowerCase e)); [discriminate|].
  cbn [andb orb]. apply IH. exact Hnone.
Qed.

Lemma fresh_id_unused (store : Store) (id : string) :
  (forall u, In u store -> _id u <> id) ->
  existsb (fun u => String.eqb (_id u) id) store = false.
Proof.
  intros Hfresh. induction store as [|u store IH]; [reflexivity|].
  cbn [existsb]. rewrite IH by (intros v Hv; apply Hfresh; now right).
  rewrite orb_false_r. apply String.eqb_neq. apply Hfresh. now left.
Qed.

(** C10.  A registration that asks for the role [admin], with a name, an
    address and a password the schema accepts, an address no stored user
    has and an unused identifier, answers 201 and appends to the
    collection a record whose role is [admin]: the name trimmed, the
    address in lower case, the password hashed with 12 rounds, active.
    The response holds the token of that record and, as its [user], the
    identifier, the name, the address and the role [admin]. *)
Theorem registration_honours_admin_role :
  forall (L : Libs) (E : Env) (req : Request) (store : Store) (n e pw : string),
    b_name (req_body req) = Some n ->
    b_email (req_body req) = Some e ->
    b_password (req_body req) = Some pw ->
    b_role (req_body req) = Some "admin" ->
    userSchema.name_error (Some n) = None ->
    userSchema.email_error (Some e) = None ->
    userSchema.password_error (Some pw) = None ->
    User.findOne store (Some e) = None ->
    (forall u, In u store -> _id u <> fresh_id E) ->
    post_user L E req store =
      (respond 201
         (JObj [ ("token",
                  JStr (jwt_serialize L
                          (jwt.sign L (now E) [("id", JStr (fresh_id E))]
                             (JWT_SECRET E) 3600)));
                 ("user",
                  JObj [ ("id", JStr (fresh_id E));
                         ("name", JStr (JS.trim n));
                         ("email", JStr (JS.toLowerCase e));
                         ("role", JStr "admin") ]) ]),
       (store ++ [ {| _id := fresh_id E;
                      name := JS.trim n;
                      email := JS.toLowerCase e;
                      password := bcrypt_hash L pw 12 (salt E);
                      role := "admin";
                      isActive := true;
                      createdAt := now E;
                      updatedAt := now E |} ])%list).
Proof.
  intros L E req store n e pw Hn He Hp Hrole Hname Hemail Hpassword Hfree Hfresh.
  unfold post_user. rewrite Hn, He, Hp, Hfree, Hrole.
  cbn [JS.or_else String.eqb Ascii.eqb Bool.eqb].
  unfold User.save, userSchema.validate.
  rewrite Hname, Hemail, Hpassword. cbn [bind userSchema.at_path app].
  change (userSchema.fail_with (userSchema.at_path "role" (userSchema.role_error "admin")))
    with (@Ok unit tt).
  cbv beta iota.
  unfold userSchema.pre_save. cbn [negb _id email option_map User.or_current].
  rewrite (fresh_id_unused store (fresh_id E) Hfresh).
  rewrite (findOne_none_email_free store e (fresh_id E) Hfree).
  reflexivity.
Qed.

Lemma registration_honours_admin_role_witness :
  post_user Sample.libs Sample.env register_eve Sample.store =
    (respond 201
       (JObj [ ("token",
                JStr (jwt_serialize Sample.libs
                        (jwt.sign Sample.libs (now Sample.env)
                           [("id", JStr (fresh_id Sample.env))]
                           (JWT_SECRET Sample.env) 3600)));
               ("user",
                JObj [ ("id", JStr (fresh_id Sample.env));
                       ("name", JStr (JS.trim "Eve"));
                       ("email", JStr (JS.toLowerCase "Eve@Example.com"));
                       ("role", JStr "admin") ]) ]),
     (Sample.store ++ [ {| _id := fresh_id Sample.env;
                           name := JS.trim "Eve";
                           email := JS.toLowerCase "Eve@Example.com";
                           password := bcrypt_hash Sample.libs "secret1" 12 (salt Sample.env);
                           role := "admin";
                           isActive := true;
                           createdAt := now Sample.env;
                           updatedAt := now Sample.env |} ])%list).
Proof.
  apply (registration_honours_admin_role Sample.libs Sample.env register_eve Sample.store
           "Eve" "Eve@Example.com" "secret1").
  - reflexivity.
  - reflexivity.
  - reflexivity.
  - reflexivity.
  - reflexivity.
  - reflexivity.
  - reflexivity.
  - reflexivity.
  - intros u [<-|[<-|[<-|[<-|[]]]]]; discriminate.
Defined.

(** * Further properties of the routes *)

(** ** Who may change the collection *)

Lemma auth_cases L E req store :
  (exists text, auth L E req store = inl (respond 401 (msg text))) \/
  (exists u, In u store /\ auth L E req store = inr (select_minus "password" (toJSON u))).
Proof.
  unfold auth.
  destruct (bearer req) as [t|]; [|left; eexists; reflexivity].
  destruct (String.eqb t ""); [left; eexists; reflexivity|].
  destruct (jwt.verify L (now E) t (JWT_SECRET E)) as [decoded|e]; cbn [bind];
    [|left; eexists; reflexivity].
  destruct (find_subject store decoded) as [[u|]|e] eqn:Hfind;
    try (left; eexists; reflexivity).
  right. exists u. split; [|reflexivity].
  unfold find_subject in Hfind.
  destruct (lookup "id" decoded) as [[| | |id| |]|]; try discriminate.
  unfold User.findById in Hfind. destruct (User.is_object_id id); [|discriminate].
  injection Hfind as Hfind. apply find_some in Hfind. tauto.
Qed.

(** X1.  On the four guarded routes a request either passes the guard or
    is answered 401 or 403 with a message; in the second case the
    collection is left as it was, whatever the handler would have done. *)
Theorem guarded_routes_need_admin :
  forall (L : Libs) (E : Env) (op : operation) (req : Request) (store : Store),
    is_guarded op = true ->
    admitted L E req store \/
    (exists text,
       route L E op req store = (respond 401 (msg text), store) \/
       route L E op req store = (respond 403 (msg text), store)).
Proof.
  intros L E op req store Hop.
  assert (Hguard : forall handler,
             admitted L E req store \/
             (exists text,
                guarded L E handler req store = (respond 401 (msg text), store) \/
                guarded L E handler req store = (respond 403 (msg text), store))).
  { intros handler. unfold admitted, guarded.
    destruct (auth_cases L E req store) as [[text ->]|[u [_ ->]]].
    - right. exists text. left. reflexivity.
    - destruct (adminAuth _) as [denied|] eqn:Hadmin.
      + apply adminAuth_denied in Hadmin. subst denied.
        right. eexists. right. reflexivity.
      + left. eexists. split; [reflexivity|exact Hadmin]. }
  destruct op; try discriminate Hop; cbn [route]; apply Hguard.
Qed.

Lemma guarded_routes_need_admin_witness :
  admitted Sample.libs Sample.env reset_john Sample.store \/
  (exists text,
     route Sample.libs Sample.env DeleteUser reset_john Sample.store
       = (respond 401 (msg text), Sample.store) \/
     route Sample.libs Sample.env DeleteUser reset_john Sample.store
       = (respond 403 (msg text), Sample.store)).
Proof.
  apply (guarded_routes_need_admin Sample.libs Sample.env DeleteUser reset_john Sample.store).
  reflexivity.
Defined.

Lemma guarded_keeps_store L E handler req store :
  (forall req' store', snd (handler req' store') = store') ->
  snd (guarded L E handler req store) = store.
Proof.
  intros Hhandler. unfold guarded.
  destruct (auth L E req store); [reflexivity|].
  destruct (adminAuth _); [reflexivity|apply Hhandler].
Qed.

Lemma login_keeps_store L E req store : snd (login L E req store) = store.
Proof.
  unfold login. destruct (User.findOne store _) as [u|]; [|reflexivity].
  destruct (userSchema.comparePassword L u _) as [[|]|e]; reflexivity.
Qed.

Lemma list_users_keeps_store L req store : snd (list_users L req store) = store.
Proof.
  unfold list_users. destruct (bind _ _) as [[users total]|e]; reflexivity.
Qed.

Lemma get_user_keeps_store req store : snd (get_user req store) = store.
Proof.
  unfold get_user. destruct (User.findById store _) as [[u|]|e]; reflexivity.
Qed.

(** X2.  Logging in, listing and reading a user never change the
    collection, whatever the request and whatever the answer. *)
Theorem reading_routes_keep_the_collection :
  forall (L : Libs) (E : Env) (op : operation) (req : Request) (store : Store),
    reads_only op = true ->
    snd (route L E op req store) = store.
Proof.
  intros L E op req store Hop.
  destruct op; try discriminate Hop; cbn [route].
  - apply login_keeps_store.
  - apply guarded_keeps_store. intros; apply list_users_keeps_store.
  - apply guarded_keeps_store. intros; apply get_user_keeps_store.
Qed.

Lemma reading_routes_keep_the_collection_witness :
  snd (route Sample.libs Sample.env ListUsers second_page Sample.store) = Sample.store.
Proof.
  apply (reading_routes_keep_the_collection Sample.libs Sample.env ListUsers second_page
           Sample.store).
  reflexivity.
Defined.

(** ** The indexes and the enumeration *)

Lemma NoDup_snoc {A : Type} (l : list A) (x : A) :
  NoDup l -> ~ In x l -> NoDup (l ++ [x]).
Proof.
  intros Hl Hx. apply (NoDup_Add (a := x) (l := l)).
  - rewrite <- (app_nil_r l) at 1. apply Add_app.
  - split; assumption.
Qed.

(** The first document a predicate selects splits the collection. *)
Lemma find_split (f : User -> bool) (store : Store) (u : User) :
  List.find f store = Some u ->
  exists pre post,
    store = (pre ++ u :: post)%list /\ f u = true /\
    forall v, In v pre -> f v = false.
Proof.
  induction store as [|w store IH]; [discriminate|].
  cbn [List.find]. destruct (f w) eqn:Hw.
  - intros [= ->]. exists [], store. repeat split; [exact Hw|intros v []].
  - intros Hfind. destruct (IH Hfind) as [pre [post [-> [Hu Hpre]]]].
    exists (w :: pre), post. repeat split; [exact Hu|].
    intros v [<-|Hin]; [exact Hw|apply Hpre; exact Hin].
Qed.

Lemma replace_doc_split id u' pre u post :
  (forall v, In v pre -> User.has_id id v = false) ->
  User.has_id id u = true ->
  User.replace_doc id u' (pre ++ u :: post)%list = (pre ++ u' :: post)%list.
Proof.
  intros Hpre Hu. induction pre as [|w pre IH]; cbn [app User.replace_doc].
  - rewrite Hu. reflexivity.
  - rewrite (Hpre w (or_introl eq_refl)). f_equal.
    apply IH. intros v Hv. apply Hpre. right. exact Hv.
Qed.

Lemma remove_doc_split id pre u post :
  (forall v, In v pre -> User.has_id id v = false) ->
  User.has_id id u = true ->
  User.remove_doc id (pre ++ u :: post)%list = (pre ++ post)%list.
Proof.
  intros Hpre Hu. induction pre as [|w pre IH]; cbn [app User.remove_doc].
  - rewrite Hu. reflexivity.
  - rewrite (Hpre w (or_introl eq_refl)). f_equal.
    apply IH. intros v Hv. apply Hpre. right. exact Hv.
Qed.

Lemma email_free_elsewhere (store : Store) (self e : string) :
  User.email_taken store self e = false ->
  forall v, In v store -> email v = e -> _id v = self.
Proof.
  unfold User.email_taken. intros Hfree v Hin He.
  destruct (String.eqb_spec (_id v) self) as [Heq|Hne]; [exact Heq|].
  exfalso.
  assert (H : existsb (fun u => String.eqb (email u) e && negb (String.eqb (_id u) self))
                store = true).
  { apply existsb_exists. exists v. split; [exact Hin|].
    apply String.eqb_eq in He. rewrite He.
    apply String.eqb_neq in Hne. rewrite Hne. reflexivity. }
  congruence.
Qed.

Lemma id_unused (store : Store) (id : string) :
  existsb (fun u => String.eqb (_id u) id) store = false ->
  ~ In id (map _id store).
Proof.
  intros Hnone Hin. apply in_map_iff in Hin. destruct Hin as [u [Hid Hin]].
  assert (H : existsb (fun u => String.eqb (_id u) id) store = true).
  { apply existsb_exists. exists u. split; [exact Hin|]. apply String.eqb_eq. exact Hid. }
  congruence.
Qed.

Lemma validate_role_enum n e p r :
  userSchema.validate n e p r = Ok tt -> r = "user" \/ r = "admin".
Proof.
  unfold userSchema.validate, userSchema.role_error.
  destruct (String.eqb_spec r "user") as [->|_]; [now left|].
  destruct (String.eqb_spec r "admin") as [->|_]; [now right|].
  cbn [orb]. intros H.
  unfold userSchema.fail_with in H.
  destruct (userSchema.at_path "name" _ ++ _)%list eqn:Hl; [|discriminate H].
  apply app_eq_nil in Hl. destruct Hl as [_ Hl].
  apply app_eq_nil in Hl. destruct Hl as [_ Hl].
  apply app_eq_nil in Hl. destruct Hl as [_ Hl].
  discriminate Hl.
Qed.

Lemma validate_update_role_enum b r :
  userSchema.validate_update b = Ok tt -> b_role b = Some r ->
  r = "user" \/ r = "admin".
Proof.
  unfold userSchema.validate_update. intros H Hr. rewrite Hr in H.
  cbn [userSchema.on_supplied] in H. unfold userSchema.role_error in H.
  destruct (String.eqb r "user") eqn:Huser; [left; apply String.eqb_eq; exact Huser|].
  destruct (String.eqb r "admin") eqn:Hadmin; [right; apply String.eqb_eq; exact Hadmin|].
  cbn [orb] in H.
  unfold userSchema.fail_with in H.
  destruct (userSchema.at_path "name" _ ++ _)%list eqn:Hl; [|discriminate H].
  apply app_eq_nil in Hl. destruct Hl as [_ Hl].
  apply app_eq_nil in Hl. destruct Hl as [_ Hl].
  apply app_eq_nil in Hl. destruct Hl as [_ Hl].
  discriminate Hl.
Qed.

Lemma save_indexed L E n e p r store u store' :
  indexed store ->
  User.save L E n e p r store = Ok (u, store') ->
  indexed store'.
Proof.
  intros [Hids Hemails]. unfold User.save.
  destruct (userSchema.validate n e p r) as [[]|] eqn:Hvalid; [|discriminate].
  cbn [bind].
  set (doc := userSchema.pre_save L E true _).
  destruct (existsb _ store) eqn:Hid; [discriminate|].
  destruct (User.email_taken store (_id doc) (email doc)) eqn:Hemail; [discriminate|].
  intros [= <- <-].
  apply id_unused in Hid.
  split.
  - unfold unique_ids. rewrite map_app. apply NoDup_snoc; assumption.
  - unfold unique_emails. rewrite map_app. apply NoDup_snoc; [assumption|].
    intros Hin. apply in_map_iff in Hin. destruct Hin as [v [Hv Hin]].
    apply Hid. apply in_map_iff. exists v. split; [|exact Hin].
    apply (email_free_elsewhere store (_id doc) (email doc) Hemail v Hin Hv).
Qed.

Lemma update_indexed store id updates stamp found store' :
  indexed store ->
  User.findByIdAndUpdate store id updates stamp = Ok (found, store') ->
  indexed store'.
Proof.
  intros Hstore. unfold User.findByIdAndUpdate.
  destruct (userSchema.validate_update updates) as [[]|] eqn:Hvalid; [|discriminate].
  cbn [bind]. unfold User.findById.
  destruct (User.is_object_id id); [|discriminate]. cbn [bind].
  destruct (List.find (User.has_id id) store) as [u|] eqn:Hfind.
  2:{ intros [= _ <-]. exact Hstore. }
  set (u' := User.apply_update updates stamp u).
  destruct (negb (String.eqb (email u') (email u)) && User.email_taken store (_id u) (email u'))
    eqn:Hemail; [discriminate|].
  intros [= _ <-].
  destruct (find_split _ _ _ Hfind) as [pre [post [-> [Hu Hpre]]]].
  rewrite (replace_doc_split id u' pre u post Hpre Hu).
  destruct Hstore as [Hids Hemails].
  unfold indexed, unique_ids, unique_emails in *.
  rewrite !map_app in *. cbn [map] in *.
  split.
  - exact Hids.
  - destruct (String.eqb_spec (email u') (email u)) as [->|Hne]; [exact Hemails|].
    cbn [negb andb] in Hemail.
    apply (NoDup_Add (a := email u') (l := (map email pre ++ map email post)%list)).
    { apply Add_app. }
    split; [eapply NoDup_remove_1; exact Hemails|].
    intros Hin. rewrite <- map_app in Hin. apply in_map_iff in Hin.
    destruct Hin as [v [Hv Hin]].
    assert (Hstore : In v (pre ++ u :: post)%list).
    { apply in_app_or in Hin. apply in_or_app.
      destruct Hin; [now left|right; now right]. }
    pose proof (email_free_elsewhere _ _ _ Hemail v Hstore Hv) as Hsame.
    apply (NoDup_remove_2 _ _ _ Hids). rewrite <- map_app.
    apply in_map_iff. exists v. split; assumption.
Qed.

Lemma delete_indexed store id found store' :
  indexed store ->
  User.findByIdAndDelete store id = Ok (found, store') ->
  indexed store'.
Proof.
  intros Hstore. unfold User.findByIdAndDelete, User.findById.
  destruct (User.is_object_id id); [|discriminate]. cbn [bind].
  destruct (List.find (User.has_id id) store) as [u|] eqn:Hfind.
  2:{ intros [= _ <-]. exact Hstore. }
  intros [= _ <-].
  destruct (find_split _ _ _ Hfind) as [pre [post [-> [Hu Hpre]]]].
  rewrite (remove_doc_split id pre u post Hpre Hu).
  destruct Hstore as [Hids Hemails].
  unfold indexed, unique_ids, unique_emails in *.
  rewrite !map_app in *. cbn [map] in *.
  split.
  - eapply NoDup_remove_1; exact Hids.
  - eapply NoDup_remove_1; exact Hemails.
Qed.

(** X3.  Every route keeps what the unique indexes maintain: if the
    identifiers and the addresses of the stored users are pairwise
    distinct, they are so after any request, whether it succeeds or not.
    Requests are those of the model: a body carries the fields of the
    schema as strings and a boolean. *)
Theorem routes_keep_identifiers_and_addresses_unique :
  forall (L : Libs) (E : Env) (op : operation) (req : Request) (store : Store),
    unique_ids store ->
    unique_emails store ->
    unique_ids (snd (route L E op req store)) /\
    unique_emails (snd (route L E op req store)).
Proof.
  intros L E op req store Hids Hemails.
  assert (Hstore : indexed store) by (split; assumption).
  change (indexed (snd (route L E op req store))).
  assert (Hguard : forall handler,
             (forall req' , indexed (snd (handler req' store))) ->
             indexed (snd (guarded L E handler req store))).
  { intros handler Hhandler. unfold guarded.
    destruct (auth L E req store); [exact Hstore|].
    destruct (adminAuth _); [exact Hstore|apply Hhandler]. }
  destruct op; cbn [route].
  - unfold post_user. destruct (User.findOne store _); [exact Hstore|].
    destruct (User.save _ _ _ _ _ _ _) as [[u store']|e] eqn:Hsave; [|exact Hstore].
    eapply save_indexed; eassumption.
  - rewrite login_keeps_store. exact Hstore.
  - rewrite guarded_keeps_store; [exact Hstore|]. intros; apply list_users_keeps_store.
  - rewrite guarded_keeps_store; [exact Hstore|]. intros; apply get_user_keeps_store.
  - apply Hguard. intros req'. unfold update_user.
    destruct (rehash L E _) as [updates|e]; [|exact Hstore]. cbn [bind].
    destruct (User.findByIdAndUpdate _ _ _ _) as [[[u|] store']|e] eqn:Hupdate;
      try exact Hstore.
    eapply update_indexed; eassumption.
  - apply Hguard. intros req'. unfold delete_user.
    destruct (User.findByIdAndDelete _ _) as [[[u|] store']|e] eqn:Hdelete;
      try exact Hstore.
    eapply delete_indexed; eassumption.
Qed.

Lemma sample_store_consistent : consistent Sample.store.
Proof.
  repeat split.
  - unfold unique_ids. cbn. repeat constructor; cbn; intuition discriminate.
  - unfold unique_emails. cbn. repeat constructor; cbn; intuition discriminate.
  - intros u [<-|[<-|[<-|[<-|[]]]]]; cbn; auto.
Defined.

Lemma routes_keep_identifiers_and_addresses_unique_witness :
  unique_ids (snd (route Sample.libs Sample.env Register register_eve Sample.store)) /\
  unique_emails (snd (route Sample.libs Sample.env Register register_eve Sample.store)).
Proof.
  apply (routes_keep_identifiers_and_addresses_unique Sample.libs Sample.env Register
           register_eve Sample.store).
  - exact (proj1 sample_store_consistent).
  - exact (proj1 (proj2 sample_store_consistent)).
Defined.

(** ** Deleting *)

Lemma find_nowhere (f : User -> bool) (l : list User) :
  (forall v, In v l -> f v = false) -> List.find f l = None.
Proof.
  induction l as [|w l IH]; [reflexivity|]. intros Hl. cbn [List.find].
  rewrite (Hl w (or_introl eq_refl)). apply IH. intros v Hv. apply Hl. now right.
Qed.

(** What a deletion leaves, for a identifier that is stored. *)
Lemma delete_stored (store : Store) (id : string) (u : User) :
  unique_ids store ->
  User.findById store id = Ok (Some u) ->
  exists store',
    User.findByIdAndDelete store id = Ok (Some u, store') /\
    User.findById store' id = Ok None /\
    (forall v, In v store' <-> In v store /\ _id v <> _id u).
Proof.
  intros Hids Hfound. unfold User.findByIdAndDelete. rewrite Hfound. cbn [bind].
  eexists. split; [reflexivity|].
  unfold User.findById in *. destruct (User.is_object_id id); [|discriminate].
  injection Hfound as Hfind.
  destruct (find_split _ _ _ Hfind) as [pre [post [-> [Hu Hpre]]]].
  rewrite (remove_doc_split id pre u post Hpre Hu).
  unfold unique_ids in Hids. rewrite map_app in Hids. cbn [map] in Hids.
  pose proof (NoDup_remove_2 _ _ _ Hids) as Hfresh. rewrite <- map_app in Hfresh.
  assert (Hother : forall v, In v (pre ++ post)%list -> _id v <> _id u).
  { intros v Hin Heq. apply Hfresh. apply in_map_iff. exists v. split; assumption. }
  split.
  - f_equal. apply find_nowhere. intros v Hin.
    destruct (User.has_id id v) eqn:Hv; [|reflexivity].
    exfalso. apply (Hother v Hin). unfold User.has_id in *.
    apply String.eqb_eq in Hv, Hu. congruence.
  - intros v. split.
    + intros Hin. split; [|apply Hother; exact Hin].
      apply in_app_or in Hin. apply in_or_app. destruct Hin; [now left|right; now right].
    + intros [Hin Hne]. apply in_app_or in Hin. apply in_or_app.
      destruct Hin as [Hin|[<-|Hin]]; [now left|congruence|now right].
Qed.

(** X4.  When an administrator deletes a stored user, the answer is 200;
    afterwards the identifier resolves to nothing, every other record is
    still there, and the same request, if the guard still lets it through,
    is answered 404 and changes nothing. *)
Theorem delete_removes_the_user :
  forall (L : Libs) (E : Env) (req : Request) (store : Store) (u : User),
    unique_ids store ->
    admitted L E req store ->
    User.findById store (req_id req) = Ok (Some u) ->
    exists store' : Store,
      route L E DeleteUser req store = (respond 200 (msg "User deleted"), store') /\
      User.findById store' (req_id req) = Ok None /\
      (forall v, In v store' <-> In v store /\ _id v <> _id u) /\
      (admitted L E req store' ->
       route L E DeleteUser req store' = (respond 404 (msg "User not found"), store')).
Proof.
  intros L E req store u Hids Hadmitted Hfound.
  destruct (delete_stored store (req_id req) u Hids Hfound)
    as [store' [Hdelete [Hgone Hrest]]].
  exists store'. split; [|split; [exact Hgone|split; [exact Hrest|]]].
  - cbn [route]. rewrite (guarded_admitted L E _ req store Hadmitted).
    unfold delete_user. rewrite Hdelete. reflexivity.
  - intros Hagain. cbn [route]. rewrite (guarded_admitted L E _ req store' Hagain).
    unfold delete_user, User.findByIdAndDelete. rewrite Hgone. reflexivity.
Qed.

Lemma delete_removes_the_user_witness :
  exists store' : Store,
    route Sample.libs Sample.env DeleteUser delete_john Sample.store
      = (respond 200 (msg "User deleted"), store') /\
    User.findById store' (req_id delete_john) = Ok None /\
    (forall v, In v store' <-> In v Sample.store /\ _id v <> _id Sample.john) /\
    (admitted Sample.libs Sample.env delete_john store' ->
     route Sample.libs Sample.env DeleteUser delete_john store'
       = (respond 404 (msg "User not found"), store')).
Proof.
  apply (delete_removes_the_user Sample.libs Sample.env delete_john Sample.store Sample.john).
  - exact (proj1 sample_store_consistent).
  - eexists. split; reflexivity.
  - reflexivity.
Defined.

(** X5.  Once a user is deleted, a token whose subject is that user is
    refused with 401 on every guarded route, even though the token itself
    still verifies. *)
Theorem deleted_user_is_locked_out :
  forall (L : Libs) (E E' : Env) (req req' : Request) (store : Store) (u : User)
         (handler : Request -> Store -> Response * Store)
         (t : string) (decoded : list (string * json)) (subject : string),
    unique_ids store ->
    admitted L E req store ->
    User.findById store (req_id req) = Ok (Some u) ->
    bearer req' = Some t ->
    jwt.verify L (now E') t (JWT_SECRET E') = Ok decoded ->
    lookup "id" decoded = Some (JStr subject) ->
    JS.toLowerCase subject = JS.toLowerCase (req_id req) ->
    denied 401 (snd (route L E DeleteUser req store))
      (guarded L E' handler req' (snd (route L E DeleteUser req store))).
Proof.
  intros L E E' req req' store u handler t decoded subject
         Hids Hadmitted Hfound Hbearer Hverify Hsubject Hsame.
  destruct (delete_stored store (req_id req) u Hids Hfound)
    as [store' [Hdelete [Hgone _]]].
  assert (Hroute : snd (route L E DeleteUser req store) = store').
  { cbn [route]. rewrite (guarded_admitted L E _ req store Hadmitted).
    unfold delete_user. rewrite Hdelete. reflexivity. }
  rewrite Hroute.
  apply (guarded_unknown_subject L E' handler req' store' t decoded Hbearer Hverify).
  intros v. unfold find_subject. rewrite Hsubject.
  unfold User.findById in *.
  destruct (User.is_object_id subject); [|discriminate].
  destruct (User.is_object_id (req_id req)); [|discriminate].
  injection Hgone as Hgone.
  replace (List.find (User.has_id subject) store')
    with (List.find (User.has_id (req_id req)) store').
  - rewrite Hgone. discriminate.
  - unfold User.has_id. rewrite Hsame. reflexivity.
Qed.

Lemma deleted_user_is_locked_out_witness :
  denied 401 (snd (route Sample.libs Sample.env DeleteUser delete_john Sample.store))
    (guarded Sample.libs Sample.env (list_users Sample.libs)
       (list_as (Some ("Bearer " ++ john_token)))
       (snd (route Sample.libs Sample.env DeleteUser delete_john Sample.store))).
Proof.
  apply (deleted_user_is_locked_out Sample.libs Sample.env Sample.env delete_john
           (list_as (Some ("Bearer " ++ john_token))) Sample.store Sample.john
           (list_users Sample.libs) john_token
           (jwt_payload (issue_token Sample.libs Sample.env Sample.john))
           "65a000000000000000000002").
  - exact (proj1 sample_store_consistent).
  - eexists. split; reflexivity.
  - reflexivity.
  - reflexivity.
  - reflexivity.
  - reflexivity.
  - reflexivity.
Defined.

(** ** Registration *)

Lemma at_path_nil path e : userSchema.at_path path e = [] <-> e = None.
Proof. destruct e; cbn; split; intros H; congruence. Qed.

Lemma validate_ok n e p r :
  userSchema.validate n e p r = Ok tt <->
  userSchema.name_error n = None /\ userSchema.email_error e = None /\
  userSchema.password_error p = None /\ userSchema.role_error r = None.
Proof.
  unfold userSchema.validate, userSchema.fail_with. split.
  - destruct (_ ++ _)%list eqn:Hl; [|discriminate]. intros _.
    apply app_eq_nil in Hl. destruct Hl as [Hn Hl].
    apply app_eq_nil in Hl. destruct Hl as [He Hl].
    apply app_eq_nil in Hl. destruct Hl as [Hp Hr].
    apply at_path_nil in Hn, He, Hp, Hr. tauto.
  - intros [-> [-> [-> ->]]]. reflexivity.
Qed.

Lemma id_unused_iff (store : Store) (id : string) :
  existsb (fun u => String.eqb (_id u) id) store = false <-> ~ In id (map _id store).
Proof.
  split; [apply id_unused|]. intros Hfresh.
  destruct (existsb _ store) eqn:Hex; [|reflexivity].
  exfalso. apply Hfresh. apply existsb_exists in Hex. destruct Hex as [u [Hin Hid]].
  apply String.eqb_eq in Hid. apply in_map_iff. exists u. split; assumption.
Qed.

Lemma save_registered L E (b : Body) store :
  userSchema.validate (b_name b) (b_email b) (b_password b) (JS.or_else (b_role b) "user")
    = Ok tt ->
  User.findOne store (b_email b) = None ->
  ~ In (fresh_id E) (map _id store) ->
  User.save L E (b_name b) (b_email b) (b_password b) (JS.or_else (b_role b) "user") store
    = Ok (registered L E b, (store ++ [registered L E b])%list).
Proof.
  intros Hvalid Hfree Hfresh. unfold User.save, registered. rewrite Hvalid. cbn [bind].
  apply validate_ok in Hvalid. destruct Hvalid as [Hn [He [Hp _]]].
  destruct (b_name b) as [n|]; [|discriminate Hn].
  destruct (b_email b) as [e|]; [|discriminate He].
  destruct (b_password b) as [p|]; [|discriminate Hp].
  unfold userSchema.pre_save. cbn [negb _id email option_map User.or_current].
  apply id_unused_iff in Hfresh. rewrite Hfresh.
  rewrite (findOne_none_email_free store e (fresh_id E) Hfree).
  reflexivity.
Qed.

Lemma post_user_accepted L E req store :
  acceptable E (req_body req) store ->
  post_user L E req store =
    (respond 201 (token_and_user L E (registered L E (req_body req))),
     (store ++ [registered L E (req_body req)])%list).
Proof.
  intros [Hn [He [Hp [Hr [Hfree Hfresh]]]]]. unfold post_user. rewrite Hfree.
  rewrite (save_registered L E (req_body req) store); try assumption.
  - reflexivity.
  - apply validate_ok. tauto.
Qed.

Lemma post_user_201 L E req store :
  status (fst (post_user L E req store)) = 201 ->
  acceptable E (req_body req) store.
Proof.
  unfold acceptable, post_user.
  destruct (User.findOne store _) eqn:Hfind; [discriminate|].
  destruct (User.save _ _ _ _ _ _ _) as [[u store']|e] eqn:Hsave; [|discriminate].
  intros _. unfold User.save in Hsave.
  destruct (userSchema.validate _ _ _ _) as [[]|] eqn:Hvalid; [|discriminate].
  cbn [bind] in Hsave.
  destruct (existsb _ store) eqn:Hid; [discriminate|].
  apply validate_ok in Hvalid. apply id_unused in Hid. tauto.
Qed.

(** Lengths are counted in characters of the source, not in bytes, and
    the name is trimmed of every white space of the source. *)
Example short_password_is_refused :
  String.length five_characters = 6%nat /\
  JS.length five_characters = 5 /\
  userSchema.password_error (Some five_characters)
    = Some "Password must be at least 6 characters" /\
  status (fst (post_user Sample.libs Sample.env (register_as "Eve" five_characters)
                 Sample.store)) = 500.
Proof. repeat split. Qed.

Example padded_name_is_refused :
  JS.trim padded_letter = "a" /\
  userSchema.name_error (Some padded_letter)
    = Some "Name must be at least 2 characters" /\
  status (fst (post_user Sample.libs Sample.env (register_as padded_letter "secret1")
                 Sample.store)) = 500.
Proof. repeat split. Qed.

(** X6.  For a body whose name, address and password are ASCII strings,
    a registration is answered 201 exactly when the schema accepts the
    name, the address, the password and the role (the one of the body, or
    [user]), no stored user has the address, and the new identifier is
    unused. *)
Theorem registration_succeeds_iff :
  forall (L : Libs) (E : Env) (req : Request) (store : Store),
    ascii_field (b_name (req_body req)) ->
    ascii_field (b_email (req_body req)) ->
    ascii_field (b_password (req_body req)) ->
    (status (fst (post_user L E req store)) = 201 <->
     acceptable E (req_body req) store).
Proof.
  intros L E req store _ _ _. split.
  - apply post_user_201.
  - intros Hok. rewrite (post_user_accepted L E req store Hok). reflexivity.
Qed.

Lemma registration_succeeds_iff_witness :
  status (fst (post_user Sample.libs Sample.env register_eve Sample.store)) = 201 <->
  acceptable Sample.env (req_body register_eve) Sample.store.
Proof.
  apply (registration_succeeds_iff Sample.libs Sample.env register_eve Sample.store);
    reflexivity.
Defined.


(** ** From registration to login, and the life of a token *)

Lemma find_app_none (f : User -> bool) (l l' : list User) :
  List.find f l = None -> List.find f (l ++ l') = List.find f l'.
Proof.
  induction l as [|w l IH]; [reflexivity|]. cbn [List.find app].
  destruct (f w); [discriminate|]. exact IH.
Qed.

(** X8.  With a hashing library whose comparison accepts the hashes it
    made at registration for the plaintext they were made from, a user
    whose registration succeeded logs
    in with the same address and password: the answer is 200 and carries
    a token for the registered record. *)
Theorem registered_user_can_log_in :
  forall (L : Libs) (E E' : Env) (req req' : Request) (store : Store),
    (forall plaintext,
        bcrypt_compare L plaintext (bcrypt_hash L plaintext 12 (salt E)) = true) ->
    status (fst (post_user L E req store)) = 201 ->
    b_email (req_body req') = b_email (req_body req) ->
    b_password (req_body req') = b_password (req_body req) ->
    login L E' req' (snd (post_user L E req store)) =
      (respond 200 (token_and_user L E' (registered L E (req_body req))),
       snd (post_user L E req store)).
Proof.
  intros L E E' req req' store Hbcrypt Hcreated Hemail Hpassword.
  apply post_user_201 in Hcreated.
  rewrite (post_user_accepted L E req store Hcreated). cbn [snd].
  destruct Hcreated as [_ [He [Hp [_ [Hfree _]]]]].
  unfold login. rewrite Hemail, Hpassword.
  destruct (b_email (req_body req)) as [e|] eqn:Hbe; [|discriminate He].
  destruct (b_password (req_body req)) as [p|] eqn:Hbp; [|discriminate Hp].
  assert (Hdoc_email : email (registered L E (req_body req)) = JS.toLowerCase e).
  { unfold registered. rewrite Hbe. reflexivity. }
  assert (Hdoc_password :
            password (registered L E (req_body req)) = bcrypt_hash L p 12 (salt E)).
  { unfold registered. rewrite Hbp. reflexivity. }
  remember (registered L E (req_body req)) as doc eqn:Hdoc.
  cbn [User.findOne] in *. rewrite (find_app_none _ _ _ Hfree).
  cbn [List.find]. rewrite Hdoc_email, String.eqb_refl.
  unfold userSchema.comparePassword. rewrite Hdoc_password, Hbcrypt. reflexivity.
Qed.

Lemma sample_bcrypt_accepts :
  forall plaintext,
    bcrypt_compare Sample.libs plaintext
      (bcrypt_hash Sample.libs plaintext 12 (salt Sample.env)) = true.
Proof. intros. cbn. apply String.eqb_refl. Defined.

Lemma registered_user_can_log_in_witness :
  login Sample.libs an_hour_later register_eve
      (snd (post_user Sample.libs Sample.env register_eve Sample.store)) =
    (respond 200
       (token_and_user Sample.libs an_hour_later
          (registered Sample.libs Sample.env (req_body register_eve))),
     snd (post_user Sample.libs Sample.env register_eve Sample.store)).
Proof.
  apply (registered_user_can_log_in Sample.libs Sample.env an_hour_later register_eve
           register_eve Sample.store).
  - exact sample_bcrypt_accepts.
  - reflexivity.
  - reflexivity.
  - reflexivity.
Defined.

(** The header [Bearer <token>] carries the token. *)
Lemma bearer_of_header (req : Request) (t : string) :
  req_authorization req = Some ("Bearer " ++ t) -> bearer req = Some t.
Proof. intros H. unfold bearer. rewrite H. cbn. destruct t; reflexivity. Qed.

(** What [auth] makes of a token the server issued, when the parser reads
    back what the serialiser wrote. *)
Lemma verify_issued L E E' u :
  jwt_parse L (jwt_serialize L (issue_token L E u)) = Some (issue_token L E u) ->
  JWT_SECRET E' = JWT_SECRET E ->
  jwt.verify L (now E') (jwt_serialize L (issue_token L E u)) (JWT_SECRET E') =
    if now E / 1000 + 3600 <=? now E' / 1000 then Throw "jwt expired"
    else Ok (jwt_payload (issue_token L E u)).
Proof.
  intros Hparse Hsecret. unfold jwt.verify. rewrite Hparse, Hsecret.
  change (jwt_signature (issue_token L E u))
    with (jwt_mac L (JWT_SECRET E) (jwt_payload (issue_token L E u))).
  rewrite String.eqb_refl. reflexivity.
Qed.

Lemma auth_issued L E E' req store u u' :
  jwt_parse L (jwt_serialize L (issue_token L E u)) = Some (issue_token L E u) ->
  jwt_serialize L (issue_token L E u) <> "" ->
  JWT_SECRET E' = JWT_SECRET E ->
  req_authorization req = Some ("Bearer " ++ jwt_serialize L (issue_token L E u)) ->
  User.findById store (_id u) = Ok (Some u') ->
  now E' / 1000 < now E / 1000 + 3600 ->
  auth L E' req store = inr (select_minus "password" (toJSON u')).
Proof.
  intros Hparse Hne Hsecret Hheader Hfound Hfresh.
  apply bearer_of_header in Hheader.
  pose proof (verify_issued L E E' u Hparse Hsecret) as Hverify.
  apply Z.leb_gt in Hfresh. rewrite Hfresh in Hverify.
  unfold auth. rewrite Hheader. apply String.eqb_neq in Hne. rewrite Hne.
  rewrite Hverify. cbn [bind]. unfold find_subject.
  change (lookup "id" (jwt_payload (issue_token L E u))) with (Some (JStr (_id u))).
  cbv beta iota. rewrite Hfound. reflexivity.
Qed.

Lemma adminAuth_role (u : User) :
  adminAuth (select_minus "password" (toJSON u)) =
    if String.eqb (role u) "admin" then None
    else Some (respond 403 (msg "Admin access required")).
Proof. reflexivity. Qed.

(** X9.  A token issued to a user is accepted by [auth], under the same
    key, as long as the current second is before the issue second plus
    3600 and the user is still stored, and is refused with 401 from that
    second on.  The user attached to the request is the record stored at
    the time of the request, so that it is the current role that decides
    between admission and 403. *)
Theorem token_is_good_for_one_hour :
  forall (L : Libs) (E E' : Env) (req : Request) (store : Store) (u u' : User)
         (handler : Request -> Store -> Response * Store),
    jwt_parse L (jwt_serialize L (issue_token L E u)) = Some (issue_token L E u) ->
    jwt_serialize L (issue_token L E u) <> "" ->
    JWT_SECRET E' = JWT_SECRET E ->
    req_authorization req = Some ("Bearer " ++ jwt_serialize L (issue_token L E u)) ->
    User.findById store (_id u) = Ok (Some u') ->
    (now E' / 1000 < now E / 1000 + 3600 ->
       auth L E' req store = inr (select_minus "password" (toJSON u')) /\
       (role u' = "admin" -> guarded L E' handler req store = handler req store) /\
       (role u' <> "admin" -> denied 403 store (guarded L E' handler req store))) /\
    (now E / 1000 + 3600 <= now E' / 1000 ->
       denied 401 store (guarded L E' handler req store)).
Proof.
  intros L E E' req store u u' handler Hparse Hne Hsecret Hheader Hfound.
  split.
  - intros Hfresh.
    pose proof (auth_issued L E E' req store u u' Hparse Hne Hsecret Hheader Hfound Hfresh)
      as Hauth.
    split; [exact Hauth|split].
    + intros Hrole. apply guarded_admitted. eexists. split; [exact Hauth|].
      rewrite adminAuth_role, Hrole. reflexivity.
    + intros Hrole. unfold guarded. rewrite Hauth, adminAuth_role.
      apply String.eqb_neq in Hrole. rewrite Hrole. eexists; reflexivity.
  - intros Hexpired. apply bearer_of_header in Hheader.
    pose proof (verify_issued L E E' u Hparse Hsecret) as Hverify.
    apply Z.leb_le in Hexpired. rewrite Hexpired in Hverify.
    exact (guarded_bad_token L E' handler req store _ _ Hheader Hverify).
Qed.

Lemma token_is_good_for_one_hour_witness :
  (auth Sample.libs Sample.env (list_as (Some ("Bearer " ++ john_token))) Sample.store
     = inr (select_minus "password" (toJSON Sample.john)) /\
   denied 403 Sample.store
     (guarded Sample.libs Sample.env (list_users Sample.libs)
        (list_as (Some ("Bearer " ++ john_token))) Sample.store)) /\
  denied 401 Sample.store
    (guarded Sample.libs an_hour_later (list_users Sample.libs)
       (list_as (Some ("Bearer " ++ john_token))) Sample.store).
Proof.
  split.
  - destruct (token_is_good_for_one_hour Sample.libs Sample.env Sample.env
                (list_as (Some ("Bearer " ++ john_token))) Sample.store
                Sample.john Sample.john (list_users Sample.libs))
      as [Hfresh _]; try reflexivity.
    + cbv. discriminate.
    + destruct Hfresh as [Hauth [_ Hdenied]].
      * cbv. reflexivity.
      * split; [exact Hauth|]. apply Hdenied. cbv. discriminate.
  - destruct (token_is_good_for_one_hour Sample.libs Sample.env an_hour_later
                (list_as (Some ("Bearer " ++ john_token))) Sample.store
                Sample.john Sample.john (list_users Sample.libs))
      as [_ Hexpired]; try reflexivity.
    + cbv. discriminate.
    + apply Hexpired. cbv. discriminate.
Defined.

(** X10.  Registration is open to anyone and takes the role from the
    body: after a registration that asks for [admin] and is accepted, the
    token of the 201 response opens every guarded route, for the hour that
    follows. *)
Theorem registering_as_admin_opens_the_guard :
  forall (L : Libs) (E E' : Env) (req req' : Request) (store : Store)
         (handler : Request -> Store -> Response * Store),
    let doc := registered L E (req_body req) in
    let token := jwt_serialize L (issue_token L E doc) in
    jwt_parse L token = Some (issue_token L E doc) ->
    token <> "" ->
    User.is_object_id (fresh_id E) = true ->
    JS.toLowerCase (fresh_id E) = fresh_id E ->
    acceptable E (req_body req) store ->
    b_role (req_body req) = Some "admin" ->
    JWT_SECRET E' = JWT_SECRET E ->
    now E' / 1000 < now E / 1000 + 3600 ->
    req_authorization req' = Some ("Bearer " ++ token) ->
    get_field "token" (payload (fst (post_user L E req store))) = Some (JStr token) /\
    guarded L E' handler req' (snd (post_user L E req store)) =
      handler req' (snd (post_user L E req store)).
Proof.
  intros L E E' req req' store handler doc token
         Hparse Hne Hid Hlower Hok Hrole Hsecret Hfresh Hheader.
  rewrite (post_user_accepted L E req store Hok). fold doc. cbn [fst snd payload respond].
  split; [reflexivity|].
  assert (Hfound : User.findById (store ++ [doc])%list (_id doc) = Ok (Some doc)).
  { unfold User.findById. change (_id doc) with (fresh_id E). rewrite Hid. f_equal.
    destruct Hok as [_ [_ [_ [_ [_ Hunused]]]]].
    rewrite find_app_none.
    - cbn [List.find]. unfold User.has_id. rewrite Hlower.
      change (_id doc) with (fresh_id E). rewrite String.eqb_refl. reflexivity.
    - apply find_nowhere. intros v Hin. unfold User.has_id. rewrite Hlower.
      apply String.eqb_neq. intros Heq. apply Hunused.
      apply in_map_iff. exists v. split; assumption. }
  apply guarded_admitted. eexists. split.
  - exact (auth_issued L E E' req' _ doc doc Hparse Hne Hsecret Hheader Hfound Hfresh).
  - rewrite adminAuth_role. unfold doc, registered. cbn [role]. rewrite Hrole. reflexivity.
Qed.

Lemma registering_as_admin_opens_the_guard_witness :
  get_field "token"
      (payload (fst (post_user Sample.libs Sample.env register_eve Sample.store))) =
    Some (JStr eve_token) /\
  guarded Sample.libs Sample.env (list_users Sample.libs)
      (list_as (Some ("Bearer " ++ eve_token)))
      (snd (post_user Sample.libs Sample.env register_eve Sample.store)) =
    list_users Sample.libs (list_as (Some ("Bearer " ++ eve_token)))
      (snd (post_user Sample.libs Sample.env register_eve Sample.store)).
Proof.
  apply (registering_as_admin_opens_the_guard Sample.libs Sample.env Sample.env
           register_eve (list_as (Some ("Bearer " ++ eve_token))) Sample.store
           (list_users Sample.libs)).
  - reflexivity.
  - cbv. discriminate.
  - reflexivity.
  - reflexivity.
  - repeat split; try reflexivity.
    cbn. intros [H|[H|[H|[H|[]]]]]; discriminate H.
  - reflexivity.
  - reflexivity.
  - cbv. reflexivity.
  - reflexivity.
Defined.

(** ** The clauses of the filter *)

(** X11.  The filter of a listing is a conjunction in which a non-empty
    [role] parameter demands exactly that role: every selected record has
    it, and on a collection whose roles are those of the enumeration a
    role outside the enumeration selects nothing.  With no search term, no
    role and no [active] parameter every record is selected. *)
Theorem role_clause_is_exact :
  forall (L : Libs) (q : QueryParams) (p : User -> bool),
    User.compile_filter L (buildQuery q) = Ok p ->
    (forall r, q_role q = Some r -> r <> "" ->
       (forall u, p u = true -> role u = r) /\
       (forall store, roles_valid store -> r <> "user" -> r <> "admin" ->
                      filter p store = [])) /\
    (JS.truthy (q_search q) = false -> JS.truthy (q_role q) = false ->
     q_active q = None -> forall u, p u = true).
Proof.
  intros L q p Hcompile.
  assert (Hrole : forall r, q_role q = Some r -> r <> "" ->
                  forall u, p u = true -> role u = r).
  { intros r Hr Hne u Hu.
    apply compile_filter_shape in Hcompile. destruct Hcompile as [p_or [_ ->]].
    unfold buildQuery in Hu. cbn [f_role f_isActive] in Hu. rewrite Hr in Hu.
    cbn [JS.truthy] in Hu. apply String.eqb_neq in Hne. rewrite Hne in Hu.
    cbn [negb] in Hu.
    apply andb_true_iff in Hu. destruct Hu as [Hu _].
    apply andb_true_iff in Hu. destruct Hu as [_ Hu].
    apply String.eqb_eq. exact Hu. }
  split.
  - intros r Hr Hne. split; [exact (Hrole r Hr Hne)|].
    intros store Hvalid Huser Hadmin.
    induction store as [|u store IH]; [reflexivity|].
    cbn [filter]. destruct (p u) eqn:Hu.
    + exfalso. pose proof (Hrole r Hr Hne u Hu) as Hur.
      destruct (Hvalid u (or_introl eq_refl)); congruence.
    + apply IH. intros v Hv. apply Hvalid. now right.
  - intros Hsearch Hnorole Hactive u.
    unfold User.compile_filter, buildQuery in Hcompile.
    cbn [f_or f_role f_isActive] in Hcompile.
    rewrite Hnorole, Hactive in Hcompile.
    destruct (q_search q) as [s|].
    + cbn [JS.truthy] in Hsearch. apply negb_false_iff in Hsearch.
      rewrite Hsearch in Hcompile. cbn [bind] in Hcompile.
      injection Hcompile as <-. reflexivity.
    + cbn [bind] in Hcompile. injection Hcompile as <-. reflexivity.
Qed.

Lemma role_clause_is_exact_witness :
  (forall r, q_role (only_role (Some "user")) = Some r -> r <> "" ->
     (forall u, users_only u = true -> role u = r) /\
     (forall store, roles_valid store -> r <> "user" -> r <> "admin" ->
                    filter users_only store = [])) /\
  (JS.truthy (q_search (only_role (Some "user"))) = false ->
   JS.truthy (q_role (only_role (Some "user"))) = false ->
   q_active (only_role (Some "user")) = None -> forall u, users_only u = true).
Proof.
  apply (role_clause_is_exact Sample.libs (only_role (Some "user")) users_only).
  reflexivity.
Defined.

(** ** The order of a listing *)

Lemma value_compare_antisym (a b : value) :
  User.value_compare b a = CompOpp (User.value_compare a b).
Proof.
  destruct a as [|x|x|x], b as [|y|y|y]; cbn [User.value_compare]; try reflexivity.
  - destruct x, y; reflexivity.
  - apply Z.compare_antisym.
  - apply String.compare_antisym.
Qed.

Lemma before_total (s : string * Z) (u v : User) :
  User.before s u v = false -> User.before s v u = true.
Proof.
  unfold User.before.
  rewrite (value_compare_antisym (User.field_value (fst s) u) (User.field_value (fst s) v)).
  destruct (snd s =? -1);
    destruct (User.value_compare (User.field_value (fst s) u) (User.field_value (fst s) v));
    cbn; congruence.
Qed.

Lemma insert_sorted_permutation le u l :
  Permutation.Permutation (User.insert_sorted le u l) (u :: l).
Proof.
  induction l as [|v l IH]; cbn [User.insert_sorted]; [apply Permutation.Permutation_refl|].
  destruct (le u v); [apply Permutation.Permutation_refl|].
  apply Permutation.perm_trans with (v :: u :: l); [apply Permutation.perm_skip; exact IH|apply Permutation.perm_swap].
Qed.

Lemma sort_by_permutation s l : Permutation.Permutation (User.sort_by s l) l.
Proof.
  induction l as [|u l IH]; [apply Permutation.perm_nil|].
  cbn [User.sort_by fold_right].
  apply Permutation.perm_trans with (u :: User.sort_by s l).
  - apply insert_sorted_permutation.
  - apply Permutation.perm_skip. exact IH.
Qed.

Lemma insert_sorted_sorted s u l :
  Sorted.Sorted (fun a b => User.before s a b = true) l ->
  Sorted.Sorted (fun a b => User.before s a b = true) (User.insert_sorted (User.before s) u l).
Proof.
  induction l as [|v l IH]; intros Hl; cbn [User.insert_sorted].
  - apply Sorted.Sorted_cons; [apply Sorted.Sorted_nil|apply Sorted.HdRel_nil].
  - destruct (User.before s u v) eqn:Huv.
    + constructor; [exact Hl|]. constructor. exact Huv.
    + apply Sorted.Sorted_inv in Hl. destruct Hl as [Hl Hhd].
      constructor; [apply IH; exact Hl|].
      destruct l as [|w l]; cbn [User.insert_sorted].
      * constructor. apply before_total. exact Huv.
      * destruct (User.before s u w).
        -- constructor. apply before_total. exact Huv.
        -- constructor. apply Sorted.HdRel_inv in Hhd. exact Hhd.
Qed.

Lemma sort_by_sorted s l :
  Sorted.Sorted (fun a b => User.before s a b = true) (User.sort_by s l).
Proof.
  induction l as [|u l IH]; [constructor|].
  cbn [User.sort_by fold_right]. apply insert_sorted_sorted. exact IH.
Qed.

(** X12.  The records of a listing are a window of the matching records
    put in the requested order: for a request the guard lets through, with
    a page, a page size and a skip within the range in which the numbers
    of the source are exact, a non-negative skip, and a filter and a sort
    key the store accepts, the answer lists [limit] records from position
    [skip] of a rearrangement of the matching records in which every
    record may come before the next under the sort key and direction of
    the request. *)
Theorem listing_is_a_window_of_the_sorted_matches :
  forall (L : Libs) (E : Env) (req : Request) (store : Store) (p : User -> bool),
    admitted L E req store ->
    JS.safe (current_page (req_query req)) ->
    JS.safe (limit (getPaginationSort (req_query req))) ->
    JS.safe (skip (getPaginationSort (req_query req))) ->
    0 <= skip (getPaginationSort (req_query req)) ->
    User.sort_refused L (sort (getPaginationSort (req_query req))) = false ->
    User.compile_filter L (buildQuery (req_query req)) = Ok p ->
    exists sorted : list User,
      Permutation.Permutation sorted (filter p store) /\
      Sorted.Sorted (fun a b => User.before (sort (getPaginationSort (req_query req))) a b = true)
        sorted /\
      get_field "users" (payload (fst (route L E ListUsers req store))) =
        Some (JArr (map (fun u => select_minus "password" (toJSON u))
                      (User.take_limit (limit (getPaginationSort (req_query req)))
                         (skipn (Z.to_nat (skip (getPaginationSort (req_query req))))
                            sorted)))).
Proof.
  intros L E req store p Hadmitted _ _ _ Hskip Hsort Hfilter.
  exists (User.sort_by (sort (getPaginationSort (req_query req))) (filter p store)).
  split; [apply sort_by_permutation|]. split; [apply sort_by_sorted|].
  cbn [route]. rewrite (guarded_admitted L E _ req store Hadmitted).
  unfold list_users, User.find, User.countDocuments. rewrite Hfilter. cbn [bind].
  apply Z.ltb_ge in Hskip. rewrite Hsort, Hskip. reflexivity.
Qed.

Lemma listing_is_a_window_of_the_sorted_matches_witness :
  exists sorted : list User,
    Permutation.Permutation sorted (filter search_o Sample.store) /\
    Sorted.Sorted (fun a b => User.before ("name", 1) a b = true) sorted /\
    get_field "users"
        (payload (fst (route Sample.libs Sample.env ListUsers second_page Sample.store))) =
      Some (JArr (map (fun u => select_minus "password" (toJSON u))
                    (User.take_limit 2 (skipn 2 sorted)))).
Proof.
  apply (listing_is_a_window_of_the_sorted_matches Sample.libs Sample.env second_page
           Sample.store search_o).
  - eexists. split; reflexivity.
  - cbv. split; discriminate.
  - cbv. split; discriminate.
  - cbv. split; discriminate.
  - cbv. discriminate.
  - reflexivity.
  - reflexivity.
Defined.

(** ** Paging through a listing *)

Lemma firstn_add (a b : nat) (l : list User) :
  firstn (a + b) l = (firstn a l ++ firstn b (skipn a l))%list.
Proof.
  revert l. induction a as [|a IH]; intros l; [reflexivity|].
  destruct l as [|u l]; cbn [Nat.add firstn skipn app].
  - rewrite firstn_nil. reflexivity.
  - f_equal. apply IH.
Qed.

Lemma windows_concat (n m : nat) (l : list User) :
  List.concat (map (fun k => firstn n (skipn (k * n) l)) (seq 0 m)) = firstn (m * n) l.
Proof.
  induction m as [|m IH]; [reflexivity|].
  rewrite seq_S, map_app, concat_app, IH. cbn [Nat.add map List.concat].
  rewrite app_nil_r. rewrite Nat.mul_succ_l. symmetry. apply firstn_add.
Qed.

(** The values of a path are of one kind. *)
Lemma field_kind (path : string) :
  (exists g, forall u, User.field_value path u = VStr (g u)) \/
  (exists g, forall u, User.field_value path u = VNum (g u)) \/
  (exists g, forall u, User.field_value path u = VBool (g u)) \/
  (forall u, User.field_value path u = VMissing).
Proof.
  unfold User.field_value.
  destruct (String.eqb path "_id"); [left; eexists; reflexivity|].
  destruct (String.eqb path "name"); [left; eexists; reflexivity|].
  destruct (String.eqb path "email"); [left; eexists; reflexivity|].
  destruct (String.eqb path "password"); [left; eexists; reflexivity|].
  destruct (String.eqb path "role"); [left; eexists; reflexivity|].
  destruct (String.eqb path "isActive"); [right; right; left; eexists; reflexivity|].
  destruct (String.eqb path "createdAt"); [right; left; eexists; reflexivity|].
  destruct (String.eqb path "updatedAt"); [right; left; eexists; reflexivity|].
  right; right; right; reflexivity.
Qed.

Lemma string_compare_trans (x y z : string) (c : comparison) :
  String.compare x y = c -> String.compare y z = c -> String.compare x z = c.
Proof.
  intros Hxy Hyz. destruct c.
  - apply String.compare_eq_iff in Hxy, Hyz. subst.
    apply OrderedTypeEx.String_as_OT.cmp_eq. reflexivity.
  - apply OrderedTypeEx.String_as_OT.cmp_lt.
    apply OrderedTypeEx.String_as_OT.cmp_lt in Hxy, Hyz.
    eapply OrderedTypeEx.String_as_OT.lt_trans; eassumption.
  - rewrite String.compare_antisym in Hxy, Hyz |- *.
    destruct (String.compare y x) eqn:Hyx; try discriminate Hxy.
    destruct (String.compare z y) eqn:Hzy; try discriminate Hyz.
    apply OrderedTypeEx.String_as_OT.cmp_lt in Hyx, Hzy.
    assert (Hzx : String.compare z x = Lt).
    { apply OrderedTypeEx.String_as_OT.cmp_lt.
      eapply OrderedTypeEx.String_as_OT.lt_trans; eassumption. }
    rewrite Hzx. reflexivity.
Qed.

Lemma value_compare_eq_l (a b c : value) :
  (exists x y z, a = VStr x /\ b = VStr y /\ c = VStr z) \/
  (exists x y z, a = VNum x /\ b = VNum y /\ c = VNum z) \/
  (exists x y z, a = VBool x /\ b = VBool y /\ c = VBool z) \/
  (a = VMissing /\ b = VMissing /\ c = VMissing) ->
  forall k,
    k <> Eq ->
    User.value_compare a b <> k -> User.value_compare b c <> k ->
    User.value_compare a c <> k.
Proof.
  intros [[x [y [z [-> [-> ->]]]]]|[[x [y [z [-> [-> ->]]]]]|[[x [y [z [-> [-> ->]]]]]|
          [-> [-> ->]]]]] k Hk; cbn [User.value_compare].
  - intros Hxy Hyz Hxz.
    destruct (String.compare x y) eqn:Exy; [| |].
    + apply String.compare_eq_iff in Exy. subst. contradiction.
    + destruct (String.compare y z) eqn:Eyz.
      * apply String.compare_eq_iff in Eyz. subst. congruence.
      * pose proof (string_compare_trans x y z Lt Exy Eyz). congruence.
      * destruct k; congruence.
    + destruct (String.compare y z) eqn:Eyz.
      * apply String.compare_eq_iff in Eyz. subst. congruence.
      * destruct k; congruence.
      * pose proof (string_compare_trans x y z Gt Exy Eyz). congruence.
  - intros Hxy Hyz Hxz.
    destruct (Z.compare_spec x y), (Z.compare_spec y z), (Z.compare_spec x z);
      destruct k; try congruence; lia.
  - destruct x, y, z, k; congruence.
  - congruence.
Qed.

Lemma before_trans (s : string * Z) (u v w : User) :
  User.before s u v = true -> User.before s v w = true -> User.before s u w = true.
Proof.
  unfold User.before.
  assert (Hkind :
            (exists x y z, User.field_value (fst s) u = VStr x /\
                           User.field_value (fst s) v = VStr y /\
                           User.field_value (fst s) w = VStr z) \/
            (exists x y z, User.field_value (fst s) u = VNum x /\
                           User.field_value (fst s) v = VNum y /\
                           User.field_value (fst s) w = VNum z) \/
            (exists x y z, User.field_value (fst s) u = VBool x /\
                           User.field_value (fst s) v = VBool y /\
                           User.field_value (fst s) w = VBool z) \/
            (User.field_value (fst s) u = VMissing /\
             User.field_value (fst s) v = VMissing /\
             User.field_value (fst s) w = VMissing)).
  { destruct (field_kind (fst s)) as [[g Hg]|[[g Hg]|[[g Hg]|Hg]]].
    - left. exists (g u), (g v), (g w). rewrite !Hg. auto.
    - right; left. exists (g u), (g v), (g w). rewrite !Hg. auto.
    - right; right; left. exists (g u), (g v), (g w). rewrite !Hg. auto.
    - right; right; right. rewrite !Hg. auto. }
  pose proof (value_compare_eq_l _ _ _ Hkind) as Htrans.
  destruct (snd s =? -1).
  - intros Huv Hvw. specialize (Htrans Lt ltac:(discriminate)).
    destruct (User.value_compare (User.field_value (fst s) u) (User.field_value (fst s) v));
      try discriminate Huv;
    destruct (User.value_compare (User.field_value (fst s) v) (User.field_value (fst s) w));
      try discriminate Hvw;
    destruct (User.value_compare (User.field_value (fst s) u) (User.field_value (fst s) w));
      try reflexivity; exfalso; apply Htrans; congruence.
  - intros Huv Hvw. specialize (Htrans Gt ltac:(discriminate)).
    destruct (User.value_compare (User.field_value (fst s) u) (User.field_value (fst s) v));
      try discriminate Huv;
    destruct (User.value_compare (User.field_value (fst s) v) (User.field_value (fst s) w));
      try discriminate Hvw;
    destruct (User.value_compare (User.field_value (fst s) u) (User.field_value (fst s) w));
      try reflexivity; exfalso; apply Htrans; congruence.
Qed.

Lemma before_both_ways (s : string * Z) (u v : User) :
  User.before s u v = true -> User.before s v u = true ->
  User.value_compare (User.field_value (fst s) u) (User.field_value (fst s) v) = Eq.
Proof.
  unfold User.before.
  rewrite (value_compare_antisym (User.field_value (fst s) u) (User.field_value (fst s) v)).
  destruct (snd s =? -1);
    destruct (User.value_compare (User.field_value (fst s) u) (User.field_value (fst s) v));
    cbn; congruence.
Qed.

(** Without ties, the records have one arrangement that respects the
    sort. *)
Lemma sorted_unique (s : string * Z) (l l' : list User) :
  no_ties s l ->
  Permutation.Permutation l l' ->
  Sorted.Sorted (fun a b => User.before s a b = true) l ->
  Sorted.Sorted (fun a b => User.before s a b = true) l' ->
  l = l'.
Proof.
  intros Hties Hperm Hl Hl'.
  assert (Htrans : Relations_1.Transitive (fun a b => User.before s a b = true)).
  { intros a b c. apply before_trans. }
  apply (Sorted.Sorted_StronglySorted Htrans) in Hl, Hl'.
  revert l' Hties Hperm Hl Hl'.
  induction l as [|a l IH]; intros l' Hties Hperm Hl Hl'.
  - apply Permutation.Permutation_nil in Hperm. symmetry. exact Hperm.
  - destruct l' as [|a' l'].
    { apply Permutation.Permutation_sym, Permutation.Permutation_nil in Hperm.
      discriminate Hperm. }
    apply Sorted.StronglySorted_inv in Hl, Hl'.
    destruct Hl as [Hl Ha], Hl' as [Hl' Ha'].
    assert (Hhead : a = a').
    { assert (Hin' : In a' (a :: l)).
      { apply (Permutation.Permutation_in a' (Permutation.Permutation_sym Hperm)).
        now left. }
      assert (Hin : In a (a' :: l')).
      { apply (Permutation.Permutation_in a Hperm). now left. }
      destruct Hin' as [Heq|Hin']; [exact Heq|].
      destruct Hin as [Heq|Hin]; [symmetry; exact Heq|].
      rewrite Forall_forall in Ha, Ha'.
      apply Hties; [now left|now right|].
      apply before_both_ways; [apply Ha; exact Hin'|apply Ha'; exact Hin]. }
    subst a'. f_equal. apply IH.
    + intros u v Hu Hv. apply Hties; now right.
    + eapply Permutation.Permutation_cons_inv. exact Hperm.
    + exact Hl.
    + exact Hl'.
Qed.

(** X13.  Paging covers the matching records exactly once.  Take a page
    size of at least 1 within the range in which the numbers of the source
    are exact, as is the number of stored users, a filter and a sort key
    the store accepts, and matching records no two of which compare equal
    under the sort key, so that every query meets them in the same order.
    Then the record lists the listing handler answers for the pages 1 to
    [pages], where [pages] is the page count the pagination data announces
    and the requests differ in the page parameter only, put end to end,
    are the matching records in the requested order: the only arrangement
    of them that respects the sort. *)
Theorem pages_cover_the_matches :
  forall (L : Libs) (q : QueryParams) (store : Store) (p : User -> bool)
         (raws : nat -> option string),
    1 <= limit (getPaginationSort q) ->
    JS.safe (limit (getPaginationSort q)) ->
    JS.safe (Z.of_nat (List.length store)) ->
    User.sort_refused L (sort (getPaginationSort q)) = false ->
    User.compile_filter L (buildQuery q) = Ok p ->
    no_ties (sort (getPaginationSort q)) (filter p store) ->
    (forall k,
        Z.of_nat k < JS.ceil_div (Z.of_nat (List.length (filter p store)))
                       (limit (getPaginationSort q)) ->
        JS.parseInt (raws k) = Some (Z.of_nat k + 1)) ->
    exists chunks : list (list User),
      Z.of_nat (List.length chunks) =
        JS.ceil_div (Z.of_nat (List.length (filter p store))) (limit (getPaginationSort q)) /\
      (forall k req, (k < List.length chunks)%nat ->
         req_query req = with_page (raws k) q ->
         get_field "users" (payload (fst (list_users L req store))) =
           Some (JArr (map (fun u => select_minus "password" (toJSON u))
                         (nth k chunks [])))) /\
      List.concat chunks = User.sort_by (sort (getPaginationSort q)) (filter p store) /\
      (forall arranged : list User,
         Permutation.Permutation arranged (filter p store) ->
         Sorted.Sorted (fun a b => User.before (sort (getPaginationSort q)) a b = true)
           arranged ->
         List.concat chunks = arranged).
Proof.
  intros L q store p raws Hlimit _ _ Hkey Hfilter Hties Hraws.
  set (n := limit (getPaginationSort q)) in *.
  set (sorted := User.sort_by (sort (getPaginationSort q)) (filter p store)).
  set (total := Z.of_nat (List.length (filter p store))).
  pose proof (ceil_div_bounds total n ltac:(lia)) as Hceil.
  assert (Hpages : 0 <= JS.ceil_div total n) by (unfold total in *; nia).
  set (m := Z.to_nat (JS.ceil_div total n)).
  assert (Hconcat :
            List.concat
              (map (fun k => firstn (Z.to_nat n) (skipn (k * Z.to_nat n) sorted)) (seq 0 m))
            = sorted).
  { rewrite windows_concat. apply firstn_all2.
    unfold sorted. rewrite sort_by_length.
    unfold m. fold total in Hceil |- *.
    apply Nat2Z.inj_le. rewrite Nat2Z.inj_mul, !Z2Nat.id by lia. fold total. lia. }
  exists (map (fun k => firstn (Z.to_nat n) (skipn (k * Z.to_nat n) sorted)) (seq 0 m)).
  split; [|split; [|split]].
  - rewrite length_map, length_seq. unfold m. lia.
  - intros k req Hk Hreq. rewrite length_map, length_seq in Hk.
    rewrite (nth_indep _ [] (firstn (Z.to_nat n) (skipn (0 * Z.to_nat n) sorted)))
      by (rewrite length_map, length_seq; exact Hk).
    rewrite (map_nth (fun k => firstn (Z.to_nat n) (skipn (k * Z.to_nat n) sorted))).
    rewrite seq_nth by exact Hk. cbn [Nat.add].
    assert (Hsame : buildQuery (with_page (raws k) q) = buildQuery q) by reflexivity.
    assert (Hsort : sort (getPaginationSort (with_page (raws k) q)) = sort (getPaginationSort q))
      by reflexivity.
    assert (Hn : limit (getPaginationSort (with_page (raws k) q)) = n) by reflexivity.
    assert (Hskip : skip (getPaginationSort (with_page (raws k) q)) = Z.of_nat k * n).
    { cbn [skip getPaginationSort]. unfold current_page. cbn [q_page with_page].
      rewrite Hraws by (fold total; unfold m in Hk; lia). cbn [JS.num_or].
      destruct (Z.eqb_spec (Z.of_nat k + 1) 0); [lia|].
      change (JS.num_or (JS.parseInt (q_limit (with_page (raws k) q))) 10) with n.
      f_equal. lia. }
    unfold list_users. rewrite Hreq, Hsame, Hsort, Hn, Hskip.
    unfold User.find, User.countDocuments. rewrite Hfilter. cbn [bind].
    rewrite Hkey.
    destruct (Z.ltb_spec (Z.of_nat k * n) 0) as [Hneg|_]; [nia|].
    cbn [fst payload respond get_field lookup String.eqb Ascii.eqb Bool.eqb].
    unfold User.take_limit. destruct (Z.eqb_spec n 0); [lia|].
    fold sorted. do 3 f_equal.
    replace (Z.to_nat (Z.abs n)) with (Z.to_nat n) by lia.
    f_equal. rewrite Z2Nat.inj_mul by lia. rewrite Nat2Z.id. reflexivity.
  - exact Hconcat.
  - intros arranged Hperm Harranged. rewrite Hconcat.
    apply (sorted_unique (sort (getPaginationSort q))).
    + intros u v Hu Hv. apply Hties.
      * apply (sort_by_In (sort (getPaginationSort q))). exact Hu.
      * apply (sort_by_In (sort (getPaginationSort q))). exact Hv.
    + apply Permutation.perm_trans with (filter p store).
      * apply sort_by_permutation.
      * apply Permutation.Permutation_sym. exact Hperm.
    + apply sort_by_sorted.
    + exact Harranged.
Qed.

Lemma pages_cover_the_matches_witness :
  exists chunks : list (list User),
    Z.of_nat (List.length chunks) =
      JS.ceil_div (Z.of_nat (List.length (filter search_o Sample.store)))
        (limit (getPaginationSort (req_query second_page))) /\
    (forall k req, (k < List.length chunks)%nat ->
       req_query req = with_page (page_number k) (req_query second_page) ->
       get_field "users" (payload (fst (list_users Sample.libs req Sample.store))) =
         Some (JArr (map (fun u => select_minus "password" (toJSON u))
                       (nth k chunks [])))) /\
    List.concat chunks =
      User.sort_by (sort (getPaginationSort (req_query second_page)))
        (filter search_o Sample.store) /\
    (forall arranged : list User,
       Permutation.Permutation arranged (filter search_o Sample.store) ->
       Sorted.Sorted
         (fun a b => User.before (sort (getPaginationSort (req_query second_page))) a b = true)
         arranged ->
       List.concat chunks = arranged).
Proof.
  apply (pages_cover_the_matches Sample.libs (req_query second_page) Sample.store search_o
           page_number).
  - cbv. discriminate.
  - cbv. split; discriminate.
  - cbv. split; discriminate.
  - reflexivity.
  - reflexivity.
  - intros u v Hu Hv.
    change (filter search_o Sample.store)
      with [Sample.admin; Sample.john; Sample.jane; Sample.bob] in Hu, Hv.
    destruct Hu as [<-|[<-|[<-|[<-|[]]]]], Hv as [<-|[<-|[<-|[<-|[]]]]];
      intros H; try reflexivity; discriminate H.
  - intros [|[|k]] Hk; try reflexivity. exfalso.
    change (JS.ceil_div (Z.of_nat (List.length (filter search_o Sample.store)))
              (limit (getPaginationSort (req_query second_page)))) with 2 in Hk.
    lia.
Defined.

(** ** Switching a user on and off *)

(** X14.  The request with which the table switches a user on or off,
    sent by an administrator for a stored user, is answered 200 and stores
    in place of the record a record with the opposite active flag, the
    current time as update time, and every other field as it was. *)
Theorem toggle_flips_the_active_flag :
  forall (L : Libs) (E : Env) (req : Request) (store : Store) (u : User),
    admitted L E req store ->
    User.findById store (req_id req) = Ok (Some u) ->
    req_body req = toggle_body (isActive u) ->
    exists u' : User,
      route L E UpdateUser req store =
        (respond 200 (select_minus "password" (toJSON u')),
         User.replace_doc (req_id req) u' store) /\
      User.findById (User.replace_doc (req_id req) u' store) (req_id req) = Ok (Some u') /\
      isActive u' = negb (isActive u) /\
      updatedAt u' = now E /\
      with_active (isActive u) u' =
        {| _id := _id u; name := name u; email := email u; password := password u;
           role := role u; isActive := isActive u; createdAt := createdAt u;
           updatedAt := now E |}.
Proof.
  intros L E req store u Hadmitted Hfound Hbody.
  exists (User.apply_update (toggle_body (isActive u)) (now E) u).
  split; [|split].
  - cbn [route]. rewrite (guarded_admitted L E _ req store Hadmitted).
    unfold update_user, rehash. rewrite Hbody.
    cbn [b_password toggle_body JS.truthy bind].
    unfold User.findByIdAndUpdate.
    change (userSchema.validate_update (toggle_body (isActive u))) with (@Ok unit tt).
    cbn [bind]. rewrite Hfound. cbn [bind].
    change (email (User.apply_update (toggle_body (isActive u)) (now E) u)) with (email u).
    rewrite String.eqb_refl. reflexivity.
  - unfold User.findById in *.
    destruct (User.is_object_id (req_id req)); [|discriminate].
    injection Hfound as Hfound. f_equal.
    apply find_replace_doc with u; [exact Hfound|].
    apply find_some in Hfound. exact (proj2 Hfound).
  - repeat split.
Qed.

Lemma toggle_flips_the_active_flag_witness :
  exists u' : User,
    route Sample.libs Sample.env UpdateUser toggle_john Sample.store =
      (respond 200 (select_minus "password" (toJSON u')),
       User.replace_doc (req_id toggle_john) u' Sample.store) /\
    User.findById (User.replace_doc (req_id toggle_john) u' Sample.store)
      (req_id toggle_john) = Ok (Some u') /\
    isActive u' = negb (isActive Sample.john) /\
    updatedAt u' = now Sample.env /\
    with_active (isActive Sample.john) u' =
      {| _id := _id Sample.john; name := name Sample.john; email := email Sample.john;
         password := password Sample.john; role := role Sample.john;
         isActive := isActive Sample.john; createdAt := createdAt Sample.john;
         updatedAt := now Sample.env |}.
Proof.
  apply (toggle_flips_the_active_flag Sample.libs Sample.env toggle_john Sample.store
           Sample.john).
  - eexists. split; reflexivity.
  - reflexivity.
  - reflexivity.
Defined.

(** ** What the active flag does not do *)

Lemma find_map_with_active (f : User -> bool) (a : bool) (l : list User) :
  (forall u, f (with_active a u) = f u) ->
  List.find f (map (with_active a) l) = option_map (with_active a) (List.find f l).
Proof.
  intros Hf. induction l as [|u l IH]; [reflexivity|].
  cbn [map List.find]. rewrite Hf. destruct (f u); [reflexivity|exact IH].
Qed.

Lemma auth_with_active L E req store a user :
  auth L E req store = inr user ->
  exists user',
    auth L E req (map (with_active a) store) = inr user' /\
    adminAuth user' = adminAuth user.
Proof.
  unfold auth.
  destruct (bearer req) as [t|]; [|discriminate].
  destruct (String.eqb t ""); [discriminate|].
  destruct (jwt.verify L (now E) t (JWT_SECRET E)) as [decoded|e]; [|discriminate].
  cbn [bind]. unfold find_subject.
  destruct (lookup "id" decoded) as [[| | |id| |]|]; try discriminate.
  unfold User.findById. destruct (User.is_object_id id); [|discriminate].
  rewrite find_map_with_active by reflexivity.
  destruct (List.find (User.has_id id) store) as [u|]; [|discriminate].
  intros [= <-]. cbn [option_map]. eexists. split; reflexivity.
Qed.

(** X15.  Neither the guard nor the login looks at the active flag: a
    request the guard lets through is still let through, and a login is
    answered with the same status, when the flags of the stored users are
    all set to any value, in particular when every user is switched
    off. *)
Theorem active_flag_is_not_enforced :
  forall (L : Libs) (E : Env) (req : Request) (store : Store) (a : bool),
    (admitted L E req store -> admitted L E req (map (with_active a) store)) /\
    status (fst (login L E req (map (with_active a) store))) =
      status (fst (login L E req store)).
Proof.
  intros L E req store a. split.
  - intros [user [Hauth Hadmin]].
    destruct (auth_with_active L E req store a user Hauth) as [user' [Hauth' Hadmin']].
    exists user'. split; [exact Hauth'|congruence].
  - unfold login, User.findOne.
    destruct (b_email (req_body req)) as [e|]; [|reflexivity].
    rewrite find_map_with_active by reflexivity.
    destruct (List.find _ store) as [u|]; [|reflexivity].
    cbn [option_map]. unfold userSchema.comparePassword.
    destruct (b_password (req_body req)) as [p|]; [|reflexivity].
    cbn [password with_active].
    destruct (bcrypt_compare L p (password u)); reflexivity.
Qed.

Lemma active_flag_is_not_enforced_witness :
  admitted Sample.libs Sample.env second_page (map (with_active false) Sample.store) /\
  status (fst (login Sample.libs Sample.env login_admin
                 (map (with_active false) Sample.store))) = 200.
Proof.
  destruct (active_flag_is_not_enforced Sample.libs Sample.env second_page Sample.store false)
    as [Hguard _].
  destruct (active_flag_is_not_enforced Sample.libs Sample.env login_admin Sample.store false)
    as [_ Hlogin].
  split.
  - apply Hguard. eexists. split; reflexivity.
  - rewrite Hlogin. reflexivity.
Defined.

(** ** Updates that carry a password, in general *)

(** X16.  No update that supplies a non-empty password is ever carried
    out: whoever sends it, the collection is left as it was, and when the
    guard lets the request through the answer is 500, whether or not the
    identifier is stored. *)
Theorem update_with_password_never_succeeds :
  forall (L : Libs) (E : Env) (req : Request) (store : Store),
    JS.truthy (b_password (req_body req)) = true ->
    snd (route L E UpdateUser req store) = store /\
    status (fst (route L E UpdateUser req store)) <> 200 /\
    (admitted L E req store ->
     route L E UpdateUser req store = (respond 500 (msg "Server error"), store)).
Proof.
  intros L E req store Hpassword.
  pose proof (update_with_password_throws L E req store Hpassword) as Hthrows.
  cbn [route]. unfold guarded.
  destruct (auth_cases L E req store) as [[text Hauth]|[u [_ Hauth]]]; rewrite Hauth.
  - repeat split; [discriminate|].
    intros [user [Hauth' _]]. congruence.
  - destruct (adminAuth _) as [denied|] eqn:Hadmin.
    + pose proof (adminAuth_denied _ _ Hadmin) as Hdenied. subst denied.
      repeat split; [discriminate|].
      intros [user [Hauth' Hadmin']].
      rewrite Hauth in Hauth'.
      apply (f_equal (fun x : Response + json =>
                        match x with
                        | inr y => adminAuth y
                        | inl _ => None
                        end)) in Hauth'.
      cbv beta iota in Hauth'. congruence.
    + rewrite Hthrows. repeat split. discriminate.
Qed.

Lemma update_with_password_never_succeeds_witness :
  snd (route Sample.libs Sample.env UpdateUser reset_john Sample.store) = Sample.store /\
  status (fst (route Sample.libs Sample.env UpdateUser reset_john Sample.store)) <> 200 /\
  (admitted Sample.libs Sample.env reset_john Sample.store ->
   route Sample.libs Sample.env UpdateUser reset_john Sample.store
     = (respond 500 (msg "Server error"), Sample.store)).
Proof.
  apply (update_with_password_never_succeeds Sample.libs Sample.env reset_john Sample.store).
  reflexivity.
Defined.

(** ** Logging in *)




(** * Properties of the client *)

(** ** Logging in and out *)




(** X19.  After [logout] the client sends no authorization header, so
    that every guarded route answers its requests 401; and with the
    session loaded, the admin page leads to the login form. *)
Theorem logout_ends_the_session :
  forall (L : Libs) (E : Env) (s : Client.Session) (req : Request) (store : Store)
         (handler : Request -> Store -> Response * Store),
    req_authorization req = Client.request_authorization (Client.logout s) ->
    denied 401 store (guarded L E handler req store) /\
    (Client.loading s = false ->
     Client.follow 1 (Client.logout s) "/admin" = Client.LoginPage).
Proof.
  intros L E s req store handler Hheader. split.
  - apply guarded_no_token. unfold bearer. rewrite Hheader. reflexivity.
  - intros Hloaded. unfold Client.follow, Client.App. cbn [Client.logout Client.loading].
    rewrite Hloaded. reflexivity.
Qed.

Lemma logout_ends_the_session_witness :
  denied 401 Sample.store
    (guarded Sample.libs Sample.env (list_users Sample.libs) (list_as None) Sample.store) /\
  (Client.loading fresh_session = false ->
   Client.follow 1 (Client.logout fresh_session) "/admin" = Client.LoginPage).
Proof.
  apply (logout_ends_the_session Sample.libs Sample.env fresh_session (list_as None)
           Sample.store (list_users Sample.libs)).
  reflexivity.
Defined.

(** ** The routes of the application *)

Lemma redirect_loop (s : Client.Session) :
  Client.loading s = false ->
  Client.user s <> None ->
  Client.is_admin s = false ->
  forall fuel,
    (exists to, Client.follow fuel s "/admin" = Client.Navigate to) /\
    (exists to, Client.follow fuel s "/login" = Client.Navigate to).
Proof.
  intros Hloaded Huser Hadmin.
  assert (Hgo_admin : Client.App s "/admin" = Client.Navigate "/login").
  { unfold Client.App. rewrite Hloaded, Hadmin. reflexivity. }
  assert (Hgo_login : Client.App s "/login" = Client.Navigate "/admin").
  { unfold Client.App. rewrite Hloaded. cbn.
    destruct (Client.user s); [reflexivity|contradiction]. }
  induction fuel as [|fuel [IHadmin IHlogin]].
  - cbn [Client.follow]. rewrite Hgo_admin, Hgo_login. split; eexists; reflexivity.
  - cbn [Client.follow]. rewrite Hgo_admin, Hgo_login. split; assumption.
Qed.

(** X20.  A signed-in user whose session role is not [admin] never
    reaches a page from [/admin] or from [/login]: the admin route sends
    to the login route and the login route back to the admin route,
    however many redirections are followed. *)
Theorem non_admin_session_redirects_forever :
  forall (s : Client.Session),
    Client.loading s = false ->
    Client.user s <> None ->
    Client.is_admin s = false ->
    Client.App s "/admin" = Client.Navigate "/login" /\
    Client.App s "/login" = Client.Navigate "/admin" /\
    forall fuel,
      (exists to, Client.follow fuel s "/admin" = Client.Navigate to) /\
      (exists to, Client.follow fuel s "/login" = Client.Navigate to).
Proof.
  intros s Hloaded Huser Hadmin. split; [|split].
  - unfold Client.App. rewrite Hloaded, Hadmin. reflexivity.
  - unfold Client.App. rewrite Hloaded. cbn.
    destruct (Client.user s); [reflexivity|contradiction].
  - apply redirect_loop; assumption.
Qed.

(** X21.  Reloading the page forgets the role: a session restored from a
    token the server issued, while the token is not expired, holds the
    identifier of the user and no role, because the server's tokens carry
    none.  Such a session is not an administrator's, whatever the stored
    role, and its admin and login routes redirect to each other. *)
Theorem reload_forgets_the_role :
  forall (B : Client.Browser) (L : Libs) (E : Env) (u : User) (clock : Z)
         (s : Client.Session),
    Client.jwtDecode B (jwt_serialize L (issue_token L E u)) =
      Some (jwt_payload (issue_token L E u)) ->
    Client.stored_token s = Some (jwt_serialize L (issue_token L E u)) ->
    jwt_serialize L (issue_token L E u) <> "" ->
    clock < (now E / 1000 + 3600) * 1000 ->
    Client.user (Client.restore B clock s) =
      Some {| Client.user_id := Some (JStr (_id u)); Client.user_role := None |} /\
    Client.is_admin (Client.restore B clock s) = false /\
    forall fuel,
      exists to, Client.follow fuel (Client.restore B clock s) "/admin" = Client.Navigate to.
Proof.
  intros B L E u clock s Hdecode Hstored Hne Hfresh.
  assert (Hrestore :
            Client.restore B clock s =
              {| Client.stored_token := Some (jwt_serialize L (issue_token L E u));
                 Client.default_authorization :=
                   Some ("Bearer " ++ jwt_serialize L (issue_token L E u));
                 Client.user := Some {| Client.user_id := Some (JStr (_id u));
                                        Client.user_role := None |};
                 Client.loading := false |}).
  { unfold Client.restore. rewrite Hstored. cbn [JS.truthy].
    apply String.eqb_neq in Hne. rewrite Hne. cbn [negb]. rewrite Hdecode.
    change (lookup "exp" (jwt_payload (issue_token L E u)))
      with (Some (JNum (now E / 1000 + 3600))).
    cbn [Client.not_expired]. apply Z.ltb_lt in Hfresh. rewrite Hfresh. reflexivity. }
  rewrite Hrestore. split; [reflexivity|]. split; [reflexivity|].
  intros fuel. apply redirect_loop; [reflexivity|discriminate|reflexivity].
Qed.

Lemma reload_forgets_the_role_witness :
  Client.user (Client.restore sample_browser 1700000001000 reloaded_admin) =
    Some {| Client.user_id := Some (JStr (_id Sample.admin)); Client.user_role := None |} /\
  Client.is_admin (Client.restore sample_browser 1700000001000 reloaded_admin) = false /\
  forall fuel,
    exists to,
      Client.follow fuel (Client.restore sample_browser 1700000001000 reloaded_admin) "/admin"
        = Client.Navigate to.
Proof.
  apply (reload_forgets_the_role sample_browser Sample.libs Sample.env Sample.admin
           1700000001000 reloaded_admin).
  - reflexivity.
  - reflexivity.
  - cbv. discriminate.
  - reflexivity.
Defined.

Lemma non_admin_session_redirects_forever_witness :
  Client.App (Client.restore sample_browser 1700000001000 reloaded_john) "/admin"
    = Client.Navigate "/login" /\
  Client.App (Client.restore sample_browser 1700000001000 reloaded_john) "/login"
    = Client.Navigate "/admin" /\
  forall fuel,
    (exists to,
        Client.follow fuel (Client.restore sample_browser 1700000001000 reloaded_john)
          "/admin" = Client.Navigate to) /\
    (exists to,
        Client.follow fuel (Client.restore sample_browser 1700000001000 reloaded_john)
          "/login" = Client.Navigate to).
Proof.
  apply (non_admin_session_redirects_forever
           (Client.restore sample_browser 1700000001000 reloaded_john)).
  - reflexivity.
  - discriminate.
  - reflexivity.
Defined.

(** ** The column headers and the sort parameter *)

Lemma split_colon_field (f d : string) :
  no_colon f = true ->
  JS.split_colon (f ++ String ":" d) =
    (f, fst (JS.split_colon d) :: snd (JS.split_colon d)).
Proof.
  induction f as [|c f IH]; intros Hf.
  - cbn [append JS.split_colon]. destruct (JS.split_colon d) as [h t]. reflexivity.
  - cbn [no_colon] in Hf. apply andb_true_iff in Hf. destruct Hf as [Hc Hf].
    apply negb_true_iff in Hc.
    cbn [append JS.split_colon]. rewrite (IH Hf), Hc. reflexivity.
Qed.

Lemma sort_of_field_direction (f x : string) :
  no_colon f = true -> no_colon x = true ->
  sort_of (only_sort (Some (f ++ ":" ++ x))) =
    (f, if String.eqb x "desc" then -1 else 1).
Proof.
  intros Hf Hx. unfold sort_of. cbn [q_sort only_sort].
  assert (Hne : String.eqb (f ++ ":" ++ x) "" = false) by (destruct f; reflexivity).
  rewrite Hne. change (f ++ ":" ++ x) with (f ++ String ":" x).
  rewrite (split_colon_field f x Hf).
  assert (Hsplit : JS.split_colon x = (x, [])).
  { clear Hne. induction x as [|c x IH]; [reflexivity|].
    cbn [no_colon] in Hx. apply andb_true_iff in Hx. destruct Hx as [Hc Hx].
    apply negb_true_iff in Hc. cbn [JS.split_colon]. rewrite (IH Hx), Hc. reflexivity. }
  rewrite Hsplit. reflexivity.
Qed.

(** X22.  A click on a column header of the table, for a column name
    without a colon, produces a sort parameter the server reads as a sort
    on that column; the direction is descending when the table was sorted
    on that column ascending and ascending otherwise, and a second click
    on the same header reverses it. *)
Theorem column_click_sorts_that_column :
  forall (sort_ field : string),
    no_colon field = true ->
    exists direction : Z,
      (direction = 1 \/ direction = -1) /\
      sort_of (only_sort (Some (Client.handleSort sort_ field))) = (field, direction) /\
      sort_of (only_sort (Some (Client.handleSort (Client.handleSort sort_ field) field)))
        = (field, - direction) /\
      (sort_ = field ++ ":asc" -> direction = -1) /\
      (fst (JS.split_colon sort_) <> field -> direction = 1).
Proof.
  intros sort_ field Hfield.
  assert (Hnext : forall x, no_colon x = true ->
            Client.handleSort (field ++ ":" ++ x) field =
              field ++ ":" ++ (if String.eqb x "asc" then "desc" else "asc")).
  { intros x Hx. unfold Client.handleSort.
    change (field ++ ":" ++ x) with (field ++ String ":" x).
    rewrite (split_colon_field field x Hfield).
    assert (Hsplit : JS.split_colon x = (x, [])).
    { induction x as [|c x IH]; [reflexivity|].
      cbn [no_colon] in Hx. apply andb_true_iff in Hx. destruct Hx as [Hc Hx].
      apply negb_true_iff in Hc. cbn [JS.split_colon]. rewrite (IH Hx), Hc. reflexivity. }
    rewrite Hsplit. cbn [fst snd]. rewrite String.eqb_refl. reflexivity. }
  destruct (JS.split_colon sort_) as [currentField rest] eqn:Hsplit.
  set (ascending := match rest with
                    | direction :: _ => String.eqb direction "asc"
                    | [] => false
                    end).
  assert (Hfirst : Client.handleSort sort_ field =
                     field ++ ":" ++
                     (if String.eqb currentField field && ascending then "desc" else "asc")).
  { unfold Client.handleSort. rewrite Hsplit. reflexivity. }
  rewrite Hfirst.
  destruct (String.eqb currentField field && ascending) eqn:Hcase.
  - exists (-1). split; [now right|].
    rewrite (Hnext "desc" eq_refl).
    rewrite !sort_of_field_direction by (assumption || reflexivity).
    repeat split.
    intros Hother. apply andb_true_iff in Hcase. destruct Hcase as [Hcase _].
    apply String.eqb_eq in Hcase. cbn [fst] in Hother. contradiction.
  - exists 1. split; [now left|].
    rewrite (Hnext "asc" eq_refl).
    rewrite !sort_of_field_direction by (assumption || reflexivity).
    repeat split.
    intros ->. exfalso.
    change (field ++ ":asc") with (field ++ String ":" "asc") in Hsplit.
    rewrite (split_colon_field field "asc" Hfield) in Hsplit.
    injection Hsplit as <- <-. subst ascending.
    rewrite String.eqb_refl in Hcase. discriminate Hcase.
Qed.

Lemma column_click_sorts_that_column_witness :
  exists direction : Z,
    (direction = 1 \/ direction = -1) /\
    sort_of (only_sort (Some (Client.handleSort "createdAt:desc" "name")))
      = ("name", direction) /\
    sort_of (only_sort (Some (Client.handleSort (Client.handleSort "createdAt:desc" "name")
                                "name")))
      = ("name", - direction) /\
    ("createdAt:desc" = "name" ++ ":asc" -> direction = -1) /\
    (fst (JS.split_colon "createdAt:desc") <> "name" -> direction = 1).
Proof.
  apply (column_click_sorts_that_column "createdAt:desc" "name").
  reflexivity.
Defined.

(** ** Numeric parameters *)

Lemma digit_facts (c : ascii) :
  JS.is_digit c = true ->
  Ascii.eqb "x" c = false /\ Ascii.eqb "X" c = false /\
  exists d, JS.digit_value c = Some d /\ 0 <= d < 10.
Proof.
  destruct c as [[] [] [] [] [] [] [] []]; intros H; try discriminate H;
    (split; [reflexivity|split; [reflexivity|]];
     eexists; split; [reflexivity|]; cbv; split; [discriminate|reflexivity]).
Qed.

Lemma parseInt_unsigned (c : ascii) (rest : string) :
  JS.is_digit c = true ->
  JS.parseInt (Some (String c rest)) = JS.unsigned_int (String c rest).
Proof.
  intros Hdigit. unfold JS.parseInt, JS.trimStart.
  cbn [String.length JS.strip].
  assert (Hwidth : JS.space_width (String c rest) = 0%nat).
  { destruct c as [[] [] [] [] [] [] [] []]; try discriminate Hdigit;
      destruct rest as [|b [|c' rest]]; reflexivity. }
  rewrite Hwidth.
  destruct c as [[] [] [] [] [] [] [] []]; try discriminate Hdigit; reflexivity.
Qed.

Lemma digits_decimal (s : string) (acc : option Z) :
  forallb JS.is_digit (list_ascii_of_string s) = true ->
  (match acc with Some a => 0 <= a | None => s <> "" end) ->
  exists n, JS.digits 10 s acc = Some n /\
            0 <= n < (match acc with Some a => a | None => 0 end + 1)
                     * 10 ^ Z.of_nat (String.length s).
Proof.
  revert acc. induction s as [|c s IH]; intros acc Hall Hacc.
  - destruct acc as [a|]; [|contradiction].
    exists a. split; [reflexivity|]. cbn [String.length Z.of_nat]. lia.
  - cbn [list_ascii_of_string forallb] in Hall. apply andb_true_iff in Hall.
    destruct Hall as [Hc Hall].
    destruct (digit_facts c Hc) as [_ [_ [d [Hd Hrange]]]].
    cbn [JS.digits]. rewrite Hd.
    destruct (Z.ltb_spec d 10) as [_|Hge]; [|lia].
    destruct (IH (Some (10 * match acc with Some a => a | None => 0 end + d)) Hall)
      as [n [Hn Hbound]].
    { destruct acc as [a|]; lia. }
    exists n. split; [exact Hn|].
    cbn [String.length]. rewrite Nat2Z.inj_succ, Z.pow_succ_r by lia.
    assert (Hpow : 0 < 10 ^ Z.of_nat (String.length s)) by (apply Z.pow_pos_nonneg; lia).
    assert (Hacc' : 0 <= match acc with Some a => a | None => 0 end)
      by (destruct acc; lia).
    nia.
Qed.

Lemma parseInt_decimal (s : string) :
  decimal s = true ->
  exists n, JS.parseInt (Some s) = Some n /\ 0 <= n < 10 ^ Z.of_nat (String.length s).
Proof.
  unfold decimal. intros H. apply andb_true_iff in H. destruct H as [Hne Hall].
  destruct s as [|c s]; [discriminate Hne|].
  pose proof Hall as Hall'.
  cbn [list_ascii_of_string forallb] in Hall'. apply andb_true_iff in Hall'.
  destruct Hall' as [Hc Hs].
  rewrite (parseInt_unsigned c s Hc).
  assert (Hprefix : String.prefix "0x" (String c s) || String.prefix "0X" (String c s) = false).
  { cbn [String.prefix].
    destruct s as [|d s].
    - destruct (ascii_dec "0" c); reflexivity.
    - cbn [list_ascii_of_string forallb] in Hs. apply andb_true_iff in Hs.
      destruct Hs as [Hd _].
      destruct (digit_facts d Hd) as [Hx [HX _]].
      apply Ascii.eqb_neq in Hx, HX.
      destruct (ascii_dec "0" c); [|reflexivity].
      cbn [String.prefix].
      destruct (ascii_dec "x" d); [contradiction|].
      destruct (ascii_dec "X" d); [contradiction|]. reflexivity. }
  unfold JS.unsigned_int. rewrite Hprefix.
  destruct (digits_decimal (String c s) None Hall ltac:(discriminate)) as [n [Hn Hbound]].
  exists n. split; [exact Hn|]. lia.
Qed.

(** X23.  When the page and the page size are sent as decimal digits, at
    most seven of them, or left out, the effective page and the effective
    page size are at least 1, the skip is not negative, and the three are
    within the range in which the numbers of the source are exact: the
    listing is never refused for its pagination. *)
Theorem decimal_parameters_paginate :
  forall q : QueryParams,
    short_decimal (q_page q) ->
    short_decimal (q_limit q) ->
    1 <= current_page q /\
    1 <= limit (getPaginationSort q) /\
    0 <= skip (getPaginationSort q) /\
    JS.safe (current_page q) /\
    JS.safe (limit (getPaginationSort q)) /\
    JS.safe (skip (getPaginationSort q)).
Proof.
  intros q Hpage Hlimit.
  assert (Hdefault : forall raw d,
            1 <= d < 10 ^ 7 ->
            short_decimal raw ->
            1 <= JS.num_or (JS.parseInt raw) d < 10 ^ 7).
  { intros raw d Hd Hraw. destruct raw as [s|]; [|exact Hd].
    destruct Hraw as [Hdecimal Hshort].
    destruct (parseInt_decimal s Hdecimal) as [n [-> Hn]]. cbn [JS.num_or].
    assert (Hpow : 10 ^ Z.of_nat (String.length s) <= 10 ^ 7)
      by (apply Z.pow_le_mono_r; lia).
    destruct (Z.eqb_spec n 0); lia. }
  pose proof (Hdefault (q_page q) 1 ltac:(lia) Hpage) as H1.
  pose proof (Hdefault (q_limit q) 10 ltac:(lia) Hlimit) as H2.
  unfold JS.safe, JS.MAX_SAFE_INTEGER.
  cbn [skip limit getPaginationSort]. fold (current_page q) in H1.
  set (page := current_page q) in *.
  set (size := JS.num_or (JS.parseInt (q_limit q)) 10) in *.
  change (10 ^ 7) with 10000000 in *. change (2 ^ 53 - 1) with 9007199254740991.
  repeat split; nia.
Qed.

Lemma decimal_parameters_paginate_witness :
  1 <= current_page (page_and_limit (Some "3") (Some "10")) /\
  1 <= limit (getPaginationSort (page_and_limit (Some "3") (Some "10"))) /\
  0 <= skip (getPaginationSort (page_and_limit (Some "3") (Some "10"))) /\
  JS.safe (current_page (page_and_limit (Some "3") (Some "10"))) /\
  JS.safe (limit (getPaginationSort (page_and_limit (Some "3") (Some "10")))) /\
  JS.safe (skip (getPaginationSort (page_and_limit (Some "3") (Some "10")))).
Proof.
  apply (decimal_parameters_paginate (page_and_limit (Some "3") (Some "10")));
    (split; [reflexivity|cbn; lia]).
Defined.

(** * Seeding *)

Lemma create_one_seeded L E seed store :
  In seed defaultUsers ->
  existsb (fun u => String.eqb (_id u) (fresh_id E)) store = false ->
  User.email_taken store (fresh_id E) (seed_email seed) = false ->
  create_one L E seed store =
    Ok (seeded_user L E seed, (store ++ [seeded_user L E seed])%list).
Proof.
  intros Hseed Hid Hemail. unfold create_one, User.save.
  assert (Hvalid : userSchema.validate (Some (seed_name seed)) (Some (seed_email seed))
                     (Some (seed_password seed)) (seed_role seed) = Ok tt
                   /\ JS.trim (seed_name seed) = seed_name seed
                   /\ JS.toLowerCase (seed_email seed) = seed_email seed).
  { destruct Hseed as [<-|[<-|[<-|[<-|[]]]]]; repeat split. }
  destruct Hvalid as [Hvalid [Htrim Hlower]].
  rewrite Hvalid. cbn [bind]. unfold userSchema.pre_save.
  cbn [negb _id email option_map User.or_current]. rewrite Htrim, Hlower, Hid, Hemail.
  reflexivity.
Qed.

Lemma seed_nonempty_store (L : Libs) (supply : nat -> Env) (arrival : list nat)
    (store : Store) :
  store <> [] -> seedUsers L supply arrival store = store.
Proof.
  intros Hne. unfold seedUsers. destruct store as [|u store]; [contradiction|].
  reflexivity.
Qed.

Lemma seeded_users_In L supply positions u :
  In u (seeded_users L supply positions) ->
  exists k seed, In k positions /\ nth_error defaultUsers k = Some seed /\
                 u = seeded_user L (supply k) seed.
Proof.
  unfold seeded_users. intros Hin. apply in_flat_map in Hin.
  destruct Hin as [k [Hk Hin]].
  destruct (nth_error defaultUsers k) as [seed|] eqn:Hseed; [|destruct Hin].
  destruct Hin as [<-|[]]. exists k, seed. auto.
Qed.

Lemma seed_emails_distinct (i j : nat) (si sj : Seed) :
  nth_error defaultUsers i = Some si ->
  nth_error defaultUsers j = Some sj ->
  seed_email si = seed_email sj ->
  i = j.
Proof.
  destruct i as [|[|[|[|i]]]], j as [|[|[|[|j]]]]; cbn;
    intros Hi Hj; try (destruct i; discriminate Hi); try (destruct j; discriminate Hj);
    injection Hi as <-; injection Hj as <-; intros H; try reflexivity; discriminate H.
Qed.

Lemma NoDup_map_injective {A B : Type} (f : A -> B) (l : list A) (i j : A) :
  NoDup (map f l) -> In i l -> In j l -> f i = f j -> i = j.
Proof.
  induction l as [|a l IH]; intros Hnodup Hi Hj Hf; [destruct Hi|].
  cbn [map] in Hnodup. apply NoDup_cons_iff in Hnodup. destruct Hnodup as [Ha Hl].
  destruct Hi as [->|Hi], Hj as [->|Hj].
  - reflexivity.
  - exfalso. apply Ha. rewrite Hf. apply in_map. exact Hj.
  - exfalso. apply Ha. rewrite <- Hf. apply in_map. exact Hi.
  - apply IH; assumption.
Qed.

Lemma position_of_seed (k : nat) (seed : Seed) :
  nth_error defaultUsers k = Some seed -> In k (seq 0 4).
Proof.
  intros Hseed. apply in_seq.
  assert (Hlt : (k < List.length defaultUsers)%nat)
    by (apply nth_error_Some; congruence).
  cbn in Hlt. lia.
Qed.

(** Whatever the order of arrival, documents at distinct positions, with
    distinct identifiers, are all accepted. *)
Lemma create_all_seeded (L : Libs) (supply : nat -> Env) :
  NoDup (map (fun k => fresh_id (supply k)) (seq 0 4)) ->
  forall arrival done,
    NoDup (done ++ arrival)%list ->
    (forall k, In k arrival -> In k (seq 0 4)) ->
    create_all L supply defaultUsers arrival (seeded_users L supply done) =
      seeded_users L supply (done ++ arrival)%list.
Proof.
  intros Hids arrival. induction arrival as [|k rest IH]; intros done Hnodup Hrange.
  - rewrite app_nil_r. reflexivity.
  - cbn [create_all].
    assert (Hk : In k (seq 0 4)) by (apply Hrange; now left).
    destruct (nth_error defaultUsers k) as [seed|] eqn:Hseed.
    2:{ exfalso. apply in_seq in Hk. apply nth_error_None in Hseed. cbn in Hseed. lia. }
    assert (Hnew : ~ In k done).
    { intros Hin. apply NoDup_remove_2 in Hnodup. apply Hnodup.
      apply in_or_app. now left. }
    rewrite (create_one_seeded L (supply k) seed).
    + replace (seeded_users L supply done ++ [seeded_user L (supply k) seed])%list
        with (seeded_users L supply (done ++ [k])%list).
      2:{ unfold seeded_users. rewrite flat_map_app. cbn [flat_map].
          rewrite Hseed. reflexivity. }
      rewrite IH.
      * rewrite <- app_assoc. reflexivity.
      * rewrite <- app_assoc. exact Hnodup.
      * intros j Hj. apply Hrange. now right.
    + eapply nth_error_In. exact Hseed.
    + destruct (existsb _ _) eqn:Hex; [|reflexivity]. exfalso.
      apply existsb_exists in Hex. destruct Hex as [u [Hin Hid]].
      apply String.eqb_eq in Hid.
      apply seeded_users_In in Hin. destruct Hin as [j [sj [Hj [Hsj ->]]]].
      cbn [seeded_user _id] in Hid.
      apply Hnew.
      rewrite <- (NoDup_map_injective (fun k => fresh_id (supply k)) (seq 0 4) j k Hids);
        [exact Hj|eapply position_of_seed; exact Hsj|exact Hk|exact Hid].
    + unfold User.email_taken.
      destruct (existsb _ _) eqn:Hex; [|reflexivity]. exfalso.
      apply existsb_exists in Hex. destruct Hex as [u [Hin Hmail]].
      apply andb_true_iff in Hmail. destruct Hmail as [Hmail _].
      apply String.eqb_eq in Hmail.
      apply seeded_users_In in Hin. destruct Hin as [j [sj [Hj [Hsj ->]]]].
      cbn [seeded_user email] in Hmail.
      apply Hnew. rewrite <- (seed_emails_distinct j k sj seed Hsj Hseed Hmail).
      exact Hj.
Qed.

Lemma consistent_permutation (store store' : Store) :
  Permutation.Permutation store store' -> consistent store -> consistent store'.
Proof.
  intros Hperm [Hids [Hemails Hroles]]. repeat split.
  - apply (Permutation.Permutation_NoDup (Permutation.Permutation_map _id Hperm) Hids).
  - apply (Permutation.Permutation_NoDup (Permutation.Permutation_map email Hperm) Hemails).
  - intros u Hin. apply Hroles.
    apply (Permutation.Permutation_in u (Permutation.Permutation_sym Hperm) Hin).
Qed.

Lemma seeding_result (L : Libs) (supply : nat -> Env) (arrival : list nat) :
  Permutation.Permutation arrival (seq 0 4) ->
  NoDup (map (fun k => fresh_id (supply k)) (seq 0 4)) ->
  seedUsers L supply arrival [] = seeded_users L supply arrival /\
  Permutation.Permutation (seedUsers L supply arrival []) (seeded_users L supply (seq 0 4)) /\
  consistent (seedUsers L supply arrival []).
Proof.
  intros Harrival Hids.
  assert (Hresult : seedUsers L supply arrival [] = seeded_users L supply arrival).
  { unfold seedUsers. cbn [List.length Z.of_nat Z.ltb Z.compare].
    apply (create_all_seeded L supply Hids arrival []).
    - cbn [app].
      apply (Permutation.Permutation_NoDup (Permutation.Permutation_sym Harrival)).
      apply seq_NoDup.
    - intros k Hk. apply (Permutation.Permutation_in k Harrival Hk). }
  assert (Hperm : Permutation.Permutation (seeded_users L supply arrival)
                    (seeded_users L supply (seq 0 4))).
  { unfold seeded_users. apply Permutation.Permutation_flat_map. exact Harrival. }
  rewrite Hresult. split; [reflexivity|]. split; [exact Hperm|].
  apply (consistent_permutation _ _ (Permutation.Permutation_sym Hperm)).
  cbn [map seq] in Hids.
  apply NoDup_cons_iff in Hids. destruct Hids as [H0 Hids].
  apply NoDup_cons_iff in Hids. destruct Hids as [H1 Hids].
  apply NoDup_cons_iff in Hids. destruct Hids as [H2 _].
  cbn [In] in H0, H1, H2.
  unfold seeded_users, defaultUsers. cbn [seq flat_map nth_error app].
  repeat split.
  + unfold unique_ids. cbn [map seeded_user _id].
    repeat constructor; cbn [In]; intuition congruence.
  + unfold unique_emails. cbn. repeat constructor; cbn; intuition discriminate.
  + intros u [<-|[<-|[<-|[<-|[]]]]]; cbn; auto.
Qed.

(** X24.  Seeding is safe to repeat.  On a collection that holds a user it
    does nothing, and a run repeated as it was changes nothing more.  On
    an empty collection, with four distinct identifiers to draw and
    whatever the order in which the four insertions arrive, it stores the
    four default users, each once, in the order of arrival and with its
    password hashed with 12 rounds; the result is a consistent collection,
    and no later run, whatever it draws, changes it. *)
Theorem seeding_fills_an_empty_collection_once :
  forall (L : Libs) (supply : nat -> Env) (arrival : list nat) (store : Store),
    (store <> [] -> seedUsers L supply arrival store = store) /\
    seedUsers L supply arrival (seedUsers L supply arrival store)
      = seedUsers L supply arrival store /\
    (Permutation.Permutation arrival (seq 0 4) ->
     NoDup (map (fun k => fresh_id (supply k)) (seq 0 4)) ->
     seedUsers L supply arrival [] = seeded_users L supply arrival /\
     Permutation.Permutation (seedUsers L supply arrival [])
       (seeded_users L supply (seq 0 4)) /\
     consistent (seedUsers L supply arrival []) /\
     forall (supply' : nat -> Env) (arrival' : list nat),
       seedUsers L supply' arrival' (seedUsers L supply arrival [])
         = seedUsers L supply arrival []).
Proof.
  intros L supply arrival store. split; [apply seed_nonempty_store|]. split.
  - destruct store as [|u store]; [|reflexivity].
    destruct (seedUsers L supply arrival []) as [|v rest] eqn:Hrun.
    + exact Hrun.
    + reflexivity.
  - intros Harrival Hids.
    destruct (seeding_result L supply arrival Harrival Hids) as [Hresult [Hperm Hconsistent]].
    split; [exact Hresult|]. split; [exact Hperm|]. split; [exact Hconsistent|].
    intros supply' arrival'. apply seed_nonempty_store.
    intros Hnil. rewrite Hnil in Hperm.
    apply Permutation.Permutation_nil in Hperm. discriminate Hperm.
Qed.

Lemma seeding_fills_an_empty_collection_once_witness :
  seedUsers Sample.libs sample_supply [1; 0; 3; 2]%nat []
    = [Sample.john; Sample.admin; Sample.bob; Sample.jane] /\
  Permutation.Permutation (seedUsers Sample.libs sample_supply [1; 0; 3; 2]%nat [])
    Sample.store /\
  consistent (seedUsers Sample.libs sample_supply [1; 0; 3; 2]%nat []).
Proof.
  destruct (seeding_fills_an_empty_collection_once Sample.libs sample_supply
              [1; 0; 3; 2]%nat [])
    as [_ [_ Hfill]].
  destruct Hfill as [Hresult [Hperm [Hconsistent _]]].
  - eapply Permutation.perm_trans; [apply Permutation.perm_swap|].
    do 2 apply Permutation.perm_skip. apply Permutation.perm_swap.
  - cbn. repeat constructor; cbn; intuition discriminate.
  - split; [rewrite Hresult; reflexivity|]. split; [exact Hperm|exact Hconsistent].
Defined.

Lemma find_seeded_admin (L : Libs) (supply : nat -> Env) (arrival : list nat) :
  (forall k, In k arrival -> In k (seq 0 4)) ->
  In 0%nat arrival ->
  List.find (fun u => String.eqb (email u) "admin@example.com")
    (seeded_users L supply arrival)
  = option_map (seeded_user L (supply 0%nat)) (nth_error defaultUsers 0).
Proof.
  induction arrival as [|k rest IH]; intros Hrange Hzero; [destruct Hzero|].
  assert (Hk : In k (seq 0 4)) by (apply Hrange; now left).
  cbn [seq In] in Hk.
  destruct Hk as [<-|[<-|[<-|[<-|[]]]]]; try reflexivity;
    (destruct Hzero as [Hzero|Hzero]; [discriminate Hzero|];
     unfold seeded_users; cbn [flat_map nth_error defaultUsers app List.find seeded_user email
                               seed_email];
     match goal with |- (if ?c then _ else _) = _ => change c with false end;
     cbv iota;
     exact (IH (fun j Hj => Hrange j (or_intror Hj)) Hzero)).
Qed.

(** X25.  After the first start on an empty collection, the default
    administrator can log in: with four distinct identifiers drawn for the
    seeds, whatever the order in which the four insertions arrive, and a
    hashing library that accepts the administrator's seeded hash for its
    plaintext, a login with [admin@example.com] and [admin123] is answered
    200 with a token for the seeded administrator, whose role in the
    response is [admin]. *)
Theorem seeded_admin_can_log_in :
  forall (L : Libs) (supply : nat -> Env) (arrival : list nat) (E : Env) (req : Request),
    Permutation.Permutation arrival (seq 0 4) ->
    NoDup (map (fun k => fresh_id (supply k)) (seq 0 4)) ->
    bcrypt_compare L "admin123" (bcrypt_hash L "admin123" 12 (salt (supply 0%nat))) = true ->
    b_email (req_body req) = Some "admin@example.com" ->
    b_password (req_body req) = Some "admin123" ->
    exists administrator : User,
      In administrator (seedUsers L supply arrival []) /\
      login L E req (seedUsers L supply arrival []) =
        (respond 200 (token_and_user L E administrator), seedUsers L supply arrival []) /\
      _id administrator = fresh_id (supply 0%nat) /\
      get_field "role" (public_user administrator) = Some (JStr "admin").
Proof.
  intros L supply arrival E req Harrival Hids Hbcrypt Hemail Hpassword.
  destruct (seeding_result L supply arrival Harrival Hids) as [Hresult _].
  rewrite Hresult.
  assert (Hfind : User.findOne (seeded_users L supply arrival) (Some "admin@example.com")
                  = option_map (seeded_user L (supply 0%nat)) (nth_error defaultUsers 0)).
  { apply find_seeded_admin.
    - intros k Hk. apply (Permutation.Permutation_in k Harrival Hk).
    - apply (Permutation.Permutation_in 0%nat (Permutation.Permutation_sym Harrival)).
      now left. }
  cbn [nth_error defaultUsers option_map] in Hfind.
  set (administrator := seeded_user L (supply 0%nat) _) in Hfind.
  exists administrator. split; [|split; [|split; reflexivity]].
  - apply (findOne_In _ _ _ Hfind).
  - unfold login. rewrite Hemail, Hpassword, Hfind.
    unfold userSchema.comparePassword.
    change (password administrator)
      with (bcrypt_hash L "admin123" 12 (salt (supply 0%nat))).
    rewrite Hbcrypt. reflexivity.
Qed.

Lemma seeded_admin_can_log_in_witness :
  exists administrator : User,
    In administrator (seedUsers Sample.libs sample_supply [1; 0; 3; 2]%nat []) /\
    login Sample.libs Sample.env login_admin
        (seedUsers Sample.libs sample_supply [1; 0; 3; 2]%nat []) =
      (respond 200 (token_and_user Sample.libs Sample.env administrator),
       seedUsers Sample.libs sample_supply [1; 0; 3; 2]%nat []) /\
    _id administrator = fresh_id (sample_supply 0%nat) /\
    get_field "role" (public_user administrator) = Some (JStr "admin").
Proof.
  apply (seeded_admin_can_log_in Sample.libs sample_supply [1; 0; 3; 2]%nat Sample.env
           login_admin).
  - eapply Permutation.perm_trans; [apply Permutation.perm_swap|].
    do 2 apply Permutation.perm_skip. apply Permutation.perm_swap.
  - cbn. repeat constructor; cbn; intuition discriminate.
  - reflexivity.
  - reflexivity.
  - reflexivity.
Defined.
